(** * Trading engine: simulated broker worker and strategy runtime

    A shallow embedding of the per-symbol simulated broker worker
    ([simBrokerWorker], broker.go) and of the strategy runtime
    ([BasicStrategy]) of the backtesting engine, together with the
    properties of the latency model, request intake, time-in-force expiry,
    tick matching, event release, request tracking and history loading. *)

From Stdlib Require Import ZArith Lia Bool PrimFloat Permutation Sorted.
From Stdlib Require Uint63Axioms.
From stdpp Require Import base gmap strings list fin_maps sorting.

Local Open Scope string_scope.
Local Open Scope list_scope.
Local Open Scope Z_scope.

(** ** Go primitives *)

Module Go.

(** [int64] values are integers in [-2^63, 2^63); arithmetic wraps. *)
Definition wrap64 (z : Z) : Z := (z + 2 ^ 63) mod 2 ^ 64 - 2 ^ 63.

Definition int64_ok (z : Z) : Prop := - 2 ^ 63 <= z < 2 ^ 63.

Definition add64 (a b : Z) : Z := wrap64 (a + b).
Definition sub64 (a b : Z) : Z := wrap64 (a - b).
Definition mul64 (a b : Z) : Z := wrap64 (a * b).
Definition neg64 (a : Z) : Z := wrap64 (- a).

(** [int32] counter of [sync/atomic]. *)
Definition wrap32 (z : Z) : Z := (z + 2 ^ 31) mod 2 ^ 32 - 2 ^ 31.

(** [time.Duration] is an [int64] count of nanoseconds. *)
Definition Millisecond : Z := 1000000.
Definition Microsecond : Z := 1000.
Definition Second : Z := 1000000000.
Definition Minute : Z := 60 * Second.
Definition Day : Z := 86400 * Second.

(** [time.Time]: an instant, in nanoseconds since the Unix epoch, and the
    zone it is displayed in.  A [*time.Location] is taken to be a fixed
    offset, [zoneOffset] seconds east of UTC (no daylight-saving rules);
    the second counter of a [Time] is 64 bits wide and is not modelled to
    overflow. *)
Record Time : Type := mkTime { unixNano : Z; zoneOffset : Z }.

(** The zero [Time]: January 1, year 1, 00:00:00 UTC. *)
Definition zeroTime : Time := mkTime (- 62135596800 * Second) 0.

Definition Before (t u : Time) : bool := unixNano t <? unixNano u.
Definition After (t u : Time) : bool := unixNano u <? unixNano t.
Definition Unix (t : Time) : Z := unixNano t / Second.
Definition Add (t : Time) (d : Z) : Time :=
  mkTime (unixNano t + d) (zoneOffset t).

(** Wall clock of [t] in its own zone, in nanoseconds. *)
Definition wallNano (t : Time) : Z := unixNano t + zoneOffset t * Second.

(** Number of the calendar day of [t] (days since 1970-01-01) in its zone. *)
Definition dayNumber (t : Time) : Z := wallNano t / Day.

Definition Hour (t : Time) : Z := (wallNano t mod Day) / (3600 * Second).
Definition MinuteOf (t : Time) : Z := (wallNano t mod (3600 * Second)) / Minute.
Definition nanoOfDay (t : Time) : Z := wallNano t mod Day.

(** [time.Date] at a day given by its number: Go normalises the clock
    fields, so hour, minute and second add up linearly. *)
Definition DateOnDay (day h m s : Z) (zone : Z) : Time :=
  mkTime (day * Day + (h * 3600 + m * 60 + s) * Second - zone * Second) zone.

(** Proleptic Gregorian calendar, for [AddDate] with a year offset. *)
Definition civil_from_days (z0 : Z) : Z * Z * Z :=
  let z := z0 + 719468 in
  let era := z / 146097 in
  let doe := z - era * 146097 in
  let yoe := (doe - doe / 1460 + doe / 36524 - doe / 146096) / 365 in
  let y := yoe + era * 400 in
  let doy := doe - (365 * yoe + yoe / 4 - yoe / 100) in
  let mp := (5 * doy + 2) / 153 in
  let d := doy - (153 * mp + 2) / 5 + 1 in
  let m := if mp <? 10 then mp + 3 else mp - 9 in
  (if m <=? 2 then y + 1 else y, m, d).

Definition days_from_civil (y0 m d : Z) : Z :=
  let y := if m <=? 2 then y0 - 1 else y0 in
  let era := y / 400 in
  let yoe := y - era * 400 in
  let doy := (153 * (if 2 <? m then m - 3 else m + 9) + 2) / 5 + d - 1 in
  let doe := yoe * 365 + yoe / 4 - yoe / 100 + doy in
  era * 146097 + doe - 719468.

(** [t.AddDate(years, 0, days)]: same wall clock on the shifted date.
    Without a year offset the calendar day moves by [days]; with one, the
    date goes through the calendar and Go normalises a day that does not
    exist (February 29) to the following one. *)
Definition AddDate (t : Time) (years days : Z) : Time :=
  let day' :=
    if years =? 0 then dayNumber t + days
    else
      let '(y, m, d) := civil_from_days (dayNumber t) in
      days_from_civil (y + years) m d + days in
  mkTime (day' * Day + nanoOfDay t - zoneOffset t * Second) (zoneOffset t).

(** Stable sort of a slice by an integer key, the contract of
    [sort.SliceStable] with [less i j := key t[i] < key t[j]]: elements
    with equal keys keep their relative order. *)
Section StableSort.
Context {A : Type} (key : A -> Z).

Fixpoint insertStable (x : A) (l : list A) : list A :=
  match l with
  | [] => [x]
  | y :: l' => if key x <=? key y then x :: y :: l' else y :: insertStable x l'
  end.

Fixpoint SliceStable (l : list A) : list A :=
  match l with
  | [] => []
  | x :: l' => insertStable x (SliceStable l')
  end.

End StableSort.

(** Outcome of a call: a value, or a [panic] with its message. *)
Inductive Result (A : Type) : Type :=
| Ok (a : A)
| Panic (msg : string).
Arguments Ok {A} a.
Arguments Panic {A} msg.

End Go.

Import Go.

(** ** Data model

    The struct declarations of the instrument, the order, the tick, the
    candle, the trade and the events live outside the broker worker and the
    strategy runtime.  The records below are modelled from section 3 of the
    specification and carry the fields that the two sources read and write,
    under the names used there. *)

(** Modelled from the spec: the wall-clock time of an exchange schedule
    ("market-open wall-clock, market-close wall-clock"), read by the source
    as [MarketOpenTime.Hour], [.Minute], [.Second]. *)
Record TimeOfDay : Type := mkTimeOfDay {
  TimeOfDay_Hour : Z;
  TimeOfDay_Minute : Z;
  TimeOfDay_Second : Z
}.

(** Modelled from the spec: the exchange schedule of an instrument. *)
Record Exchange : Type := mkExchange {
  MarketOpenTime : TimeOfDay;
  MarketCloseTime : TimeOfDay
}.

(** Modelled from the spec: the instrument, "identified by a symbol and
    associated with an exchange schedule".  Instruments are handled through
    [*Instrument]; [Instrument_addr] is the identity of the pointer, which
    [==] on tickers compares. *)
Record Instrument : Type := mkInstrument {
  Instrument_addr : N;
  Instrument_Symbol : string;
  Instrument_Exchange : Exchange
}.

Definition Instrument_ptr_eqb (a b : Instrument) : bool :=
  (Instrument_addr a =? Instrument_addr b)%N.

(** Modelled from the spec: side, type, time in force and lifecycle state
    of an order, under the names of the constants in the sources.  The
    first three are string types in Go, and the sources handle values
    outside the declared constants (the [default] branches): the last
    constructor of each stands for any such value. *)
Inductive OrderSide : Type := OrderBuy | OrderSell | OrderSideOther.

Inductive OrderType : Type :=
| MarketOrder | LimitOrder | StopOrder
| LimitOnOpen | LimitOnClose | MarketOnOpen | MarketOnClose
| OrderTypeOther.

Inductive OrderTIF : Type := GTCTIF | DayTIF | AuctionTIF | OrderTIFOther.

Inductive OrderState : Type :=
| NewOrder | ConfirmedOrder | PartialFilledOrder
| FilledOrder | CanceledOrder | RejectedOrder.

Definition OrderType_eqb (a b : OrderType) : bool :=
  match a, b with
  | MarketOrder, MarketOrder | LimitOrder, LimitOrder | StopOrder, StopOrder
  | LimitOnOpen, LimitOnOpen | LimitOnClose, LimitOnClose
  | MarketOnOpen, MarketOnOpen | MarketOnClose, MarketOnClose
  | OrderTypeOther, OrderTypeOther => true
  | _, _ => false
  end.

Definition OrderState_eqb (a b : OrderState) : bool :=
  match a, b with
  | NewOrder, NewOrder | ConfirmedOrder, ConfirmedOrder
  | PartialFilledOrder, PartialFilledOrder | FilledOrder, FilledOrder
  | CanceledOrder, CanceledOrder | RejectedOrder, RejectedOrder => true
  | _, _ => false
  end.

(** Modelled from the spec: the order, with the fields the sources use. *)
Record Order : Type := mkOrder {
  Order_Side : OrderSide;
  Order_Qty : Z;
  Order_ExecQty : Z;
  Order_Ticker : Instrument;
  Order_Price : float;
  Order_State : OrderState;
  Order_Type : OrderType;
  Order_Tif : OrderTIF;
  Order_Destination : string;
  Order_Time : Time;
  Order_Id : string
}.

(** Broker-side view of an order.  Go embeds [*Order]; the broker only reads
    the embedded order, so it is held by value here. *)
Record simBrokerOrder : Type := mkSimBrokerOrder {
  sbo_Order : Order;
  BrokerState : OrderState;
  StateUpdTime : Time;
  BrokerExecQty : Z;
  BrokerPrice : float
}.

(** Modelled from the spec: the tick, "datetime, optional trade (last
    price, last size), optional quote (bid price, bid size, ask price, ask
    size), session markers (isOpening, isClosing)". *)
Record Tick : Type := mkTick {
  Tick_Ticker : Instrument;
  Tick_Datetime : Time;
  LastPrice : float;
  LastSize : Z;
  BidPrice : float;
  BidSize : Z;
  AskPrice : float;
  AskSize : Z;
  IsOpening : bool;
  IsClosing : bool
}.

(** Modelled from the spec: the candle, "datetime, open, high, low,
    close"; the time frame travels with the candle events. *)
Record Candle : Type := mkCandle {
  Candle_Ticker : Instrument;
  Candle_Datetime : Time;
  Open : float;
  High : float;
  Low : float;
  Close : float
}.

(** [TickArray] and [CandleArray] are slices of pointers; [None] is [nil]. *)
Abbreviation TickArray := (list (option Tick)).
Abbreviation CandleArray := (list (option Candle)).

(** Methods of [Order], [Tick] and [Candle] that the broker and the strategy
    call and whose bodies are not among the sources.  The development is
    parametric in them: what is proved holds for any implementation. *)
Class MarketDataOps : Type := {
  Order_isValid : Order -> bool;
  Tick_IsValid : Tick -> bool;
  Tick_HasTrade : Tick -> bool;
  Tick_HasQuote : Tick -> bool;
  Candle_isValid : Candle -> bool;
  Candle_isOpening : Candle -> bool;
  Candle_isClosingForTimeFrame : Candle -> string -> bool
}.

(** Modelled from the spec: what every event carries, "instrument,
    simulated timestamp"; [be] is the constructor the sources call. *)
Record BaseEvent : Type := be {
  BaseEvent_Time : Time;
  BaseEvent_Ticker : Instrument
}.

(** Modelled from the spec: the [event] interface and its implementations,
    with the payload fields the sources use. *)
Inductive event : Type :=
| NewOrderEvent (b : BaseEvent) (LinkedOrder : Order)
| OrderCancelRequestEvent (b : BaseEvent) (OrdId : string)
| OrderReplaceRequestEvent (b : BaseEvent) (OrdId : string) (NewPrice : float)
| NewTickEvent (b : BaseEvent) (tick : Tick)
| CandleOpenEvent (b : BaseEvent) (TimeFrame : string) (CandleTime : Time)
    (Price : float)
| CandleCloseEvent (b : BaseEvent) (TimeFrame : string) (candle : Candle)
| TickHistoryEvent (b : BaseEvent) (Ticks : TickArray)
| CandlesHistoryEvent (b : BaseEvent) (Candles : CandleArray)
| EndOfDataEvent (b : BaseEvent)
| OrderConfirmationEvent (b : BaseEvent) (OrdId : string)
| OrderRejectedEvent (b : BaseEvent) (OrdId : string) (Reason : string)
| OrderCancelEvent (b : BaseEvent) (OrdId : string)
| OrderCancelRejectEvent (b : BaseEvent) (OrdId : string) (Reason : string)
| OrderReplacedEvent (b : BaseEvent) (OrdId : string) (NewPrice : float)
| OrderReplaceRejectEvent (b : BaseEvent) (OrdId : string) (Reason : string)
| OrderFillEvent (b : BaseEvent) (OrdId : string) (Price : float) (Qty : Z)
| StrategyRequestNotDeliveredEvent (b : BaseEvent) (Request : option BaseEvent).

Definition baseOf (e : event) : BaseEvent :=
  match e with
  | NewOrderEvent b _ | OrderCancelRequestEvent b _
  | OrderReplaceRequestEvent b _ _ | NewTickEvent b _
  | CandleOpenEvent b _ _ _ | CandleCloseEvent b _ _
  | TickHistoryEvent b _ | CandlesHistoryEvent b _ | EndOfDataEvent b
  | OrderConfirmationEvent b _ | OrderRejectedEvent b _ _
  | OrderCancelEvent b _ | OrderCancelRejectEvent b _ _
  | OrderReplacedEvent b _ _ | OrderReplaceRejectEvent b _ _
  | OrderFillEvent b _ _ _ | StrategyRequestNotDeliveredEvent b _ => b
  end.

Definition getTime (e : event) : Time := BaseEvent_Time (baseOf e).
Definition getTicker (e : event) : Instrument := BaseEvent_Ticker (baseOf e).
Definition getSymbol (e : event) : string := Instrument_Symbol (getTicker e).

(** Error values: [errors.New] and the error structs the sources build.
    Type and state names are kept as values instead of their strings. *)
Inductive error : Type :=
| errors_New (msg : string)
| ErrInvalidOrder (OrdId Message Caller : string)
| ErrUnexpectedOrderType (OrdId : string) (ActualType ExpectedType : OrderType)
    (Message Caller : string)
| ErrUnexpectedOrderState (OrdId : string) (ActualState : OrderState)
    (Message Caller : string)
| ErrUnknownOrderType (OrdId Message Caller : string)
| ErrUnknownOrderSide (OrdId Message Caller : string)
| ErrBrokenTick (t : Tick) (Message Caller : string)
| ErrOrderIdIncorrect (OrdId Message Caller : string)
| ErrOrderNotFoundInConfirmedMap (OrdId Message Caller : string)
| ErrTrade (OrdId Message : string).

(** [eventArray.sort]: stable, by whole Unix seconds. *)
Definition eventKey (e : event) : Z := Unix (getTime e).
Definition eventArray_sort (t : list event) : list event :=
  SliceStable eventKey t.

(** ** The simulated broker worker *)

(** [events] and [errChan] hold what has been sent on the two channels,
    oldest first; [errChan = None] is the nil channel.  Errors are sent
    from spawned goroutines, so their order on the channel is the order in
    which the goroutines were started. *)
Record simBrokerWorker : Type := mkWorker {
  symbol : Instrument;
  errChan : option (list error);
  events : list event;
  delay : Z;
  strictLimitOrders : bool;
  orders : gmap string simBrokerOrder;
  generatedEvents : list event;
  requestEvents : list event;
  lastTickTime : Time;
  lastCandleTime : Time
}.

Definition set_orders (f : gmap string simBrokerOrder -> gmap string simBrokerOrder)
    (b : simBrokerWorker) : simBrokerWorker :=
  mkWorker (symbol b) (errChan b) (events b) (delay b) (strictLimitOrders b)
    (f (orders b)) (generatedEvents b) (requestEvents b)
    (lastTickTime b) (lastCandleTime b).

Definition set_generatedEvents (f : list event -> list event)
    (b : simBrokerWorker) : simBrokerWorker :=
  mkWorker (symbol b) (errChan b) (events b) (delay b) (strictLimitOrders b)
    (orders b) (f (generatedEvents b)) (requestEvents b)
    (lastTickTime b) (lastCandleTime b).

Definition set_requestEvents (f : list event -> list event)
    (b : simBrokerWorker) : simBrokerWorker :=
  mkWorker (symbol b) (errChan b) (events b) (delay b) (strictLimitOrders b)
    (orders b) (generatedEvents b) (f (requestEvents b))
    (lastTickTime b) (lastCandleTime b).

Definition set_events (f : list event -> list event)
    (b : simBrokerWorker) : simBrokerWorker :=
  mkWorker (symbol b) (errChan b) (f (events b)) (delay b) (strictLimitOrders b)
    (orders b) (generatedEvents b) (requestEvents b)
    (lastTickTime b) (lastCandleTime b).

Definition set_errChan (f : option (list error) -> option (list error))
    (b : simBrokerWorker) : simBrokerWorker :=
  mkWorker (symbol b) (f (errChan b)) (events b) (delay b) (strictLimitOrders b)
    (orders b) (generatedEvents b) (requestEvents b)
    (lastTickTime b) (lastCandleTime b).

Definition set_lastTickTime (t : Time) (b : simBrokerWorker) : simBrokerWorker :=
  mkWorker (symbol b) (errChan b) (events b) (delay b) (strictLimitOrders b)
    (orders b) (generatedEvents b) (requestEvents b) t (lastCandleTime b).

Definition set_lastCandleTime (t : Time) (b : simBrokerWorker) : simBrokerWorker :=
  mkWorker (symbol b) (errChan b) (events b) (delay b) (strictLimitOrders b)
    (orders b) (generatedEvents b) (requestEvents b) (lastTickTime b) t.

(** Methods of the worker: state passing, with [panic] as an outcome. *)
Definition W (A : Type) : Type := simBrokerWorker -> Result (A * simBrokerWorker).

Definition ret {A : Type} (a : A) : W A := fun b => Ok (a, b).

Definition bind {A B : Type} (m : W A) (f : A -> W B) : W B :=
  fun b => match m b with
           | Ok (a, b') => f a b'
           | Panic msg => Panic msg
           end.

Definition panic {A : Type} (msg : string) : W A := fun _ => Panic msg.

Definition get : W simBrokerWorker := fun b => Ok (b, b).

Definition modify (f : simBrokerWorker -> simBrokerWorker) : W unit :=
  fun b => Ok (tt, f b).

Notation "x <- m ;; k" := (bind m (fun x => k))
  (at level 100, m at next level, right associativity).
Notation "m ;;; k" := (bind m (fun _ => k))
  (at level 100, right associativity).

(** A [for ... range] loop over a slice whose body runs in the worker. *)
Fixpoint forEach {A : Type} (l : list A) (body : A -> W unit) : W unit :=
  match l with
  | [] => ret tt
  | x :: l' => body x ;;; forEach l' body
  end.

Definition simBrokerOrder_isActive (o : simBrokerOrder) : bool :=
  match BrokerState o with
  | ConfirmedOrder | PartialFilledOrder => true
  | _ => false
  end.

Definition with_state (st : OrderState) (t : Time) (o : simBrokerOrder) : simBrokerOrder :=
  mkSimBrokerOrder (sbo_Order o) st t (BrokerExecQty o) (BrokerPrice o).

Definition genTimeRoundTrip (b : simBrokerWorker) (baseTime : Time) : Time :=
  Add baseTime (mul64 (mul64 (delay b) 2) Millisecond).

Definition genTimeSingleTrip (b : simBrokerWorker) (baseTime : Time) : Time :=
  Add baseTime (mul64 (delay b) Millisecond).

Definition addRequestEvent (e : event) : W unit :=
  modify (set_requestEvents (fun l => l ++ [e])).

Definition newError (e : error) : W unit :=
  fun b => match errChan b with
           | None => Panic "Simulated broker error chan is nil"
           | Some sent => Ok (tt, set_errChan (fun _ => Some (sent ++ [e])) b)
           end.

(** [addBrokerEvent]: applies the event to the order it names and appends
    it to the buffer of generated events. *)
Definition addBrokerEvent (e : event) : W unit :=
  fun b =>
    let append (b1 : simBrokerWorker) : Result (unit * simBrokerWorker) :=
      Ok (tt, set_generatedEvents (fun l => l ++ [e]) b1) in
    match e with
    | OrderConfirmationEvent _ OrdId =>
        match orders b !! OrdId with
        | None => Panic "Confirmation of not existing order"
        | Some ord =>
            append (set_orders <[OrdId := with_state ConfirmedOrder (getTime e) ord]> b)
        end
    | OrderCancelEvent _ OrdId =>
        match orders b !! OrdId with
        | None => Panic ("Can't find order " +:+ OrdId +:+ " in confirmed map to cancel it. ")
        | Some ord =>
            append (set_orders <[OrdId := with_state CanceledOrder (getTime e) ord]> b)
        end
    | OrderReplacedEvent _ OrdId NewPrice =>
        match orders b !! OrdId with
        | None => Panic ("Can't find order " +:+ OrdId +:+ " in confirmed map to replace it. ")
        | Some ord =>
            append (set_orders
              <[OrdId := mkSimBrokerOrder (sbo_Order ord) (BrokerState ord)
                           (getTime e) (BrokerExecQty ord) NewPrice]> b)
        end
    | OrderFillEvent _ OrdId _ Qty =>
        match orders b !! OrdId with
        | None => Panic ("Can't find order " +:+ OrdId +:+ " in confirmed map to fill it. ")
        | Some ord =>
            let lvs := sub64 (Order_Qty (sbo_Order ord)) (BrokerExecQty ord) in
            if Qty =? lvs then
              append (set_orders
                <[OrdId := mkSimBrokerOrder (sbo_Order ord) FilledOrder
                             (StateUpdTime ord) (add64 (BrokerExecQty ord) Qty)
                             (BrokerPrice ord)]> b)
            else if lvs <? Qty then Panic "Large qty"
            else
              append (set_orders
                <[OrdId := mkSimBrokerOrder (sbo_Order ord) PartialFilledOrder
                             (StateUpdTime ord) (add64 (BrokerExecQty ord) Qty)
                             (BrokerPrice ord)]> b)
        end
    | OrderRejectedEvent _ OrdId _ =>
        match orders b !! OrdId with
        | None => Panic "Confirmation of not existing order"
        | Some ord =>
            let st := if OrderState_eqb (BrokerState ord) ConfirmedOrder
                      then BrokerState ord else RejectedOrder in
            append (set_orders <[OrdId := with_state st (getTime e) ord]> b)
        end
    | _ => append b
    end.

Section Broker.
Context `{MarketDataOps}.

(** *** Request handlers *)

Definition onNewOrder (e : BaseEvent) (LinkedOrder : Order) : W unit :=
  b <- get ;;
  if negb (Order_isValid LinkedOrder) then
    let rejectEvent :=
      OrderRejectedEvent
        (be (genTimeRoundTrip b (BaseEvent_Time e)) (BaseEvent_Ticker e))
        (Order_Id LinkedOrder)
        "Sim Broker: can't confirm order. Order is not valid" in
    modify (set_orders
      <[Order_Id LinkedOrder :=
          mkSimBrokerOrder LinkedOrder RejectedOrder (getTime rejectEvent) 0 0%float]>) ;;;
    addBrokerEvent rejectEvent
  else
    match orders b !! Order_Id LinkedOrder with
    | Some _ =>
        addBrokerEvent
          (OrderRejectedEvent
             (be (genTimeRoundTrip b (BaseEvent_Time e)) (BaseEvent_Ticker e))
             (Order_Id LinkedOrder)
             "Sim Broker: can't confirm order. Order with this ID already exists on broker side")
    | None =>
        let confEvent :=
          OrderConfirmationEvent
            (be (genTimeRoundTrip b (BaseEvent_Time e)) (BaseEvent_Ticker e))
            (Order_Id LinkedOrder) in
        modify (set_orders
          <[Order_Id LinkedOrder :=
              mkSimBrokerOrder LinkedOrder NewOrder (getTime confEvent) 0
                (Order_Price LinkedOrder)]>) ;;;
        addBrokerEvent confEvent
    end.

Definition onCancelRequest (e : BaseEvent) (OrdId : string) : W unit :=
  b <- get ;;
  let newEvTime := genTimeRoundTrip b (BaseEvent_Time e) in
  let reject (reason : string) :=
    addBrokerEvent
      (OrderCancelRejectEvent (be newEvTime (BaseEvent_Ticker e)) OrdId
         (reason +:+ OrdId)) in
  match orders b !! OrdId with
  | None => reject "Broker can't find order with ID: "
  | Some o =>
      match BrokerState o with
      | CanceledOrder => reject "Order is already canceled ID: "
      | NewOrder => reject "Order is not confirmed yet ID: "
      | FilledOrder => reject "Order is already filled ID: "
      | _ => addBrokerEvent (OrderCancelEvent (be newEvTime (BaseEvent_Ticker e)) OrdId)
      end
  end.

(** The reject reason of an invalid price prints the price with [%v]; the
    number is left out of the text here. *)
Definition onReplaceRequest (e : BaseEvent) (OrdId : string) (NewPrice : float) : W unit :=
  b <- get ;;
  let newEvTime := genTimeRoundTrip b (BaseEvent_Time e) in
  let reject (reason : string) :=
    addBrokerEvent
      (OrderReplaceRejectEvent (be newEvTime (BaseEvent_Ticker e)) OrdId reason) in
  match orders b !! OrdId with
  | None => reject ("Broker can't find order with ID: " +:+ OrdId)
  | Some o =>
      match BrokerState o with
      | CanceledOrder => reject ("Order is already canceled ID: " +:+ OrdId)
      | NewOrder => reject ("Order is not confirmed yet ID: " +:+ OrdId)
      | FilledOrder => reject ("Order is already filled ID: " +:+ OrdId)
      | _ =>
          if PrimFloat.is_nan NewPrice || PrimFloat.eqb NewPrice 0%float then
            reject "Replace price is not valid"
          else
            addBrokerEvent
              (OrderReplacedEvent (be newEvTime (BaseEvent_Ticker e)) OrdId NewPrice)
      end
  end.

(** Dispatch of one stored request, the type switch of
    [proceedStoredRequests]. *)
Definition handleRequest (e : event) : W unit :=
  match e with
  | NewOrderEvent eb o => onNewOrder eb o
  | OrderCancelRequestEvent eb OrdId => onCancelRequest eb OrdId
  | OrderReplaceRequestEvent eb OrdId NewPrice => onReplaceRequest eb OrdId NewPrice
  | _ => panic "Unexpected event type"
  end.

Fixpoint proceedLoop (beforeTime : Time) (l : list event) (eventsLeft : list event)
    : W (list event) :=
  match l with
  | [] => ret eventsLeft
  | e :: l' =>
      b <- get ;;
      if Before (genTimeSingleTrip b (getTime e)) beforeTime then
        handleRequest e ;;; proceedLoop beforeTime l' eventsLeft
      else proceedLoop beforeTime l' (eventsLeft ++ [e])
  end.

Definition proceedStoredRequests (beforeTime : Time) : W unit :=
  b <- get ;;
  match requestEvents b with
  | [] => ret tt
  | _ =>
      let sorted := eventArray_sort (requestEvents b) in
      modify (set_requestEvents (fun _ => sorted)) ;;;
      eventsLeft <- proceedLoop beforeTime sorted [] ;;
      modify (set_requestEvents (fun _ => eventsLeft))
  end.

(** *** Time in force *)

Definition getExpirationTime (o : simBrokerOrder) : Result Time :=
  let t := Order_Time (sbo_Order o) in
  match Order_Tif (sbo_Order o) with
  | GTCTIF => Ok (AddDate t 10 0)
  | DayTIF =>
      let nextDay := AddDate t 0 1 in
      Ok (DateOnDay (dayNumber nextDay) 0 0 0 (zoneOffset t))
  | AuctionTIF =>
      let exch := Instrument_Exchange (Order_Ticker (sbo_Order o)) in
      match Order_Type (sbo_Order o) with
      | MarketOnOpen | LimitOnOpen =>
          let mot := MarketOpenTime exch in
          Ok (Add (DateOnDay (dayNumber t) (TimeOfDay_Hour mot) (TimeOfDay_Minute mot)
                     (TimeOfDay_Second mot) (zoneOffset t))
                (3 * Minute))
      | MarketOnClose | LimitOnClose =>
          let mct := MarketCloseTime exch in
          Ok (Add (DateOnDay (dayNumber t) (TimeOfDay_Hour mct) (TimeOfDay_Minute mct)
                     (TimeOfDay_Second mct) (zoneOffset t))
                (3 * Second))
      | _ => Panic "Found non auction order type with auction tif"
      end
  | OrderTIFOther => Panic "Unknown order tif: "
  end.

Definition isExpired (o : simBrokerOrder) (t : Time) : Result bool :=
  match getExpirationTime o with
  | Ok exp => Ok (After t exp)
  | Panic msg => Panic msg
  end.

Definition cancelByTif (o : simBrokerOrder) (t : Time) : W bool :=
  match isExpired o t with
  | Panic msg => panic msg
  | Ok false => ret false
  | Ok true =>
      match getExpirationTime o with
      | Panic msg => panic msg
      | Ok exp =>
          addBrokerEvent
            (OrderCancelEvent (be exp (Order_Ticker (sbo_Order o)))
               (Order_Id (sbo_Order o))) ;;;
          ret true
      end
  end.

(** *** Matching on ticks *)

Definition lvsQty (order : simBrokerOrder) : Z :=
  sub64 (Order_Qty (sbo_Order order)) (BrokerExecQty order).

Definition validateOrderForExecution (order : simBrokerOrder) (expectedType : OrderType)
    : option error :=
  let id := Order_Id (sbo_Order order) in
  if negb (Order_isValid (sbo_Order order)) then
    Some (ErrInvalidOrder id "Order" "Sim Broker")
  else if negb (OrderType_eqb (Order_Type (sbo_Order order)) expectedType) then
    Some (ErrUnexpectedOrderType id (Order_Type (sbo_Order order)) expectedType
            "Got in fillOnTickLimit" "Sim Broker")
  else if negb (simBrokerOrder_isActive order) then
    Some (ErrUnexpectedOrderState id (Order_State (sbo_Order order))
            "Got in fillOnTickLimit" "Sim Broker")
  else if lvsQty order <=? 0 then
    Some (errors_New "Sim broker: Lvs qty is zero or less. Nothing to execute. ")
  else None.

(** A fill answering a tick: stamped one round trip after the tick. *)
Definition tickFill (b : simBrokerWorker) (order : simBrokerOrder) (tick : Tick)
    (price : float) (qty : Z) : event :=
  OrderFillEvent
    (be (genTimeRoundTrip b (Tick_Datetime tick)) (Order_Ticker (sbo_Order order)))
    (Order_Id (sbo_Order order)) price qty.

Definition fillOnTickLimit (order : simBrokerOrder) (tick : Tick) : W (option event) :=
  if negb (Tick_HasTrade tick) then ret None
  else
    match validateOrderForExecution order LimitOrder with
    | Some err => newError err ;;; ret None
    | None =>
        b <- get ;;
        let lvsQty := lvsQty order in
        let qty := if LastSize tick <? lvsQty then LastSize tick else lvsQty in
        match Order_Side (sbo_Order order) with
        | OrderSell =>
            if PrimFloat.ltb (BrokerPrice order) (LastPrice tick) then
              ret (Some (tickFill b order tick (BrokerPrice order) qty))
            else if PrimFloat.eqb (LastPrice tick) (BrokerPrice order)
                    && negb (strictLimitOrders b) then
              ret (Some (tickFill b order tick (BrokerPrice order) qty))
            else ret None
        | OrderBuy =>
            if PrimFloat.ltb (LastPrice tick) (BrokerPrice order) then
              ret (Some (tickFill b order tick (BrokerPrice order) qty))
            else if PrimFloat.eqb (LastPrice tick) (BrokerPrice order)
                    && negb (strictLimitOrders b) then
              ret (Some (tickFill b order tick (BrokerPrice order) qty))
            else ret None
        | OrderSideOther =>
            newError (errors_New "Sim broker: can't check fill for order. Unknown side. ") ;;;
            ret None
        end
    end.

Definition fillOnTickStop (order : simBrokerOrder) (tick : Tick) : W (option event) :=
  if negb (Tick_HasTrade tick) then ret None
  else
    match validateOrderForExecution order StopOrder with
    | Some err => newError err ;;; ret None
    | None =>
        b <- get ;;
        let lvsQty := lvsQty order in
        let qty0 := if LastSize tick <? lvsQty then LastSize tick else lvsQty in
        match Order_Side (sbo_Order order) with
        | OrderSell =>
            if PrimFloat.ltb (BrokerPrice order) (LastPrice tick) then ret None
            else
              let price := if Tick_HasQuote tick then BidPrice tick else LastPrice tick in
              let qty := if Tick_HasQuote tick then lvsQty else qty0 in
              ret (Some (tickFill b order tick price qty))
        | OrderBuy =>
            if PrimFloat.ltb (LastPrice tick) (BrokerPrice order) then ret None
            else
              let price := if Tick_HasQuote tick then AskPrice tick else LastPrice tick in
              let qty := if Tick_HasQuote tick then lvsQty else qty0 in
              ret (Some (tickFill b order tick price qty))
        | OrderSideOther =>
            newError (ErrUnknownOrderSide (Order_Id (sbo_Order order))
                        "Got in fillOnTickStop" "Sim Broker") ;;;
            ret None
        end
    end.

Definition fillOnTickMarket (order : simBrokerOrder) (tick : Tick) : W (option event) :=
  if negb (OrderType_eqb (Order_Type (sbo_Order order)) MarketOrder) then
    newError (ErrUnexpectedOrderType (Order_Id (sbo_Order order))
                (Order_Type (sbo_Order order)) MarketOrder EmptyString "SimBroker.fillOnTickMarket") ;;;
    ret None
  else if negb (Order_isValid (sbo_Order order)) then
    newError (ErrInvalidOrder (Order_Id (sbo_Order order))
                "Can't check executions for invalid order." "simBrokerWorker") ;;;
    ret None
  else
    b <- get ;;
    if Tick_HasQuote tick then
      let lvsQty := lvsQty order in
      match Order_Side (sbo_Order order) with
      | OrderBuy =>
          let qty := if AskSize tick <? lvsQty then AskSize tick else lvsQty in
          ret (Some (tickFill b order tick (AskPrice tick) qty))
      | OrderSell =>
          let qty := if BidSize tick <? lvsQty then BidSize tick else lvsQty in
          ret (Some (tickFill b order tick (BidPrice tick) qty))
      | OrderSideOther =>
          newError (errors_New "Sim Broker: unknown order side: ") ;;;
          ret None
      end
    else if negb (Tick_HasTrade tick) then
      newError (errors_New "Sim Broker: tick doesn't contain trade. ") ;;;
      ret None
    else
      ret (Some (tickFill b order tick (LastPrice tick) (Order_Qty (sbo_Order order)))).

Definition fillOnTickLimitAuction (order : simBrokerOrder) (tick : Tick) : W (list event) :=
  b <- get ;;
  let stamp := genTimeRoundTrip b (Tick_Datetime tick) in
  let id := Order_Id (sbo_Order order) in
  let cancelOnTick := OrderCancelEvent (be stamp (Tick_Ticker tick)) id in
  let rest : W (list event) :=
    if PrimFloat.eqb (LastPrice tick) (BrokerPrice order) && strictLimitOrders b then
      ret [cancelOnTick]
    else
      let execQty :=
        if LastSize tick <? Order_Qty (sbo_Order order) then LastSize tick
        else Order_Qty (sbo_Order order) in
      let fillE := tickFill b order tick (LastPrice tick) execQty in
      if execQty <? Order_Qty (sbo_Order order) then
        ret [fillE; OrderCancelEvent (be stamp (Order_Ticker (sbo_Order order))) id]
      else ret [fillE] in
  match Order_Side (sbo_Order order) with
  | OrderSell =>
      if PrimFloat.ltb (LastPrice tick) (BrokerPrice order) then ret [cancelOnTick]
      else rest
  | OrderBuy =>
      if PrimFloat.ltb (BrokerPrice order) (LastPrice tick) then ret [cancelOnTick]
      else rest
  | OrderSideOther =>
      newError (ErrUnknownOrderSide id "From fillOnTickLimitAuction" "Sim Broker") ;;;
      ret []
  end.

Definition fillOnTickLOO (order : simBrokerOrder) (tick : Tick) : W (list event) :=
  match validateOrderForExecution order LimitOnOpen with
  | Some err => newError err ;;; ret []
  | None => if negb (IsOpening tick) then ret [] else fillOnTickLimitAuction order tick
  end.

Definition fillOnTickLOC (order : simBrokerOrder) (tick : Tick) : W (list event) :=
  match validateOrderForExecution order LimitOnClose with
  | Some err => newError err ;;; ret []
  | None => if negb (IsClosing tick) then ret [] else fillOnTickLimitAuction order tick
  end.

Definition fillOnTickMOO (order : simBrokerOrder) (tick : Tick) : W (option event) :=
  if negb (IsOpening tick) then ret None
  else if negb (Tick_HasTrade tick) then ret None
  else
    match validateOrderForExecution order MarketOnOpen with
    | Some err => newError err ;;; ret None
    | None =>
        b <- get ;;
        ret (Some (tickFill b order tick (LastPrice tick) (Order_Qty (sbo_Order order))))
    end.

Definition fillOnTickMOC (order : simBrokerOrder) (tick : Tick) : W (option event) :=
  if negb (IsClosing tick) then ret None
  else if negb (Tick_HasTrade tick) then ret None
  else
    match validateOrderForExecution order MarketOnClose with
    | Some err => newError err ;;; ret None
    | None =>
        b <- get ;;
        ret (Some (tickFill b order tick (LastPrice tick) (Order_Qty (sbo_Order order))))
    end.

Definition convertToList (e : option event) : list event :=
  match e with
  | None => []
  | Some e => [e]
  end.

Definition findExecutionsOnTick (orderSim : simBrokerOrder) (tick : Tick) : W (list event) :=
  match validateOrderForExecution orderSim (Order_Type (sbo_Order orderSim)) with
  | Some err => newError err ;;; ret []
  | None =>
      match Order_Type (sbo_Order orderSim) with
      | MarketOrder => e <- fillOnTickMarket orderSim tick ;; ret (convertToList e)
      | LimitOrder => e <- fillOnTickLimit orderSim tick ;; ret (convertToList e)
      | StopOrder => e <- fillOnTickStop orderSim tick ;; ret (convertToList e)
      | LimitOnClose => fillOnTickLOC orderSim tick
      | LimitOnOpen => fillOnTickLOO orderSim tick
      | MarketOnOpen => e <- fillOnTickMOO orderSim tick ;; ret (convertToList e)
      | MarketOnClose => e <- fillOnTickMOC orderSim tick ;; ret (convertToList e)
      | OrderTypeOther =>
          newError (ErrUnknownOrderType (Order_Id (sbo_Order orderSim))
                      "found order with type: " "Sim Broker") ;;;
          ret []
      end
  end.

(** *** Matching on candles *)

(** A fill answering a candle event [eb]: stamped with the event's time,
    for the whole leaves quantity. *)
Definition candleFill (eb : BaseEvent) (o : simBrokerOrder) (price : float) : event :=
  OrderFillEvent (be (BaseEvent_Time eb) (BaseEvent_Ticker eb))
    (Order_Id (sbo_Order o)) price (lvsQty o).

Definition candleCancel (eb : BaseEvent) (o : simBrokerOrder) : event :=
  OrderCancelEvent (be (BaseEvent_Time eb) (BaseEvent_Ticker eb)) (Order_Id (sbo_Order o)).

Definition fillIfPriced (eb : BaseEvent) (o : simBrokerOrder) (fillPrice : float)
    : option event :=
  if PrimFloat.is_nan fillPrice then None else Some (candleFill eb o fillPrice).

Definition dayOrWeek (TimeFrame : string) : bool :=
  String.eqb TimeFrame "D" || String.eqb TimeFrame "W".

Definition fillOnCandleCloseLimit (o : simBrokerOrder) (eb : BaseEvent)
    (TimeFrame : string) (c : Candle) : W (option event) :=
  b <- get ;;
  let bp := BrokerPrice o in
  let opensHere :=
    dayOrWeek TimeFrame || (negb (String.eqb TimeFrame "D") && Candle_isOpening c) in
  if negb (Before (StateUpdTime o) (Candle_Datetime c)) then
    let p1 :=
      match Order_Side (sbo_Order o) with
      | OrderBuy =>
          if PrimFloat.ltb (Low c) (Open c) && PrimFloat.ltb (Low c) bp
          then bp else PrimFloat.nan
      | _ => PrimFloat.nan
      end in
    let p2 :=
      match Order_Side (sbo_Order o) with
      | OrderSell =>
          if PrimFloat.ltb (Open c) (High c) && PrimFloat.ltb bp (High c)
          then bp else p1
      | _ => p1
      end in
    ret (fillIfPriced eb o p2)
  else
    match Order_Side (sbo_Order o) with
    | OrderBuy =>
        if PrimFloat.ltb (Low c) bp
           || (PrimFloat.eqb (Low c) bp && negb (strictLimitOrders b)) then
          ret (fillIfPriced eb o
                 (if opensHere && PrimFloat.ltb (Open c) bp then Open c else bp))
        else ret (fillIfPriced eb o PrimFloat.nan)
    | OrderSell =>
        if PrimFloat.ltb bp (High c)
           || (PrimFloat.eqb (High c) bp && negb (strictLimitOrders b)) then
          ret (fillIfPriced eb o
                 (if opensHere && PrimFloat.ltb bp (Open c) then Open c else bp))
        else ret (fillIfPriced eb o PrimFloat.nan)
    | OrderSideOther => panic "Unknown order side: "
    end.

Definition fillOnCandleCloseMOC (o : simBrokerOrder) (eb : BaseEvent)
    (TimeFrame : string) (c : Candle) : W (option event) :=
  if negb (Candle_isClosingForTimeFrame c TimeFrame) then ret None
  else ret (Some (candleFill eb o (Close c))).

Definition fillOnCandleCloseLOC (o : simBrokerOrder) (eb : BaseEvent)
    (TimeFrame : string) (c : Candle) : W (option event) :=
  if negb (Candle_isClosingForTimeFrame c TimeFrame) then ret None
  else
    b <- get ;;
    let bp := BrokerPrice o in
    let priced (fillPrice : float) : W (option event) :=
      if PrimFloat.is_nan fillPrice then ret (Some (candleCancel eb o))
      else ret (Some (candleFill eb o fillPrice)) in
    match Order_Side (sbo_Order o) with
    | OrderBuy =>
        priced (if PrimFloat.ltb (Close c) bp
                   || (PrimFloat.eqb (Close c) bp && negb (strictLimitOrders b))
                then Close c else PrimFloat.nan)
    | OrderSell =>
        priced (if PrimFloat.ltb bp (Close c)
                   || (PrimFloat.eqb (Close c) bp && negb (strictLimitOrders b))
                then Close c else PrimFloat.nan)
    | OrderSideOther => panic "Unknown side"
    end.

Definition fillOnCandleCloseStop (o : simBrokerOrder) (eb : BaseEvent)
    (TimeFrame : string) (c : Candle) : W (option event) :=
  let bp := BrokerPrice o in
  if negb (Before (StateUpdTime o) (Candle_Datetime c)) then
    let p1 :=
      match Order_Side (sbo_Order o) with
      | OrderBuy =>
          if PrimFloat.ltb (Open c) (High c) && PrimFloat.ltb bp (High c)
          then Open c else PrimFloat.nan
      | _ => PrimFloat.nan
      end in
    let p2 :=
      match Order_Side (sbo_Order o) with
      | OrderSell =>
          if PrimFloat.ltb (Low c) (Open c) && PrimFloat.ltb (Low c) bp
          then Open c else p1
      | _ => p1
      end in
    ret (fillIfPriced eb o p2)
  else
    match Order_Side (sbo_Order o) with
    | OrderBuy =>
        if PrimFloat.leb bp (High c) then
          ret (fillIfPriced eb o (if PrimFloat.ltb bp (Open c) then Open c else bp))
        else ret (fillIfPriced eb o PrimFloat.nan)
    | OrderSell =>
        if PrimFloat.leb (Low c) bp then
          ret (fillIfPriced eb o (if PrimFloat.ltb (Open c) bp then Open c else bp))
        else ret (fillIfPriced eb o PrimFloat.nan)
    | OrderSideOther => panic "Unknown order side: "
    end.

Definition findExecutionsOnCandleClose (o : simBrokerOrder) (eb : BaseEvent)
    (TimeFrame : string) (c : Candle) : W (option event) :=
  match Order_Type (sbo_Order o) with
  | LimitOrder => fillOnCandleCloseLimit o eb TimeFrame c
  | StopOrder => fillOnCandleCloseStop o eb TimeFrame c
  | LimitOnClose => fillOnCandleCloseLOC o eb TimeFrame c
  | MarketOnClose => fillOnCandleCloseMOC o eb TimeFrame c
  | MarketOrder => panic "Not implemented"
  | _ => ret None
  end.

(** The candle is the session-open candle of the order's exchange. *)
Definition atMarketOpen (o : simBrokerOrder) (CandleTime : Time) : bool :=
  let mot := MarketOpenTime (Instrument_Exchange (Order_Ticker (sbo_Order o))) in
  (Hour CandleTime =? TimeOfDay_Hour mot) && (MinuteOf CandleTime =? TimeOfDay_Minute mot).

Definition fillOnCandleOpenMOO (o : simBrokerOrder) (eb : BaseEvent)
    (TimeFrame : string) (CandleTime : Time) (Price : float) : W (option event) :=
  if dayOrWeek TimeFrame then ret (Some (candleFill eb o Price))
  else if negb (atMarketOpen o CandleTime) then ret None
  else ret (Some (candleFill eb o Price)).

Definition fillOnCandleOpenLOO (o : simBrokerOrder) (eb : BaseEvent)
    (TimeFrame : string) (CandleTime : Time) (Price : float) : W (option event) :=
  b <- get ;;
  if negb (dayOrWeek TimeFrame) && negb (atMarketOpen o CandleTime) then ret None
  else
    let bp := BrokerPrice o in
    match Order_Side (sbo_Order o) with
    | OrderBuy =>
        if PrimFloat.ltb Price bp || (PrimFloat.eqb Price bp && negb (strictLimitOrders b))
        then ret (Some (candleFill eb o Price))
        else ret (Some (candleCancel eb o))
    | OrderSell =>
        if PrimFloat.ltb bp Price || (PrimFloat.eqb Price bp && negb (strictLimitOrders b))
        then ret (Some (candleFill eb o Price))
        else ret (Some (candleCancel eb o))
    | OrderSideOther => panic "Unknow side"
    end.

Definition fillOnCandleOpenMarket (o : simBrokerOrder) (eb : BaseEvent)
    (TimeFrame : string) (CandleTime : Time) (Price : float) : W (option event) :=
  ret (Some (candleFill eb o Price)).

Definition fillOnCandleOpenLimit (o : simBrokerOrder) (eb : BaseEvent)
    (TimeFrame : string) (CandleTime : Time) (Price : float) : W (option event) :=
  b <- get ;;
  let bp := BrokerPrice o in
  let fillPrice := if dayOrWeek TimeFrame then Price else bp in
  let afterSwitch : W (option event) :=
    if negb (strictLimitOrders b) && PrimFloat.eqb Price bp
    then ret (Some (candleFill eb o fillPrice)) else ret None in
  match Order_Side (sbo_Order o) with
  | OrderBuy =>
      if PrimFloat.ltb Price bp || (PrimFloat.eqb Price bp && negb (strictLimitOrders b))
      then ret (Some (candleFill eb o fillPrice)) else afterSwitch
  | OrderSell =>
      if PrimFloat.ltb bp Price || (PrimFloat.eqb Price bp && negb (strictLimitOrders b))
      then ret (Some (candleFill eb o fillPrice)) else afterSwitch
  | OrderSideOther => panic "Unknown order side: "
  end.

Definition fillOnCandleOpenStop (o : simBrokerOrder) (eb : BaseEvent)
    (TimeFrame : string) (CandleTime : Time) (Price : float) : W (option event) :=
  let bp := BrokerPrice o in
  match Order_Side (sbo_Order o) with
  | OrderBuy =>
      if PrimFloat.ltb bp Price then ret (Some (candleFill eb o Price)) else ret None
  | OrderSell =>
      if PrimFloat.ltb Price bp then ret (Some (candleFill eb o Price)) else ret None
  | OrderSideOther => panic "Unknown order side: "
  end.

Definition findExecutionsOnCandleOpen (o : simBrokerOrder) (eb : BaseEvent)
    (TimeFrame : string) (CandleTime : Time) (Price : float) : W (option event) :=
  match Order_Type (sbo_Order o) with
  | LimitOrder => fillOnCandleOpenLimit o eb TimeFrame CandleTime Price
  | LimitOnOpen => fillOnCandleOpenLOO o eb TimeFrame CandleTime Price
  | StopOrder => fillOnCandleOpenStop o eb TimeFrame CandleTime Price
  | MarketOnOpen => fillOnCandleOpenMOO o eb TimeFrame CandleTime Price
  | MarketOrder => fillOnCandleOpenMarket o eb TimeFrame CandleTime Price
  | _ => ret None
  end.

(** *** Executions and release of events *)

(** The body of the three [for _, o := range b.orders] loops, for the order
    stored under [k].  [genEvents] collects the matcher's events; a
    time-in-force cancel goes through [addBrokerEvent] at once. *)
Definition visitOrder (mdEvent : event) (k : string) (genEvents : list event)
    : W (list event) :=
  b <- get ;;
  match orders b !! k with
  | None => ret genEvents
  | Some o =>
      let sym := Instrument_Symbol (Order_Ticker (sbo_Order o)) in
      match mdEvent with
      | NewTickEvent eb tick =>
          if simBrokerOrder_isActive o && String.eqb sym (Instrument_Symbol (BaseEvent_Ticker eb)) then
            if Before (StateUpdTime o) (Tick_Datetime tick) then
              cancel <- cancelByTif o (Tick_Datetime tick) ;;
              if cancel : bool then ret genEvents
              else e <- findExecutionsOnTick o tick ;; ret (genEvents ++ e)
            else ret genEvents
          else ret genEvents
      | CandleCloseEvent eb TimeFrame c =>
          if String.eqb sym (Instrument_Symbol (Candle_Ticker c)) && simBrokerOrder_isActive o then
            if Before (StateUpdTime o) (BaseEvent_Time eb) then
              cancel <- cancelByTif o (Candle_Datetime c) ;;
              if cancel : bool then ret genEvents
              else e <- findExecutionsOnCandleClose o eb TimeFrame c ;;
                   ret (genEvents ++ convertToList e)
            else ret genEvents
          else ret genEvents
      | CandleOpenEvent eb TimeFrame CandleTime Price =>
          if Instrument_ptr_eqb (Order_Ticker (sbo_Order o)) (BaseEvent_Ticker eb)
             && simBrokerOrder_isActive o then
            if Before (StateUpdTime o) CandleTime then
              cancel <- cancelByTif o CandleTime ;;
              if cancel : bool then ret genEvents
              else e <- findExecutionsOnCandleOpen o eb TimeFrame CandleTime Price ;;
                   ret (genEvents ++ convertToList e)
            else
              match Order_Type (sbo_Order o) with
              | MarketOrder | StopOrder =>
                  if negb (After (StateUpdTime o) (BaseEvent_Time eb)) then
                    e <- findExecutionsOnCandleOpen o eb TimeFrame CandleTime Price ;;
                    ret (genEvents ++ convertToList e)
                  else ret genEvents
              | _ => ret genEvents
              end
          else ret genEvents
      | _ => panic "Unexpected event type for simBrokerWorker"
      end
  end.

(** Iteration over the order map, visiting the ids in the order [keys]. *)
Fixpoint rangeOrders (mdEvent : event) (keys : list string) (genEvents : list event)
    : W (list event) :=
  match keys with
  | [] => ret genEvents
  | k :: keys' =>
      genEvents' <- visitOrder mdEvent k genEvents ;;
      rangeOrders mdEvent keys' genEvents'
  end.

Definition isMarketData (e : event) : bool :=
  match e with
  | NewTickEvent _ _ | CandleCloseEvent _ _ _ | CandleOpenEvent _ _ _ _ => true
  | _ => false
  end.

(** The final loop of [findExecutions]: events not after [t] go to
    [eventsToSend], the others to [eventsLeft]. *)
Fixpoint splitByTime (t : Time) (l : list event) (eventsToSend eventsLeft : list event)
    : list event * list event :=
  match l with
  | [] => (eventsToSend, eventsLeft)
  | e :: l' =>
      if negb (After (getTime e) t) then splitByTime t l' (eventsToSend ++ [e]) eventsLeft
      else splitByTime t l' eventsToSend (eventsLeft ++ [e])
  end.

Definition releaseEvents (mdEvent : event) : W unit :=
  modify (fun b =>
    let sorted := eventArray_sort (generatedEvents b) in
    let '(eventsToSend, eventsLeft) := splitByTime (getTime mdEvent) sorted [] [] in
    set_events (fun sent => sent ++ eventsToSend)
      (set_generatedEvents (fun _ => eventsLeft) b)).

(** Go leaves the order of a map iteration unspecified: [mapOrder] gives,
    for the map that is ranged over, the order in which its ids are visited. *)
Definition findExecutions (mapOrder : gmap string simBrokerOrder -> list string)
    (mdEvent : event) : W unit :=
  b <- get ;;
  if (size (orders b) =? 0)%nat && (length (generatedEvents b) =? 0)%nat then
    modify (set_events (fun sent => sent ++ [mdEvent]))
  else
    modify (set_generatedEvents (fun l => l ++ [mdEvent])) ;;;
    genEvents <- (if isMarketData mdEvent then rangeOrders mdEvent (mapOrder (orders b)) []
                  else panic "Unexpected event type for simBrokerWorker") ;;
    forEach genEvents addBrokerEvent ;;;
    releaseEvents mdEvent.

(** *** Market data handlers and dispatch *)

Definition onCandleOpen (mapOrder : gmap string simBrokerOrder -> list string)
    (e : event) (CandleTime : Time) : W unit :=
  b <- get ;;
  if Before CandleTime (lastCandleTime b) then panic "Candle before seen candle"
  else
    modify (set_lastCandleTime CandleTime) ;;;
    proceedStoredRequests (getTime e) ;;;
    findExecutions mapOrder e.

Definition onCandleClose (mapOrder : gmap string simBrokerOrder -> list string)
    (e : event) : W unit :=
  b <- get ;;
  if Before (getTime e) (lastCandleTime b) then panic "Candle before seen candle"
  else
    modify (set_lastCandleTime (getTime e)) ;;;
    proceedStoredRequests (getTime e) ;;;
    findExecutions mapOrder e.

Definition onTick (mapOrder : gmap string simBrokerOrder -> list string)
    (e : event) (tick : Tick) : W unit :=
  if negb (Tick_IsValid tick) then
    newError (ErrBrokenTick tick "Got in onTick" "Sim Broker")
  else
    b <- get ;;
    if Before (Tick_Datetime tick) (lastTickTime b) then panic "Tick before seen tick"
    else
      modify (set_lastTickTime (Tick_Datetime tick)) ;;;
      proceedStoredRequests (getTime e) ;;;
      findExecutions mapOrder e.

Definition notify (mapOrder : gmap string simBrokerOrder -> list string)
    (e : event) : W unit :=
  match e with
  | NewOrderEvent _ _ | OrderCancelRequestEvent _ _ | OrderReplaceRequestEvent _ _ _ =>
      addRequestEvent e
  | NewTickEvent _ tick => onTick mapOrder e tick
  | CandleOpenEvent _ _ CandleTime _ => onCandleOpen mapOrder e CandleTime
  | CandleCloseEvent _ _ _ => onCandleClose mapOrder e
  | _ => panic "Unexpected event type in broker: "
  end.

End Broker.

(** ** The trade engine *)

(** Modelled from the spec: the type of a trade, under the names of the
    constants in the sources. *)
Inductive TradeType : Type := FlatTrade | LongTrade | ShortTrade | ClosedTrade.

(** Modelled from the spec: the trade, "type, quantity held, average open
    price, realized P&L, unrealized P&L, the set of confirmed orders keyed
    by identifier, the set of rejected/canceled orders, and an ordered list
    of fills".  [Trade_Type], [Trade_Qty] and [ConfirmedOrders] are the
    fields the strategy runtime reads. *)
Record Trade : Type := mkTrade {
  Trade_Ticker : Instrument;
  Trade_Type : TradeType;
  Trade_Qty : Z;
  Trade_OpenPrice : float;
  Trade_ClosedPnL : float;
  Trade_OpenPnL : float;
  NewOrders : gmap string Order;
  ConfirmedOrders : gmap string Order;
  FilledOrders : gmap string Order;
  CanceledOrders : gmap string Order;
  RejectedOrders : gmap string Order;
  Trade_Fills : list (string * Z * float * Time)
}.

(** Modelled from the spec: [newFlatTrade], "a trade is born Flat". *)
Definition newFlatTrade (symbol : Instrument) : Trade :=
  mkTrade symbol FlatTrade 0 PrimFloat.nan 0%float 0%float ∅ ∅ ∅ ∅ ∅ [].

Definition set_ConfirmedOrders (f : gmap string Order -> gmap string Order) (t : Trade) : Trade :=
  mkTrade (Trade_Ticker t) (Trade_Type t) (Trade_Qty t) (Trade_OpenPrice t)
    (Trade_ClosedPnL t) (Trade_OpenPnL t) (NewOrders t) (f (ConfirmedOrders t))
    (FilledOrders t) (CanceledOrders t) (RejectedOrders t) (Trade_Fills t).

Definition float_of_Z (z : Z) : float :=
  if z <? 0 then PrimFloat.opp (PrimFloat.of_uint63 (Uint63Axioms.of_Z (- z)))
  else PrimFloat.of_uint63 (Uint63Axioms.of_Z z).

Definition with_State (st : OrderState) (execQty : Z) (o : Order) : Order :=
  mkOrder (Order_Side o) (Order_Qty o) execQty (Order_Ticker o) (Order_Price o) st
    (Order_Type o) (Order_Tif o) (Order_Destination o) (Order_Time o) (Order_Id o).

(** Modelled from the spec: [Trade.hasConfirmedOrderWithId], whose body is
    not in the sources; the trade keeps "the set of confirmed orders keyed
    by identifier", and [CancelOrder] indexes [ConfirmedOrders] with the id
    right after this test. *)
Definition hasConfirmedOrderWithId (t : Trade) (ordId : string) : bool :=
  match ConfirmedOrders t !! ordId with
  | Some _ => true
  | None => false
  end.

(** Modelled from the spec: [Trade.IsOpen]; a trade holds a position while
    it is Long or Short. *)
Definition Trade_IsOpen (t : Trade) : bool :=
  match Trade_Type t with
  | LongTrade | ShortTrade => true
  | _ => false
  end.

(** Signed position of a trade. *)
Definition signedQty (t : Trade) : Z :=
  match Trade_Type t with
  | LongTrade => Trade_Qty t
  | ShortTrade => - Trade_Qty t
  | _ => 0
  end.

(** Modelled from the spec: the order bookkeeping of a fill, "reduce
    leaves-quantity"; a completely executed order leaves the confirmed set. *)
Definition bookFill (t : Trade) (o : Order) (qty : Z) (price : float) (time : Time)
    (ty : TradeType) (held : Z) (openPrice closedPnL : float) : Trade :=
  let exec := Order_ExecQty o + qty in
  let full := Order_Qty o <=? exec in
  let o' := with_State (if full then FilledOrder else PartialFilledOrder) exec o in
  mkTrade (Trade_Ticker t) ty held openPrice closedPnL (Trade_OpenPnL t) (NewOrders t)
    (if full then delete (Order_Id o) (ConfirmedOrders t)
     else <[Order_Id o := o']> (ConfirmedOrders t))
    (if full then <[Order_Id o := o']> (FilledOrders t) else FilledOrders t)
    (CanceledOrders t) (RejectedOrders t)
    (Trade_Fills t ++ [(Order_Id o, qty, price, time)]).

(** Modelled from the spec: [Trade.executeOrder], whose body is not in the
    sources (section 4.1, "Matching fills to position" and "Failure
    semantics").  The result is the trade after the fill, the new trade
    when the position was closed, and the error.  A fill for an unknown
    order, a fill on a closed trade, a quantity that is not positive and a
    price that is NaN or not positive are errors and leave the trade as it
    was.  Otherwise the signed position moves by side times quantity: in the
    same direction the open price becomes the quantity-weighted average; in
    the opposite direction the offset part realises
    (price - open price) * closed quantity * sign, and when the position
    reaches or crosses zero the trade is Closed and a new trade receives the
    residual. *)
Definition executeOrder (t : Trade) (ordId : string) (qty : Z) (price : float)
    (time : Time) : Trade * option Trade * option error :=
  match Trade_Type t, ConfirmedOrders t !! ordId with
  | ClosedTrade, _ => (t, None, Some (ErrTrade ordId "Can't execute order. Trade is closed. "))
  | _, None => (t, None, Some (ErrTrade ordId "Order not found in confirmed map. "))
  | _, Some o =>
      if qty <=? 0 then
        (t, None, Some (ErrTrade ordId "Execution quantity is zero or less. "))
      else if PrimFloat.is_nan price || PrimFloat.leb price 0%float then
        (t, None, Some (ErrTrade ordId "Execution price is NaN or not positive. "))
      else
        let side := match Order_Side o with OrderSell => -1 | _ => 1 end in
        let cur := signedQty t in
        let new := cur + side * qty in
        let typeOf (p : Z) := if 0 <? p then LongTrade else ShortTrade in
        if (0 <=? cur * side) then
          (* opening or adding to the position *)
          let avg :=
            if cur =? 0 then price
            else PrimFloat.div
                   (PrimFloat.add (PrimFloat.mul (Trade_OpenPrice t) (float_of_Z (Z.abs cur)))
                                  (PrimFloat.mul price (float_of_Z qty)))
                   (float_of_Z (Z.abs new)) in
          (bookFill t o qty price time (typeOf new) (Z.abs new) avg (Trade_ClosedPnL t),
           None, None)
        else
          let closedQty := Z.min qty (Z.abs cur) in
          let sign := if 0 <? cur then 1 else -1 in
          let pnl :=
            PrimFloat.add (Trade_ClosedPnL t)
              (PrimFloat.mul (PrimFloat.sub price (Trade_OpenPrice t))
                 (float_of_Z (closedQty * sign))) in
          if Z.abs cur <=? qty then
            (* the position is closed; the residual opens the next trade *)
            let closed :=
              bookFill t o closedQty price time ClosedTrade 0 (Trade_OpenPrice t) pnl in
            let residual := qty - closedQty in
            let fresh := newFlatTrade (Trade_Ticker t) in
            let next :=
              if residual =? 0 then fresh
              else mkTrade (Trade_Ticker t) (typeOf new) residual price 0%float 0%float
                     ∅ ∅ ∅ ∅ ∅ [(ordId, residual, price, time)] in
            (closed, Some next, None)
          else
            (bookFill t o qty price time (Trade_Type t) (Z.abs new) (Trade_OpenPrice t) pnl,
             None, None)
  end.

(** Modelled from the spec: [Trade.cancelOrder], "cancels/rejects (move
    order to terminal set)"; an id that is not confirmed is an error. *)
Definition cancelOrder (t : Trade) (ordId : string) : Trade * option error :=
  match ConfirmedOrders t !! ordId with
  | None => (t, Some (ErrTrade ordId "Can't cancel order. Not found in confirmed orders. "))
  | Some o =>
      (mkTrade (Trade_Ticker t) (Trade_Type t) (Trade_Qty t) (Trade_OpenPrice t)
         (Trade_ClosedPnL t) (Trade_OpenPnL t) (NewOrders t)
         (delete ordId (ConfirmedOrders t)) (FilledOrders t)
         (<[ordId := with_State CanceledOrder (Order_ExecQty o) o]> (CanceledOrders t))
         (RejectedOrders t) (Trade_Fills t),
       None)
  end.

(** Modelled from the spec: [Trade.replaceOrder]; the confirmed order takes
    the new price, an id that is not confirmed is an error. *)
Definition replaceOrder (t : Trade) (ordId : string) (newPrice : float)
    : Trade * option error :=
  match ConfirmedOrders t !! ordId with
  | None => (t, Some (ErrTrade ordId "Can't replace order. Not found in confirmed orders. "))
  | Some o =>
      (set_ConfirmedOrders
         <[ordId := mkOrder (Order_Side o) (Order_Qty o) (Order_ExecQty o) (Order_Ticker o)
                      newPrice (Order_State o) (Order_Type o) (Order_Tif o)
                      (Order_Destination o) (Order_Time o) (Order_Id o)]> t,
       None)
  end.

(** ** The strategy runtime *)

(** Modelled from the spec: the position-change event sent to the
    portfolio. *)
Record PortfolioNewPositionEvent : Type := mkPortfolioNewPositionEvent {
  pnp_base : BaseEvent;
  pnp_trade : Trade
}.

(** [ch_errors], [ch_events] and [ch_portfolio] hold what has been sent on
    the three channels of [CoreStrategyChannels], oldest first. *)
Record BasicStrategy : Type := mkStrategy {
  bs_symbol : Instrument;
  nPeriods : Z;
  ch_errors : list error;
  ch_events : list event;
  ch_portfolio : list PortfolioNewPositionEvent;
  waitingConfirmation : gset string;
  waitingN : Z;
  closedTrades : list Trade;
  currentTrade : Trade;
  Ticks : TickArray;
  Candles : CandleArray;
  lastCandleOpen : float;
  lastCandleOpenTime : Time;
  mostRecentTime : Time
}.

Definition set_ch_errors (f : list error -> list error) (b : BasicStrategy) : BasicStrategy :=
  mkStrategy (bs_symbol b) (nPeriods b) (f (ch_errors b)) (ch_events b) (ch_portfolio b)
    (waitingConfirmation b) (waitingN b) (closedTrades b) (currentTrade b)
    (Ticks b) (Candles b) (lastCandleOpen b) (lastCandleOpenTime b) (mostRecentTime b).

Definition set_ch_events (f : list event -> list event) (b : BasicStrategy) : BasicStrategy :=
  mkStrategy (bs_symbol b) (nPeriods b) (ch_errors b) (f (ch_events b)) (ch_portfolio b)
    (waitingConfirmation b) (waitingN b) (closedTrades b) (currentTrade b)
    (Ticks b) (Candles b) (lastCandleOpen b) (lastCandleOpenTime b) (mostRecentTime b).

Definition set_ch_portfolio
    (f : list PortfolioNewPositionEvent -> list PortfolioNewPositionEvent)
    (b : BasicStrategy) : BasicStrategy :=
  mkStrategy (bs_symbol b) (nPeriods b) (ch_errors b) (ch_events b) (f (ch_portfolio b))
    (waitingConfirmation b) (waitingN b) (closedTrades b) (currentTrade b)
    (Ticks b) (Candles b) (lastCandleOpen b) (lastCandleOpenTime b) (mostRecentTime b).

Definition set_waiting (f : gset string -> gset string) (g : Z -> Z)
    (b : BasicStrategy) : BasicStrategy :=
  mkStrategy (bs_symbol b) (nPeriods b) (ch_errors b) (ch_events b) (ch_portfolio b)
    (f (waitingConfirmation b)) (g (waitingN b)) (closedTrades b) (currentTrade b)
    (Ticks b) (Candles b) (lastCandleOpen b) (lastCandleOpenTime b) (mostRecentTime b).

Definition set_trades (closed : list Trade) (current : Trade)
    (b : BasicStrategy) : BasicStrategy :=
  mkStrategy (bs_symbol b) (nPeriods b) (ch_errors b) (ch_events b) (ch_portfolio b)
    (waitingConfirmation b) (waitingN b) closed current
    (Ticks b) (Candles b) (lastCandleOpen b) (lastCandleOpenTime b) (mostRecentTime b).

Definition set_Ticks (ticks : TickArray) (b : BasicStrategy) : BasicStrategy :=
  mkStrategy (bs_symbol b) (nPeriods b) (ch_errors b) (ch_events b) (ch_portfolio b)
    (waitingConfirmation b) (waitingN b) (closedTrades b) (currentTrade b)
    ticks (Candles b) (lastCandleOpen b) (lastCandleOpenTime b) (mostRecentTime b).

Definition set_Candles (candles : CandleArray) (b : BasicStrategy) : BasicStrategy :=
  mkStrategy (bs_symbol b) (nPeriods b) (ch_errors b) (ch_events b) (ch_portfolio b)
    (waitingConfirmation b) (waitingN b) (closedTrades b) (currentTrade b)
    (Ticks b) candles (lastCandleOpen b) (lastCandleOpenTime b) (mostRecentTime b).

Definition set_lastCandleOpen (price : float) (t : Time) (b : BasicStrategy) : BasicStrategy :=
  mkStrategy (bs_symbol b) (nPeriods b) (ch_errors b) (ch_events b) (ch_portfolio b)
    (waitingConfirmation b) (waitingN b) (closedTrades b) (currentTrade b)
    (Ticks b) (Candles b) price t (mostRecentTime b).

Definition set_mostRecentTime (t : Time) (b : BasicStrategy) : BasicStrategy :=
  mkStrategy (bs_symbol b) (nPeriods b) (ch_errors b) (ch_events b) (ch_portfolio b)
    (waitingConfirmation b) (waitingN b) (closedTrades b) (currentTrade b)
    (Ticks b) (Candles b) (lastCandleOpen b) (lastCandleOpenTime b) t.

(** [if e.getTime().After(b.mostRecentTime) { b.mostRecentTime = e.getTime() }] *)
Definition advanceTime (t : Time) (b : BasicStrategy) : BasicStrategy :=
  if After t (mostRecentTime b) then set_mostRecentTime t b else b.

Definition strategy_newError (err : error) (b : BasicStrategy) : BasicStrategy :=
  set_ch_errors (fun l => l ++ [err]) b.

Definition newSignal (e : event) (b : BasicStrategy) : BasicStrategy :=
  set_ch_events (fun l => l ++ [e]) b.

Definition notifyPortfolioAboutPosition (e : PortfolioNewPositionEvent)
    (b : BasicStrategy) : BasicStrategy :=
  set_ch_portfolio (fun l => l ++ [e]) b.

(** *** API calls *)

Definition Position (b : BasicStrategy) : Z :=
  match Trade_Type (currentTrade b) with
  | FlatTrade | ClosedTrade => 0
  | ShortTrade => neg64 (Trade_Qty (currentTrade b))
  | LongTrade => Trade_Qty (currentTrade b)
  end.

Definition CancelOrder (ordID : string) (b : BasicStrategy) : option error * BasicStrategy :=
  if String.eqb ordID EmptyString then
    (Some (ErrOrderIdIncorrect ordID "Id is empty. " "CancelOrder func"), b)
  else if negb (hasConfirmedOrderWithId (currentTrade b) ordID) then
    (Some (ErrOrderNotFoundInConfirmedMap ordID "Id is empty. " "CancelOrder func"), b)
  else
    match ConfirmedOrders (currentTrade b) !! ordID with
    | None =>
        (* not reached: [hasConfirmedOrderWithId] has just found the order
           (Go would dereference a nil [*Order] here) *)
        (Some (errors_New "nil pointer dereference"), b)
    | Some o =>
        let cancelReq :=
          OrderCancelRequestEvent
            (be (Add (mostRecentTime b) (20 * Microsecond)) (Order_Ticker o)) ordID in
        let reqID := "$CAN$" +:+ ordID in
        if bool_decide (reqID ∈ waitingConfirmation b) then
          (Some (errors_New "Request is already waiting for conf. "), b)
        else
          (None,
           newSignal cancelReq
             (set_waiting (fun w => {[reqID]} ∪ w) (fun n => wrap32 (n + 1)) b))
    end.

Definition ReplaceOrder (ordID : string) (newPrice : float) (b : BasicStrategy)
    : option error * BasicStrategy :=
  if String.eqb ordID EmptyString then
    (Some (ErrOrderIdIncorrect ordID "Id is empty. " "ReplaceOrder func"), b)
  else if negb (hasConfirmedOrderWithId (currentTrade b) ordID) then
    (Some (ErrOrderNotFoundInConfirmedMap ordID "Id is empty. " "ReplaceOrder func"), b)
  else
    let replaceReq :=
      OrderReplaceRequestEvent
        (be (Add (mostRecentTime b) (20 * Microsecond)) (bs_symbol b)) ordID newPrice in
    let reqID := "$REP$" +:+ ordID in
    if bool_decide (reqID ∈ waitingConfirmation b) then
      (Some (errors_New "Request is already waiting for conf. "), b)
    else
      (None,
       newSignal replaceReq
         (set_waiting (fun w => {[reqID]} ∪ w) (fun n => wrap32 (n + 1)) b)).

(** *** Handlers of broker responses *)

(** [atomic.AddInt32(&b.waitingN, -1)] and [delete(b.waitingConfirmation, token)]. *)
Definition releaseToken (token : string) (b : BasicStrategy) : BasicStrategy :=
  set_waiting (fun w => w ∖ {[token]}) (fun n => wrap32 (n - 1)) b.

Definition onOrderCancelHandler (e : BaseEvent) (OrdId : string) (b : BasicStrategy)
    : BasicStrategy :=
  let b := advanceTime (BaseEvent_Time e) b in
  let b := releaseToken ("&CAN&" +:+ OrdId) b in
  let '(t, err) := cancelOrder (currentTrade b) OrdId in
  let b := set_trades (closedTrades b) t b in
  match err with
  | Some err => strategy_newError err b
  | None => b
  end.

Definition onOrderCancelRejectHandler (e : BaseEvent) (OrdId : string) (b : BasicStrategy)
    : BasicStrategy :=
  releaseToken ("&CAN&" +:+ OrdId) (advanceTime (BaseEvent_Time e) b).

Definition onOrderReplaceRejectHandler (e : BaseEvent) (OrdId : string) (b : BasicStrategy)
    : BasicStrategy :=
  releaseToken ("&REP&" +:+ OrdId) (advanceTime (BaseEvent_Time e) b).

Definition onOrderReplacedHandler (e : BaseEvent) (OrdId : string) (NewPrice : float)
    (b : BasicStrategy) : BasicStrategy :=
  let b := advanceTime (BaseEvent_Time e) b in
  let b := releaseToken ("&REP&" +:+ OrdId) b in
  let '(t, err) := replaceOrder (currentTrade b) OrdId NewPrice in
  let b := set_trades (closedTrades b) t b in
  match err with
  | Some err => strategy_newError err b
  | None => b
  end.

Definition onOrderFillHandler (e : BaseEvent) (OrdId : string) (Price : float) (Qty : Z)
    (b : BasicStrategy) : BasicStrategy :=
  let b := advanceTime (BaseEvent_Time e) b in
  let b :=
    if negb (Instrument_ptr_eqb (BaseEvent_Ticker e) (bs_symbol b)) then
      strategy_newError (errors_New "Mismatch symbols in fill event and position. ") b
    else b in
  let b :=
    if Qty <=? 0 then strategy_newError (errors_New "Execution Qty is zero or less. ") b
    else b in
  let b :=
    if PrimFloat.is_nan Price || PrimFloat.leb Price 0%float then
      strategy_newError (errors_New "Price is NaN or less or equal to zero. ") b
    else b in
  let prevState := Trade_Type (currentTrade b) in
  let '(t, newPos, err) :=
    executeOrder (currentTrade b) OrdId Qty Price (BaseEvent_Time e) in
  let b := set_trades (closedTrades b) t b in
  match err with
  | Some err => strategy_newError err b
  | None =>
      match newPos with
      | Some newPos =>
          match Trade_Type (currentTrade b) with
          | ClosedTrade =>
              let b := set_trades (closedTrades b ++ [currentTrade b]) newPos b in
              notifyPortfolioAboutPosition
                (mkPortfolioNewPositionEvent (be (BaseEvent_Time e) (bs_symbol b))
                   (currentTrade b)) b
          | _ =>
              strategy_newError
                (errors_New "New position opened, but previous is not closed. ") b
          end
      | None =>
          match prevState with
          | FlatTrade =>
              notifyPortfolioAboutPosition
                (mkPortfolioNewPositionEvent (be (BaseEvent_Time e) (bs_symbol b))
                   (currentTrade b)) b
          | _ => b
          end
      end
  end.

(** *** History backfill *)

(** [s[len(s)-n:]] when [len(s) > n], the whole slice otherwise; a negative
    [n] puts the lower bound past the length, which panics. *)
Definition lastPeriods {A : Type} (n : Z) (l : list A) : Result (list A) :=
  if n <? Z.of_nat (length l) then
    if n <? 0 then Panic "slice bounds out of range"
    else Ok (drop (length l - Z.to_nat n) l)
  else Ok l.

Definition tickKey (t : Tick) : Z := Unix (Tick_Datetime t).
Definition candleKey (c : Candle) : Z := Unix (Candle_Datetime c).

(** A [time.Time] used as a map key: instant and location. *)
Definition timeKey (t : Time) : Z * Z := (unixNano t, zoneOffset t).

Section History.
Context `{MarketDataOps}.

Fixpoint checkTicks (allTicks : TickArray) : list Tick :=
  match allTicks with
  | [] => []
  | None :: rest => checkTicks rest
  | Some v :: rest => if Tick_IsValid v then v :: checkTicks rest else checkTicks rest
  end.

Definition onTickHistoryHandler (eTicks : TickArray) (b : BasicStrategy)
    : Result BasicStrategy :=
  match eTicks with
  | [] => Ok b
  | _ =>
      let allTicks := Ticks b ++ eTicks in
      let checkedTicks := SliceStable tickKey (checkTicks allTicks) in
      match lastPeriods (nPeriods b) checkedTicks with
      | Ok window => Ok (set_Ticks (map Some window) b)
      | Panic msg => Panic msg
      end
  end.

Fixpoint checkCandles (allCandles : CandleArray) (listedCandleTimes : gset (Z * Z))
    : list Candle :=
  match allCandles with
  | [] => []
  | None :: rest => checkCandles rest listedCandleTimes
  | Some v :: rest =>
      if negb (Candle_isValid v) then checkCandles rest listedCandleTimes
      else if bool_decide (timeKey (Candle_Datetime v) ∈ listedCandleTimes) then
        checkCandles rest listedCandleTimes
      else v :: checkCandles rest ({[timeKey (Candle_Datetime v)]} ∪ listedCandleTimes)
  end.

Definition updateLastCandleOpen (b : BasicStrategy) : Result BasicStrategy :=
  match last (Candles b) with
  | None => Ok b
  | Some None => Panic "nil pointer dereference"
  | Some (Some lastCandleInHist) =>
      if After (Candle_Datetime lastCandleInHist) (lastCandleOpenTime b) then
        Ok (set_lastCandleOpen (Open lastCandleInHist) (Candle_Datetime lastCandleInHist) b)
      else Ok b
  end.

Definition onCandleHistoryHandler (eCandles : CandleArray) (b : BasicStrategy)
    : Result BasicStrategy :=
  match eCandles with
  | [] => Ok b
  | _ =>
      let allCandles := Candles b ++ eCandles in
      let checkedCandles := SliceStable candleKey (checkCandles allCandles ∅) in
      match lastPeriods (nPeriods b) checkedCandles with
      | Ok window => updateLastCandleOpen (set_Candles (map Some window) b)
      | Panic msg => Panic msg
      end
  end.

End History.

(** ** A concrete market-data model, for running the code on examples *)

Definition isFinite (x : float) : bool :=
  negb (PrimFloat.is_nan x) && negb (PrimFloat.is_infinity x).

(** Modelled from the spec: [Order.isValid], "quantity > 0; price finite and
    positive for price-bearing types; Auction TIF is valid only with
    Open/Close order types". *)
Definition spec_Order_isValid (o : Order) : bool :=
  (0 <? Order_Qty o)
  && match Order_Type o with
     | MarketOrder | MarketOnOpen | MarketOnClose => true
     | LimitOrder | StopOrder | LimitOnOpen | LimitOnClose =>
         isFinite (Order_Price o) && PrimFloat.ltb 0%float (Order_Price o)
     | OrderTypeOther => false
     end
  && match Order_Tif o, Order_Type o with
     | AuctionTIF, (LimitOnOpen | LimitOnClose | MarketOnOpen | MarketOnClose) => true
     | AuctionTIF, _ => false
     | OrderTIFOther, _ => false
     | _, _ => true
     end.

(** Modelled from the spec: a tick has an "optional trade (last price, last
    size)" and an "optional quote"; an absent part is NaN. *)
Definition spec_Tick_HasTrade (t : Tick) : bool := negb (PrimFloat.is_nan (LastPrice t)).

Definition spec_Tick_HasQuote (t : Tick) : bool :=
  negb (PrimFloat.is_nan (BidPrice t)) && negb (PrimFloat.is_nan (AskPrice t)).

(** Modelled from the spec: [Tick.IsValid], "must have a trade OR quote;
    numeric fields finite and non-zero". *)
Definition spec_Tick_IsValid (t : Tick) : bool :=
  (spec_Tick_HasTrade t || spec_Tick_HasQuote t)
  && (negb (spec_Tick_HasTrade t)
      || (isFinite (LastPrice t) && negb (PrimFloat.eqb (LastPrice t) 0%float)
          && negb (LastSize t =? 0)))
  && (negb (spec_Tick_HasQuote t)
      || (isFinite (BidPrice t) && negb (PrimFloat.eqb (BidPrice t) 0%float)
          && isFinite (AskPrice t) && negb (PrimFloat.eqb (AskPrice t) 0%float))).

(** Modelled from the spec: [Candle.isValid], "low <= open <= high,
    low <= close <= high". *)
Definition spec_Candle_isValid (c : Candle) : bool :=
  PrimFloat.leb (Low c) (Open c) && PrimFloat.leb (Open c) (High c)
  && PrimFloat.leb (Low c) (Close c) && PrimFloat.leb (Close c) (High c).

(** Modelled from the spec: the "session-open candle" starts at the market
    open of its instrument, the session-close candle of an intraday time
    frame at the market close; day and week candles close the session. *)
Definition spec_Candle_isOpening (c : Candle) : bool :=
  let mot := MarketOpenTime (Instrument_Exchange (Candle_Ticker c)) in
  (Hour (Candle_Datetime c) =? TimeOfDay_Hour mot)
  && (MinuteOf (Candle_Datetime c) =? TimeOfDay_Minute mot).

Definition spec_Candle_isClosingForTimeFrame (c : Candle) (TimeFrame : string) : bool :=
  let mct := MarketCloseTime (Instrument_Exchange (Candle_Ticker c)) in
  dayOrWeek TimeFrame
  || ((Hour (Candle_Datetime c) =? TimeOfDay_Hour mct)
      && (MinuteOf (Candle_Datetime c) =? TimeOfDay_Minute mct)).

Definition specOps : MarketDataOps :=
  Build_MarketDataOps spec_Order_isValid spec_Tick_IsValid spec_Tick_HasTrade
    spec_Tick_HasQuote spec_Candle_isValid spec_Candle_isOpening
    spec_Candle_isClosingForTimeFrame.

(** ** Sample data *)

Module Sample.

Definition nyse : Exchange := mkExchange (mkTimeOfDay 9 30 0) (mkTimeOfDay 16 0 0).
Definition acme : Instrument := mkInstrument 1 "ACME" nyse.

(** An instant given in milliseconds since the epoch, UTC. *)
Definition atMs (ms : Z) : Time := mkTime (ms * Millisecond) 0.

Definition limitOrder (id : string) (side : OrderSide) (price : float) (qty : Z)
    (tif : OrderTIF) (t : Time) : Order :=
  mkOrder side qty 0 acme price NewOrder LimitOrder tif EmptyString t id.

(** A tick with a trade and no quote. *)
Definition tradeTick (t : Time) (last : float) (size : Z) : Tick :=
  mkTick acme t last size PrimFloat.nan 0 PrimFloat.nan 0 false false.

Definition tickEvent (t : Time) (last : float) (size : Z) : event :=
  NewTickEvent (be t acme) (tradeTick t last size).

(** A worker as [SimBroker.Init] creates it. *)
Definition newWorker (delayMs : Z) (strict : bool) : simBrokerWorker :=
  mkWorker acme (Some []) [] delayMs strict ∅ [] [] zeroTime zeroTime.

Definition newStrategy (n : Z) : BasicStrategy :=
  mkStrategy acme n [] [] [] ∅ 0 [] (newFlatTrade acme) [] [] 0%float zeroTime zeroTime.

(** The ids of an order map in the order of [map_to_list]: one of the
    orders in which Go may visit the map. *)
Definition listOrder (m : gmap string simBrokerOrder) : list string := (map_to_list m).*1.

(** Runs a worker over a sequence of notifications. *)
Fixpoint run (es : list event) (b : simBrokerWorker) : Result simBrokerWorker :=
  match es with
  | [] => Ok b
  | e :: es' =>
      match @notify specOps listOrder e b with
      | Ok (_, b') => run es' b'
      | Panic msg => Panic msg
      end
  end.

Definition timesOf (l : list event) : list Z := map (fun e => unixNano (getTime e)) l.

(** What a run has sent on the events channel. *)
Definition sentBy (es : list event) (b : simBrokerWorker) : option (list event) :=
  match run es b with
  | Ok b' => Some (events b')
  | Panic _ => None
  end.

End Sample.

Module SamplePosition.
Import Sample.

(** A strategy whose current trade is Short 5. *)
Definition shortFive : BasicStrategy :=
  mkStrategy acme 3 [] [] [] ∅ 0 []
    (mkTrade acme ShortTrade 5 110%float 0%float 0%float ∅ ∅ ∅ ∅ ∅ [])
    [] [] 0%float zeroTime zeroTime.

(** The order "o1", Buy Limit 100 x 10, confirmed on the broker side. *)
Definition confirmedBuy : simBrokerOrder :=
  mkSimBrokerOrder (limitOrder "o1" OrderBuy 100%float 10 GTCTIF (atMs 0))
    ConfirmedOrder (atMs 200) 0 100%float.

End SamplePosition.

(** ** Readings of the specification *)

(** The order id that [addBrokerEvent] looks up for an event. *)
Definition namedOrder (e : event) : option string :=
  match e with
  | OrderConfirmationEvent _ OrdId | OrderCancelEvent _ OrdId
  | OrderReplacedEvent _ OrdId _ | OrderFillEvent _ OrdId _ _
  | OrderRejectedEvent _ OrdId _ => Some OrdId
  | _ => None
  end.

(** "Non-fatal errors are surfaced on an error channel; the affected event
    is dropped; processing continues", read for an event handed to
    [addBrokerEvent]: the call returns, an error has been sent, and the
    event is not in the buffer. *)
Definition surfacedAndDropped (e : event) (b : simBrokerWorker) : Prop :=
  exists (b' : simBrokerWorker) (err : error),
    addBrokerEvent e b = Ok (tt, b')
    /\ generatedEvents b' = generatedEvents b
    /\ errChan b' = option_map (fun sent => sent ++ [err]) (errChan b).

Definition isRequest (e : event) : bool :=
  match e with
  | NewOrderEvent _ _ | OrderCancelRequestEvent _ _ | OrderReplaceRequestEvent _ _ _ => true
  | _ => false
  end.

(** "On each market-data arrival at time T, the broker drains the queue for
    all requests with visibility time <= T and processes them in
    submission-time order": the requests visible at [T] are handled by
    increasing submission time, the others stay buffered. *)
Definition spec_proceedStoredRequests `{MarketDataOps} (T : Time) : W unit :=
  b <- get ;;
  let visible (e : event) := negb (After (genTimeSingleTrip b (getTime e)) T) in
  let bySubmission := SliceStable (fun e => unixNano (getTime e)) (requestEvents b) in
  forEach (List.filter visible bySubmission) handleRequest ;;;
  modify (set_requestEvents (fun _ => List.filter (fun e => negb (visible e)) bySubmission)).

(** A list in non-decreasing order of its keys. *)
Definition sortedBy {A : Type} (key : A -> Z) (l : list A) : Prop :=
  StronglySorted (fun x y => key x <= key y) l.

(** What a call leaves alone: everything but the order map, the buffer of
    generated events and the two channels. *)
Definition sameSetup (b b' : simBrokerWorker) : Prop :=
  symbol b' = symbol b /\ delay b' = delay b
  /\ strictLimitOrders b' = strictLimitOrders b
  /\ requestEvents b' = requestEvents b
  /\ lastTickTime b' = lastTickTime b /\ lastCandleTime b' = lastCandleTime b.

(** A request is due at [T] when its visibility time is before [T]. *)
Definition due (b : simBrokerWorker) (T : Time) (e : event) : bool :=
  Before (genTimeSingleTrip b (getTime e)) T.

Module SampleIntake.
Import Sample.

Definition o1 : Order := limitOrder "o1" OrderBuy 100%float 10 GTCTIF (atMs 1000).

(** One new-order request submitted at T = 0 to a worker whose single trip
    is 1 ms: its visibility time is 1 ms. *)
Definition newAtZero : event :=
  NewOrderEvent (be (atMs 0) acme) (limitOrder "o1" OrderBuy 100%float 10 GTCTIF (atMs 0)).

Definition boundaryWorker : simBrokerWorker :=
  mkWorker acme (Some []) [] 1 false ∅ [] [newAtZero] zeroTime zeroTime.

(** A cancel request stamped 20 microseconds after the new-order request
    it follows in simulated time, but buffered before it. *)
Definition cancelLate : event :=
  OrderCancelRequestEvent (be (Add (atMs 1000) (20 * Microsecond)) acme) "o1".

Definition newEarly : event := NewOrderEvent (be (atMs 1000) acme) o1.

Definition sameSecondWorker : simBrokerWorker :=
  mkWorker acme (Some []) [] 100 false ∅ [] [cancelLate; newEarly] zeroTime zeroTime.

(** What a run of the intake leaves: the generated events and the requests
    still buffered. *)
Definition intakeOutcome (r : Result (unit * simBrokerWorker))
    : option (list event * list event) :=
  match r with
  | Ok (_, b) => Some (generatedEvents b, requestEvents b)
  | Panic _ => None
  end.

End SampleIntake.

Module SampleStrategy.
Import Sample.

(** A strategy whose current trade has the confirmed order "o1". *)
Definition confirmedO1 : Order :=
  mkOrder OrderBuy 10 0 acme 100%float ConfirmedOrder LimitOrder GTCTIF EmptyString (atMs 0) "o1".

Definition withConfirmedOrder : BasicStrategy :=
  mkStrategy acme 3 [] [] [] ∅ 0 []
    (mkTrade acme FlatTrade 0 PrimFloat.nan 0%float 0%float ∅ {["o1" := confirmedO1]} ∅ ∅ ∅ [])
    [] [] 0%float zeroTime (atMs 1000).

(** The tokens waiting for a response, as a list. *)
Definition pendingTokens (b : BasicStrategy) : list string :=
  elements (waitingConfirmation b).

End SampleStrategy.

(** The map key of a candle in [listedCandleTimes]. *)
Definition candleTime (c : Candle) : Z * Z := timeKey (Candle_Datetime c).

(** No two candles of the array that fall in the same Unix second differ in
    their timestamp: candles with whole-second timestamps of one time zone,
    for instance. *)
Definition secondsSeparate (l : CandleArray) : Prop :=
  forall c c' : Candle,
    Some c ∈ l -> Some c' ∈ l -> candleKey c = candleKey c' -> candleTime c = candleTime c'.

(** "Loading the same history event twice yields the same final window
    contents", for ticks and for candles. *)
Definition tickHistoryIdempotent `{MarketDataOps} (eTicks : TickArray) (b : BasicStrategy)
    : Prop :=
  forall b1 b2,
    onTickHistoryHandler eTicks b = Ok b1 ->
    onTickHistoryHandler eTicks b1 = Ok b2 ->
    Ticks b2 = Ticks b1.

Definition candleHistoryIdempotent `{MarketDataOps} (eCandles : CandleArray)
    (b : BasicStrategy) : Prop :=
  forall b1 b2,
    onCandleHistoryHandler eCandles b = Ok b1 ->
    onCandleHistoryHandler eCandles b1 = Ok b2 ->
    Candles b2 = Candles b1.

Module SampleHistory.
Import Sample.

Definition candleAt (t : Time) (o h l c : float) : Candle := mkCandle acme t o h l c.

(** Two candles of the same second: 1.5 s and 1.2 s after the epoch. *)
Definition candleA : Candle := candleAt (atMs 1500) 10%float 12%float 9%float 11%float.
Definition candleB : Candle := candleAt (atMs 1200) 11%float 13%float 10%float 12%float.

(** Candles on whole seconds. *)
Definition candle1 : Candle := candleAt (atMs 1000) 10%float 12%float 9%float 11%float.
Definition candle2 : Candle := candleAt (atMs 2000) 11%float 13%float 10%float 12%float.
Definition candle3 : Candle := candleAt (atMs 3000) 12%float 14%float 11%float 13%float.

Definition tick1 : Tick := tradeTick (atMs 1000) 100%float 5.
Definition tick2 : Tick := tradeTick (atMs 2000) 101%float 5.

Definition orElse (r : Result BasicStrategy) (b : BasicStrategy) : BasicStrategy :=
  match r with
  | Ok b' => b'
  | Panic _ => b
  end.

Definition candlesOnce : BasicStrategy :=
  orElse (@onCandleHistoryHandler specOps [Some candle1; Some candle2; Some candle3]
            (newStrategy 2)) (newStrategy 2).

Definition ticksOnce : BasicStrategy :=
  orElse (@onTickHistoryHandler specOps [Some tick1; Some tick2] (newStrategy 2))
    (newStrategy 2).
Definition ticksTwice : BasicStrategy :=
  orElse (@onTickHistoryHandler specOps [Some tick1; Some tick2] ticksOnce) ticksOnce.

Definition sameSecondOnce : BasicStrategy :=
  orElse (@onCandleHistoryHandler specOps [Some candleA; Some candleB] (newStrategy 1))
    (newStrategy 1).
Definition sameSecondTwice : BasicStrategy :=
  orElse (@onCandleHistoryHandler specOps [Some candleA; Some candleB] sameSecondOnce)
    sameSecondOnce.

End SampleHistory.

(** A call that at most sends errors: everything but [errChan] is kept. *)
Definition onlyErrors (b b' : simBrokerWorker) : Prop :=
  sameSetup b b' /\ events b' = events b /\ orders b' = orders b
  /\ generatedEvents b' = generatedEvents b.

(** The events named after one order. *)
Definition allNamed (id : string) (l : list event) : Prop :=
  Forall (fun e => namedOrder e = Some id) l.

(** A matcher for the order [o]: when it returns, it has at most sent
    errors, and the events it returns are named after [o]. *)
Definition matcherOf {A : Type} (o : simBrokerOrder) (evs : A -> list event) (m : W A) : Prop :=
  forall b r b', m b = Ok (r, b') ->
    onlyErrors b b' /\ allNamed (Order_Id (sbo_Order o)) (evs r).

(** Every order is stored under its own id. *)
Definition ownIds (m : gmap string simBrokerOrder) : Prop :=
  forall k o, m !! k = Some o -> Order_Id (sbo_Order o) = k.


(** The events named after one of the orders [ids]. *)
Definition namedWithin (ids : list string) (l : list event) : Prop :=
  Forall (fun e => exists id, id ∈ ids /\ namedOrder e = Some id) l.

(** What handling the orders [ids] may do to the worker: append [extra],
    events named after these orders, to the buffer; change the broker-side
    state of these orders; send errors. *)
Definition appendsFor (ids : list string) (b b' : simBrokerWorker) (extra : list event)
    : Prop :=
  sameSetup b b' /\ events b' = events b
  /\ generatedEvents b' = generatedEvents b ++ extra
  /\ namedWithin ids extra
  /\ (forall k, k ∉ ids -> orders b' !! k = orders b !! k)
  /\ (forall k o', orders b' !! k = Some o' ->
        exists o, orders b !! k = Some o /\ sbo_Order o' = sbo_Order o).

Module SampleRelease.
Import Sample.


Definition lastTick : event := tickEvent (atMs 2500) 200%float 5.




End SampleRelease.

(** ** Day orders *)

(** "Midnight of the day after submission", in the zone of the order's
    submission time. *)
Definition nextMidnight (t : Time) : Time :=
  DateOnDay (dayNumber t + 1) 0 0 0 (zoneOffset t).

(** The three loops of [findExecutions] differ in what they compare; for a
    market-data event: whether the loop looks at the order at all, the time
    the order's last state update must precede, and the time the expiry is
    tested against. *)
Definition concerns (md : event) (o : simBrokerOrder) : bool :=
  let sym := Instrument_Symbol (Order_Ticker (sbo_Order o)) in
  match md with
  | NewTickEvent eb _ => String.eqb sym (Instrument_Symbol (BaseEvent_Ticker eb))
  | CandleCloseEvent _ _ c => String.eqb sym (Instrument_Symbol (Candle_Ticker c))
  | CandleOpenEvent eb _ _ _ =>
      Instrument_ptr_eqb (Order_Ticker (sbo_Order o)) (BaseEvent_Ticker eb)
  | _ => false
  end.

Definition guardClock (md : event) : Time :=
  match md with
  | NewTickEvent _ tick => Tick_Datetime tick
  | CandleCloseEvent eb _ _ => BaseEvent_Time eb
  | CandleOpenEvent _ _ CandleTime _ => CandleTime
  | _ => getTime md
  end.

Definition tifClock (md : event) : Time :=
  match md with
  | NewTickEvent _ tick => Tick_Datetime tick
  | CandleCloseEvent _ _ c => Candle_Datetime c
  | CandleOpenEvent _ _ CandleTime _ => CandleTime
  | _ => getTime md
  end.

(** The cancel event of an expired order. *)
Definition expiryCancel (o : simBrokerOrder) (exp : Time) : event :=
  OrderCancelEvent (be exp (Order_Ticker (sbo_Order o))) (Order_Id (sbo_Order o)).

(** "A Day order that is still active expires at midnight of the day after
    its submission: on the first market-data arrival whose time is past
    that instant, the broker worker emits an OrderCancelEvent timestamped
    exactly at that midnight", read for the arrival [md] at a worker that
    holds the order under [k]: after the arrival the cancel event has been
    sent or is in the buffer. *)
Definition cancelsExpiredDayOrder `{MarketDataOps}
    (mapOrder : gmap string simBrokerOrder -> list string)
    (md : event) (b : simBrokerWorker) (k : string) : Prop :=
  forall o b',
    orders b !! k = Some o ->
    Order_Tif (sbo_Order o) = DayTIF ->
    simBrokerOrder_isActive o = true ->
    After (getTime md) (nextMidnight (Order_Time (sbo_Order o))) = true ->
    notify mapOrder md b = Ok (tt, b') ->
    expiryCancel o (nextMidnight (Order_Time (sbo_Order o))) ∈ events b' ++ generatedEvents b'.

Module SampleDay.
Import Sample.

(** 2024-01-15 14:30:00 and 2024-01-16 09:30:00, UTC. *)
Definition jan15_1430 : Time := atMs ((days_from_civil 2024 1 15 * 86400 + 14 * 3600 + 30 * 60) * 1000).
Definition jan16_0930 : Time := atMs ((days_from_civil 2024 1 16 * 86400 + 9 * 3600 + 30 * 60) * 1000).
Definition jan16_0000 : Time := atMs (days_from_civil 2024 1 16 * 86400 * 1000).

Definition dayOrder : Order := limitOrder "d1" OrderBuy 100%float 10 DayTIF jan15_1430.

(** The worker after the Day order was confirmed on a tick of 14:31 that
    did not cross its limit. *)
Definition dayWorker : simBrokerWorker :=
  match run [NewOrderEvent (be jan15_1430 acme) dayOrder;
             tickEvent (Add jan15_1430 Minute) 200%float 5] (newWorker 100 false) with
  | Ok b => b
  | Panic _ => newWorker 100 false
  end.

Definition dayOrderConfirmed : simBrokerOrder :=
  mkSimBrokerOrder dayOrder ConfirmedOrder (Add jan15_1430 (200 * Millisecond)) 0 100%float.

Definition nextMorningTick : event := tickEvent jan16_0930 200%float 5.

Definition dayWorkerNextMorning : simBrokerWorker :=
  match @findExecutions specOps listOrder nextMorningTick dayWorker with
  | Ok (_, b) => b
  | Panic _ => dayWorker
  end.

(** A Day order sent 0.8 s before midnight to a worker whose round trip is
    1 s: the request is handled on the tick of 23:59:59.8, so that the
    order is confirmed as of 00:00:00.2. *)
Definition lateOrder : Order :=
  limitOrder "d1" OrderBuy 100%float 10 DayTIF (atMs 86399200).

Definition lateWorker : simBrokerWorker :=
  match run [NewOrderEvent (be (atMs 86399200) acme) lateOrder;
             tickEvent (atMs 86399800) 200%float 5] (newWorker 500 false) with
  | Ok b => b
  | Panic _ => newWorker 500 false
  end.

Definition lateOrderConfirmed : simBrokerOrder :=
  mkSimBrokerOrder lateOrder ConfirmedOrder (atMs 86400200) 0 100%float.

(** The first tick after midnight, at 00:00:00.1, and a later one. *)
Definition firstTickOfDay : event := tickEvent (atMs 86400100) 200%float 5.
Definition laterTick : event := tickEvent (atMs 86401000) 200%float 5.

Definition lateWorkerAfter (es : list event) : simBrokerWorker :=
  match run es lateWorker with
  | Ok b => b
  | Panic _ => lateWorker
  end.

End SampleDay.

(** ** Invariants of the worker *)

(** What holds of a worker as [SimBroker.Init] creates it and after every
    notification: every order is stored under its own id; no stored order is
    in state [NewOrder] (the confirmation is applied by the call that stores
    the order); a Filled order has no leaves quantity; the request buffer
    holds requests only. *)
Definition wellFormed (b : simBrokerWorker) : Prop :=
  ownIds (orders b)
  /\ (forall k o, orders b !! k = Some o -> BrokerState o <> NewOrder)
  /\ (forall k o, orders b !! k = Some o -> BrokerState o = FilledOrder -> lvsQty o = 0)
  /\ Forall (fun e => isRequest e = true) (requestEvents b).

(** A call that keeps [I] whenever it returns. *)
Definition keeps {A : Type} (I : simBrokerWorker -> Prop) (m : W A) : Prop :=
  forall b r b', I b -> m b = Ok (r, b') -> I b'.

(** The broker-side states in which [onCancelRequest] and
    [onReplaceRequest] do not turn a request down: every state but
    Canceled, New and Filled. *)
Definition acceptsRequests (o : simBrokerOrder) : bool :=
  match BrokerState o with
  | CanceledOrder | NewOrder | FilledOrder => false
  | _ => true
  end.


Module SampleInvariant.
Import Sample.

Definition step (e : event) (b : simBrokerWorker) : simBrokerWorker :=
  match @notify specOps listOrder e b with
  | Ok (_, b') => b'
  | Panic _ => b
  end.

(** A fresh worker is sent a limit order for 10, sees a tick that fills 4
    of it, and then a tick that fills the rest. *)
Definition sendOrder : event :=
  NewOrderEvent (be (atMs 0) acme) (limitOrder "o1" OrderBuy 100%float 10 GTCTIF (atMs 0)).
Definition firstTick : event := tickEvent (atMs 1000) 99%float 4.
Definition nextTick : event := tickEvent (atMs 2000) 99%float 6.

Definition afterOrder : simBrokerWorker := step sendOrder (newWorker 100 false).
Definition afterPartialFill : simBrokerWorker := step firstTick afterOrder.
Definition afterNextTick : simBrokerWorker := step nextTick afterPartialFill.

End SampleInvariant.

Module SampleMatch.
Import Sample.

(** A worker that holds one order, under the order's id. *)
Definition holding (o : simBrokerOrder) : simBrokerWorker :=
  set_orders (fun _ => {[Order_Id (sbo_Order o) := o]}) (newWorker 100 false).

(** A confirmed limit order to buy 10 at 100. *)
Definition confirmedLimit : simBrokerOrder :=
  mkSimBrokerOrder (limitOrder "o1" OrderBuy 100%float 10 GTCTIF (atMs 0))
    ConfirmedOrder (atMs 200) 0 100%float.

(** A market order to buy 10, of which 4 are executed. *)
Definition partlyFilledMarket : simBrokerOrder :=
  mkSimBrokerOrder
    (mkOrder OrderBuy 10 0 acme PrimFloat.nan NewOrder MarketOrder GTCTIF EmptyString
       (atMs 0) "m1")
    PartialFilledOrder (atMs 200) 4 PrimFloat.nan.

(** A confirmed limit-on-open order to buy 10 at 100, and an opening tick
    that trades 4 at 99. *)
Definition confirmedLOO : simBrokerOrder :=
  mkSimBrokerOrder
    (mkOrder OrderBuy 10 0 acme 100%float NewOrder LimitOnOpen AuctionTIF EmptyString
       (atMs 0) "a1")
    ConfirmedOrder (atMs 200) 0 100%float.

Definition openingTick : Tick :=
  mkTick acme (atMs 1000) 99%float 4 PrimFloat.nan 0 PrimFloat.nan 0 true false.

(** The close of a one-minute candle that trades through the limit. *)
Definition closedCandle : Candle := mkCandle acme (atMs 60000) 101%float 102%float 98%float 99%float.

(** A confirmed stop order to buy 10 at 100, and a tick that trades 3 at
    101 with a quote of 100.5 bid, 101.5 asked. *)
Definition confirmedStop : simBrokerOrder :=
  mkSimBrokerOrder
    (mkOrder OrderBuy 10 0 acme 100%float NewOrder StopOrder GTCTIF EmptyString
       (atMs 0) "s1")
    ConfirmedOrder (atMs 200) 0 100%float.

Definition quotedTick : Tick :=
  mkTick acme (atMs 1000) 101%float 3 100.5%float 7 101.5%float 2 false false.

Definition closeBase : BaseEvent := be (atMs 120000) acme.

(** A tick with a trade of 3 at 50 and no quote. *)
Definition tradeOnly : Tick := tradeTick (atMs 1000) 50%float 3.

End SampleMatch.

(** ** Sliding windows of the strategy *)

(** The entries of a slice of pointers, [None] when one of them is nil. *)
Fixpoint derefAll {A : Type} (w : list (option A)) : option (list A) :=
  match w with
  | [] => Some []
  | None :: _ => None
  | Some x :: rest =>
      match derefAll rest with
      | Some l => Some (x :: l)
      | None => None
      end
  end.

(** [sort.SliceStable] of a slice of pointers by [key].  With two entries or
    more the comparisons dereference every entry, so that a nil entry makes
    the call panic; with fewer nothing is compared. *)
Definition sortWindow {A : Type} (key : A -> Z) (w : list (option A))
    : Result (list (option A)) :=
  if (length w <=? 1)%nat then Ok w
  else
    match derefAll w with
    | Some l => Ok (map Some (SliceStable key l))
    | None => Panic "nil pointer dereference"
    end.

Definition putNewTick (tick : option Tick) (b : BasicStrategy) : Result BasicStrategy :=
  match tick with
  | None => Ok b
  | Some t =>
      let sortIt : Result bool :=
        match last (Ticks b) with
        | None => Ok false
        | Some None => Panic "nil pointer dereference"
        | Some (Some lastTick) => Ok (Before (Tick_Datetime t) (Tick_Datetime lastTick))
        end in
      match sortIt with
      | Panic msg => Panic msg
      | Ok sortIt =>
          if Z.of_nat (length (Ticks b)) <? nPeriods b then
            Ok (set_Ticks (Ticks b ++ [Some t]) b)
          else
            match Ticks b with
            | [] => Panic "slice bounds out of range"
            | _ :: rest =>
                if sortIt then
                  match sortWindow tickKey (rest ++ [Some t]) with
                  | Ok w => Ok (set_Ticks w b)
                  | Panic msg => Panic msg
                  end
                else Ok (set_Ticks (rest ++ [Some t]) b)
            end
      end
  end.

Definition putNewCandle (candle : option Candle) (b : BasicStrategy) : Result BasicStrategy :=
  match candle with
  | None => Ok b
  | Some c =>
      let sortIt : Result bool :=
        match last (Candles b) with
        | None => Ok false
        | Some None => Panic "nil pointer dereference"
        | Some (Some lastCandle) =>
            Ok (Before (Candle_Datetime c) (Candle_Datetime lastCandle))
        end in
      match sortIt with
      | Panic msg => Panic msg
      | Ok sortIt =>
          if Z.of_nat (length (Candles b)) <? nPeriods b then
            updateLastCandleOpen (set_Candles (Candles b ++ [Some c]) b)
          else
            match Candles b with
            | [] => Panic "slice bounds out of range"
            | _ :: rest =>
                if sortIt then
                  match sortWindow candleKey (rest ++ [Some c]) with
                  | Ok w => updateLastCandleOpen (set_Candles w b)
                  | Panic msg => Panic msg
                  end
                else updateLastCandleOpen (set_Candles (rest ++ [Some c]) b)
            end
      end
  end.

(** The non-nil entries of a window. *)
Definition entries {A : Type} (w : list (option A)) : list A := omap id w.

(** The window that [putNewTick] and [putNewCandle] both compute from the
    window [w], the number of periods [N] and the new entry [x], whose time
    is [time x]. *)
Definition slide {A : Type} (time : A -> Time) (N : Z) (w : list (option A)) (x : A)
    : Result (list (option A)) :=
  match last w with
  | Some None => Panic "nil pointer dereference"
  | lastEntry =>
      if Z.of_nat (length w) <? N then Ok (w ++ [Some x])
      else
        match w with
        | [] => Panic "slice bounds out of range"
        | _ :: rest =>
            match lastEntry with
            | Some (Some l) =>
                if Before (time x) (time l)
                then sortWindow (fun y => Unix (time y)) (rest ++ [Some x])
                else Ok (rest ++ [Some x])
            | _ => Ok (rest ++ [Some x])
            end
        end
  end.

Module SampleWindow.
Import Sample SampleHistory.

(** A strategy of two periods whose window holds the ticks of 1 s and 2 s. *)
Definition fullWindow : BasicStrategy :=
  set_Ticks [Some tick1; Some tick2] (newStrategy 2).

(** A tick of 1.5 s, which arrives late. *)
Definition lateTick : Tick := tradeTick (atMs 1500) 100%float 5.

(** A strategy of two periods whose window holds the candles of 1 s and
    2 s. *)
Definition fullCandles : BasicStrategy :=
  set_Candles [Some candle1; Some candle2] (newStrategy 2).

End SampleWindow.

(** ** The broker and its workers *)

(** [SimBroker]: one worker per symbol.  The two channels handed to [Init]
    are shared by all workers: the broker holds what has been sent on them
    ([sb_errChan], [sb_events]), and a worker that is notified runs on
    them, its own [errChan] and [events] standing for the shared
    channels.  A broker that was not initialised has no workers. *)
Record SimBroker : Type := mkSimBroker {
  sb_delay : Z;
  sb_checkExecutionsOnTicks : bool;
  sb_strictLimitOrders : bool;
  workers : gmap string simBrokerWorker;
  sb_errChan : option (list error);
  sb_events : list event
}.

(** The loop of [Init] over the symbols, a nil entry among them panics
    when its [Symbol] is read. *)
Fixpoint initWorkers (b : SimBroker) (errs : option (list error)) (sent : list event)
    (symbols : list (option Instrument)) (ws : gmap string simBrokerWorker)
    : Result (gmap string simBrokerWorker) :=
  match symbols with
  | [] => Ok ws
  | None :: _ => Panic "nil pointer dereference"
  | Some s :: rest =>
      initWorkers b errs sent rest
        (<[Instrument_Symbol s :=
             mkWorker s errs sent (sb_delay b) (sb_strictLimitOrders b) ∅ [] []
               zeroTime zeroTime]> ws)
  end.

Definition SimBroker_Init (errs : option (list error)) (sent : list event)
    (symbols : list (option Instrument)) (b : SimBroker) : Result SimBroker :=
  match symbols with
  | [] => Panic "No symbols specified"
  | _ =>
      match initWorkers b errs sent symbols ∅ with
      | Ok ws =>
          Ok (mkSimBroker (sb_delay b) (sb_checkExecutionsOnTicks b)
                (sb_strictLimitOrders b) ws errs sent)
      | Panic msg => Panic msg
      end
  end.

Section BrokerNotify.
Context `{MarketDataOps}.

(** [Notify]: the event goes to the worker of its symbol.  Without such a
    worker the method runs on a nil worker, which panics at the first
    field it reads (or in the [default] case of the type switch). *)
Definition SimBroker_Notify (mapOrder : gmap string simBrokerOrder -> list string)
    (e : event) (b : SimBroker) : Result SimBroker :=
  match workers b !! getSymbol e with
  | None =>
      match e with
      | NewOrderEvent _ _ | OrderCancelRequestEvent _ _ | OrderReplaceRequestEvent _ _ _
      | NewTickEvent _ _ | CandleOpenEvent _ _ _ _ | CandleCloseEvent _ _ _ =>
          Panic "nil pointer dereference"
      | _ => Panic "Unexpected event type in broker: "
      end
  | Some w =>
      let running :=
        set_events (fun _ => sb_events b) (set_errChan (fun _ => sb_errChan b) w) in
      match notify mapOrder e running with
      | Ok (_, w') =>
          Ok (mkSimBroker (sb_delay b) (sb_checkExecutionsOnTicks b)
                (sb_strictLimitOrders b) (<[getSymbol e := w']> (workers b))
                (errChan w') (events w'))
      | Panic msg => Panic msg
      end
  end.

End BrokerNotify.

Module SampleBroker.
Import Sample.

Definition bolt : Instrument := mkInstrument 2 "BOLT" nyse.

Definition uninitialised : SimBroker := mkSimBroker 100 true false ∅ None [].

(** A broker for two symbols, and what it is after an order for the first
    of them was sent and a tick of that symbol arrived. *)
Definition twoSymbols : SimBroker :=
  match SimBroker_Init (Some []) [] [Some acme; Some bolt] uninitialised with
  | Ok b => b
  | Panic _ => uninitialised
  end.

Definition afterTick : SimBroker :=
  match @SimBroker_Notify specOps listOrder (tickEvent (atMs 1000) 99%float 4) twoSymbols with
  | Ok b => b
  | Panic _ => twoSymbols
  end.

End SampleBroker.

(** * Properties *)

Import Sample SamplePosition SampleIntake SampleStrategy SampleHistory SampleRelease SampleDay.

(** ** Two scenarios of the specification, run on the model *)

(** Basic limit fill: Buy-Limit(100, 10) at T = 0, round trip 200 ms, ticks
    (last 99, size 20) at 1 s and 2 s.  The confirmation is stamped 200 ms;
    the fill, at the limit price, 1 s plus the round trip, and it is sent
    with the next tick. *)
Example scenario_basic_limit_fill :
  sentBy [NewOrderEvent (be (atMs 0) acme)
            (limitOrder "o1" OrderBuy 100%float 10 GTCTIF (atMs 0));
          tickEvent (atMs 1000) 99%float 20;
          tickEvent (atMs 2000) 99%float 20] (newWorker 100 false)
  = Some [OrderConfirmationEvent (be (atMs 200) acme) "o1";
          tickEvent (atMs 1000) 99%float 20;
          OrderFillEvent (be (atMs 1200) acme) "o1" 100%float 10;
          tickEvent (atMs 2000) 99%float 20].
Proof. vm_compute. reflexivity. Qed.

(** Strict limit at equal price: no fill. *)
Example scenario_strict_limit_equal_price :
  sentBy [NewOrderEvent (be (atMs 0) acme)
            (limitOrder "o1" OrderBuy 100%float 10 GTCTIF (atMs 0));
          tickEvent (atMs 1000) 100%float 20;
          tickEvent (atMs 2000) 100%float 20] (newWorker 100 true)
  = Some [OrderConfirmationEvent (be (atMs 200) acme) "o1";
          tickEvent (atMs 1000) 100%float 20;
          tickEvent (atMs 2000) 100%float 20].
Proof. vm_compute. reflexivity. Qed.

(** ** Machine arithmetic and time *)

Lemma wrap64_id (z : Z) : int64_ok z -> wrap64 z = z.
Proof.
  unfold int64_ok, wrap64. intros Hz.
  rewrite Z.mod_small by lia. lia.
Qed.

Lemma neg64_exact (z : Z) : - 2 ^ 63 < z < 2 ^ 63 -> neg64 z = - z.
Proof. intros Hz. apply wrap64_id. unfold int64_ok. lia. Qed.

(** The duration that [genTimeRoundTrip] adds, as Go computes it. *)
Lemma roundTrip_exact (d : Z) :
  int64_ok (2 * d * Millisecond) ->
  mul64 (mul64 d 2) Millisecond = 2 * d * Millisecond.
Proof.
  unfold int64_ok, mul64, Millisecond. intros Hd.
  rewrite (wrap64_id (d * 2)) by (unfold int64_ok; lia).
  rewrite wrap64_id by (unfold int64_ok; lia). lia.
Qed.

Lemma After_lt (t u : Time) : After t u = true <-> unixNano u < unixNano t.
Proof. unfold After. apply Z.ltb_lt. Qed.

Lemma not_After_le (t u : Time) : After t u = false <-> unixNano t <= unixNano u.
Proof. unfold After. rewrite Z.ltb_ge. reflexivity. Qed.

(** ** Position query *)

(** C10. [Position] is 0 for a Flat or Closed current trade, the held
    quantity for a Long one and the negation of the held quantity for a
    Short one.  The negation is Go's [int64] negation, which is the
    integer negation for every quantity but the least [int64]. *)
Theorem Position_by_trade_type (b : BasicStrategy) :
  Position b =
    match Trade_Type (currentTrade b) with
    | FlatTrade | ClosedTrade => 0
    | LongTrade => Trade_Qty (currentTrade b)
    | ShortTrade => neg64 (Trade_Qty (currentTrade b))
    end
  /\ (- 2 ^ 63 < Trade_Qty (currentTrade b) < 2 ^ 63 ->
      neg64 (Trade_Qty (currentTrade b)) = - Trade_Qty (currentTrade b)).
Proof.
  split.
  - unfold Position. destruct (Trade_Type (currentTrade b)); reflexivity.
  - apply neg64_exact.
Qed.

Lemma Position_by_trade_type_witness :
  Position shortFive = neg64 5 /\ neg64 5 = - 5.
Proof.
  destruct (Position_by_trade_type shortFive) as [Hpos Hneg].
  split.
  - exact Hpos.
  - apply Hneg. vm_compute. split; reflexivity.
Defined.

(** ** Latency of the answers to a new order *)

Section Latency.
Context `{MarketDataOps}.

(** C1. A new-order request with event time T_s is answered, without a
    panic, by exactly one generated event, stamped T_s plus the round trip
    [genTimeRoundTrip]: a confirmation when the order is valid and its id
    is new to the worker, a rejection when the order is invalid or its id
    is known.  T_c - T_s is 2 x delay milliseconds exactly whenever that
    duration fits Go's 64-bit nanosecond [Duration]. *)
Theorem onNewOrder_round_trip (b : simBrokerWorker) (eb : BaseEvent) (o : Order) :
  exists (b' : simBrokerWorker) (e : event),
    onNewOrder eb o b = Ok (tt, b')
    /\ generatedEvents b' = generatedEvents b ++ [e]
    /\ getTime e = genTimeRoundTrip b (BaseEvent_Time eb)
    /\ getTicker e = BaseEvent_Ticker eb
    /\ (int64_ok (2 * delay b * Millisecond) ->
        unixNano (getTime e) - unixNano (BaseEvent_Time eb) = 2 * delay b * Millisecond)
    /\ (Order_isValid o = true -> orders b !! Order_Id o = None ->
        e = OrderConfirmationEvent (baseOf e) (Order_Id o))
    /\ (Order_isValid o = false \/ is_Some (orders b !! Order_Id o) ->
        exists reason, e = OrderRejectedEvent (baseOf e) (Order_Id o) reason).
Proof.
  assert (Hrt : forall t, int64_ok (2 * delay b * Millisecond) ->
                  unixNano (genTimeRoundTrip b t) - unixNano t = 2 * delay b * Millisecond).
  { intros t Hd. unfold genTimeRoundTrip, Add. simpl.
    rewrite roundTrip_exact by exact Hd. lia. }
  unfold onNewOrder, bind, get, modify.
  destruct (Order_isValid o) eqn:Hv; simpl.
  - destruct (orders b !! Order_Id o) as [old|] eqn:Hl.
    + unfold addBrokerEvent. rewrite Hl.
      eexists _, _. split; [reflexivity|]. simpl.
      split; [reflexivity|]. split; [reflexivity|]. split; [reflexivity|].
      split; [apply Hrt|]. split; [discriminate|]. intros _. eexists. reflexivity.
    + unfold addBrokerEvent. simpl. rewrite lookup_insert_eq.
      eexists _, _. split; [reflexivity|]. simpl.
      split; [reflexivity|]. split; [reflexivity|]. split; [reflexivity|].
      split; [apply Hrt|]. split; [reflexivity|].
      intros [Hf|[x Hx]]; discriminate.
  - unfold addBrokerEvent. simpl. rewrite lookup_insert_eq.
    eexists _, _. split; [reflexivity|]. simpl.
    split; [reflexivity|]. split; [reflexivity|]. split; [reflexivity|].
    split; [apply Hrt|]. split; [discriminate|]. intros _. eexists. reflexivity.
Qed.

End Latency.

Lemma onNewOrder_round_trip_witness :
  exists (b' : simBrokerWorker) (e : event),
    @onNewOrder specOps (be (atMs 0) acme)
      (limitOrder "o1" OrderBuy 100%float 10 GTCTIF (atMs 0)) (newWorker 100 false)
    = Ok (tt, b')
    /\ generatedEvents b' = generatedEvents (newWorker 100 false) ++ [e]
    /\ unixNano (getTime e) - unixNano (atMs 0) = 200 * Millisecond
    /\ e = OrderConfirmationEvent (baseOf e) "o1".
Proof.
  destruct (@onNewOrder_round_trip specOps (newWorker 100 false) (be (atMs 0) acme)
              (limitOrder "o1" OrderBuy 100%float 10 GTCTIF (atMs 0)))
    as (b' & e & Hrun & Hgen & _ & _ & Htime & Hconf & _).
  exists b', e. split; [exact Hrun|]. split; [exact Hgen|]. split.
  - apply Htime. unfold int64_ok, Millisecond. cbn [delay newWorker]. lia.
  - apply Hconf; reflexivity.
Defined.

(** ** Limit orders on ticks *)

Section TickLimit.
Context `{MarketDataOps}.

Lemma validate_active (order : simBrokerOrder) :
  Order_isValid (sbo_Order order) = true ->
  simBrokerOrder_isActive order = true ->
  0 < lvsQty order ->
  validateOrderForExecution order (Order_Type (sbo_Order order)) = None.
Proof.
  intros Hv Ha Hl. unfold validateOrderForExecution.
  rewrite Hv, Ha. simpl.
  replace (OrderType_eqb _ _) with true by (destruct (Order_Type (sbo_Order order)); reflexivity).
  simpl. destruct (Z.leb_spec (lvsQty order) 0); [lia | reflexivity].
Qed.

Lemma capped_is_min (size lvs : Z) : (if size <? lvs then size else lvs) = Z.min lvs size.
Proof. destruct (Z.ltb_spec size lvs); lia. Qed.

(** C6. In tick mode, for an active limit order (valid, with positive
    leaves quantity) and a tick that has a trade: a Buy fills at the limit
    price when last < limit, or when last == limit and strict-limit is off,
    and does not fill otherwise; a Sell fills when last > limit, or on
    equality with strict-limit off; the quantity is
    min(leaves quantity, last size) and the fill is stamped one round trip
    after the tick. *)
Theorem fillOnTickLimit_rule (b : simBrokerWorker) (order : simBrokerOrder) (tick : Tick) :
  Tick_HasTrade tick = true ->
  Order_isValid (sbo_Order order) = true ->
  Order_Type (sbo_Order order) = LimitOrder ->
  simBrokerOrder_isActive order = true ->
  0 < lvsQty order ->
  let last := LastPrice tick in
  let limit := BrokerPrice order in
  let fill :=
    OrderFillEvent
      (be (genTimeRoundTrip b (Tick_Datetime tick)) (Order_Ticker (sbo_Order order)))
      (Order_Id (sbo_Order order)) limit (Z.min (lvsQty order) (LastSize tick)) in
  (Order_Side (sbo_Order order) = OrderBuy ->
   fillOnTickLimit order tick b =
     Ok (if PrimFloat.ltb last limit
            || (PrimFloat.eqb last limit && negb (strictLimitOrders b))
         then Some fill else None, b))
  /\ (Order_Side (sbo_Order order) = OrderSell ->
      fillOnTickLimit order tick b =
        Ok (if PrimFloat.ltb limit last
               || (PrimFloat.eqb last limit && negb (strictLimitOrders b))
            then Some fill else None, b)).
Proof.
  intros Ht Hv Hty Ha Hl last limit fill.
  pose proof (validate_active order Hv Ha Hl) as Hval. rewrite Hty in Hval.
  unfold fillOnTickLimit. rewrite Ht, Hval. simpl.
  unfold bind, get, ret, tickFill. rewrite capped_is_min.
  split; intros Hs; rewrite Hs; subst last limit fill.
  - destruct (PrimFloat.ltb (LastPrice tick) (BrokerPrice order)); simpl; [reflexivity|].
    destruct (PrimFloat.eqb (LastPrice tick) (BrokerPrice order) && negb (strictLimitOrders b));
      reflexivity.
  - destruct (PrimFloat.ltb (BrokerPrice order) (LastPrice tick)); simpl; [reflexivity|].
    destruct (PrimFloat.eqb (LastPrice tick) (BrokerPrice order) && negb (strictLimitOrders b));
      reflexivity.
Qed.

End TickLimit.

Lemma fillOnTickLimit_rule_witness :
  @fillOnTickLimit specOps confirmedBuy (tradeTick (atMs 1000) 99%float 3) (newWorker 100 false)
  = Ok (Some (OrderFillEvent (be (atMs 1200) acme) "o1" 100%float 3), newWorker 100 false).
Proof.
  refine (proj1 (@fillOnTickLimit_rule specOps (newWorker 100 false) confirmedBuy
                   (tradeTick (atMs 1000) 99%float 3) _ _ _ _ _) _);
    try reflexivity.
Defined.

(** ** Events for unknown orders *)

Section Unknown.
Context `{MarketDataOps}.

(** C8, as the code has it.  An event that names an order (confirmation,
    cancel, replaced, fill, rejection) for an id unknown to the worker
    makes [addBrokerEvent] panic, and [notify] panics on any event of these
    kinds: the run aborts, nothing is sent on the error channel and the
    event is not buffered.  Only requests are answered without a panic: a
    cancel or replace request for an unknown id is answered by a reject
    event stamped one round trip later, and nothing else changes. *)
Theorem unknown_order_event_panics (b : simBrokerWorker) (e : event) (id : string) :
  orders b !! id = None ->
  (namedOrder e = Some id ->
   (exists msg, addBrokerEvent e b = Panic msg)
   /\ (forall mapOrder, exists msg, notify mapOrder e b = Panic msg))
  /\ (forall eb, exists b' reason,
        onCancelRequest eb id b = Ok (tt, b')
        /\ generatedEvents b' = generatedEvents b ++
             [OrderCancelRejectEvent
                (be (genTimeRoundTrip b (BaseEvent_Time eb)) (BaseEvent_Ticker eb)) id reason]
        /\ orders b' = orders b /\ errChan b' = errChan b /\ events b' = events b)
  /\ (forall eb p, exists b' reason,
        onReplaceRequest eb id p b = Ok (tt, b')
        /\ generatedEvents b' = generatedEvents b ++
             [OrderReplaceRejectEvent
                (be (genTimeRoundTrip b (BaseEvent_Time eb)) (BaseEvent_Ticker eb)) id reason]
        /\ orders b' = orders b /\ errChan b' = errChan b /\ events b' = events b).
Proof.
  intros Hnone. split; [|split].
  - intros Hnamed. split.
    + unfold addBrokerEvent.
      destruct e; simpl in Hnamed; try discriminate;
        injection Hnamed as ->; rewrite Hnone; eexists; reflexivity.
    + intros mapOrder. destruct e; simpl in Hnamed; try discriminate;
        eexists; reflexivity.
  - intros eb. unfold onCancelRequest, bind, get. simpl. rewrite Hnone.
    eexists _, _. split; [reflexivity|]. simpl. repeat split; reflexivity.
  - intros eb p. unfold onReplaceRequest, bind, get. simpl. rewrite Hnone.
    eexists _, _. split; [reflexivity|]. simpl. repeat split; reflexivity.
Qed.

End Unknown.

Lemma unknown_order_event_panics_witness :
  exists msg, addBrokerEvent (OrderFillEvent (be (atMs 5) acme) "ghost" 100%float 1)
                (newWorker 100 false) = Panic msg.
Proof.
  refine (proj1 (proj1 (@unknown_order_event_panics specOps (newWorker 100 false)
                          (OrderFillEvent (be (atMs 5) acme) "ghost" 100%float 1) "ghost" _) _));
    reflexivity.
Defined.

(** C8, as stated, fails: a confirmation for an id the worker does not know
    is not surfaced and dropped; the call panics. *)
Lemma unknown_confirmation_is_fatal :
  addBrokerEvent (OrderConfirmationEvent (be (atMs 5) acme) "ghost") (newWorker 100 false)
    = Panic "Confirmation of not existing order"
  /\ ~ surfacedAndDropped (OrderConfirmationEvent (be (atMs 5) acme) "ghost")
         (newWorker 100 false).
Proof.
  split; [reflexivity|].
  intros (b' & err & Hrun & _). discriminate Hrun.
Qed.

(** ** Stable sorting *)

Section StableSortFacts.
Context {A : Type} (key : A -> Z).

Lemma insertStable_perm (x : A) (l : list A) : insertStable key x l ≡ₚ x :: l.
Proof.
  induction l as [|y l IH]; simpl; [reflexivity|].
  destruct (key x <=? key y); [reflexivity|].
  rewrite IH. apply Permutation_swap.
Qed.

Lemma SliceStable_perm (l : list A) : SliceStable key l ≡ₚ l.
Proof.
  induction l as [|x l IH]; simpl; [reflexivity|].
  rewrite insertStable_perm. by rewrite IH.
Qed.

Lemma insertStable_sorted (x : A) (l : list A) :
  sortedBy key l -> sortedBy key (insertStable key x l).
Proof.
  unfold sortedBy. induction 1 as [|y l Hs IH Hall]; simpl.
  - repeat constructor.
  - destruct (Z.leb_spec (key x) (key y)) as [Hle|Hgt].
    + constructor; [by constructor|].
      constructor; [exact Hle|].
      eapply Forall_impl; [exact Hall|]. simpl. intros z Hz. lia.
    + constructor; [exact IH|].
      rewrite (insertStable_perm x l). constructor; [lia | exact Hall].
Qed.

Lemma SliceStable_sorted (l : list A) : sortedBy key (SliceStable key l).
Proof.
  induction l as [|x l IH]; simpl; [constructor|].
  by apply insertStable_sorted.
Qed.

(** Stability: the elements of any one key keep their order. *)
Lemma insertStable_class (k : Z) (x : A) (l : list A) :
  List.filter (fun y => key y =? k) (insertStable key x l)
  = List.filter (fun y => key y =? k) (x :: l).
Proof.
  induction l as [|y l IH]; [reflexivity|].
  simpl insertStable. destruct (Z.leb_spec (key x) (key y)) as [Hle|Hgt]; [reflexivity|].
  simpl in *. rewrite IH.
  destruct (Z.eqb_spec (key x) k) as [Hx|Hx]; [|reflexivity].
  destruct (Z.eqb_spec (key y) k) as [Hy|Hy]; [lia | reflexivity].
Qed.

Lemma SliceStable_stable (k : Z) (l : list A) :
  List.filter (fun y => key y =? k) (SliceStable key l)
  = List.filter (fun y => key y =? k) l.
Proof.
  induction l as [|x l IH]; [reflexivity|].
  simpl SliceStable. rewrite insertStable_class. simpl. by rewrite IH.
Qed.

Lemma insertStable_least (x : A) (l : list A) :
  Forall (fun y => key x <= key y) l -> insertStable key x l = x :: l.
Proof.
  destruct 1 as [|y l Hy _]; [reflexivity|].
  simpl. destruct (Z.leb_spec (key x) (key y)); [reflexivity | lia].
Qed.

End StableSortFacts.

(** ** Request intake *)

Section Intake.
Context `{MarketDataOps}.

Lemma sameSetup_refl (b : simBrokerWorker) : sameSetup b b.
Proof. by repeat split. Qed.

Lemma sameSetup_trans (b1 b2 b3 : simBrokerWorker) :
  sameSetup b1 b2 -> sameSetup b2 b3 -> sameSetup b1 b3.
Proof.
  unfold sameSetup. intros (?&?&?&?&?&?) (?&?&?&?&?&?).
  repeat split; congruence.
Qed.

Lemma addBrokerEvent_frame (e : event) (b b' : simBrokerWorker) :
  addBrokerEvent e b = Ok (tt, b') ->
  sameSetup b b' /\ generatedEvents b' = generatedEvents b ++ [e]
  /\ events b' = events b /\ errChan b' = errChan b.
Proof.
  unfold addBrokerEvent.
  destruct e; try (intros [= <-]; by repeat split);
    destruct (orders b !! OrdId) as [ord|]; try discriminate;
    try (intros [= <-]; by repeat split).
  destruct (Qty =? _); [intros [= <-]; by repeat split|].
  destruct (_ <? Qty); [discriminate|]. intros [= <-]; by repeat split.
Qed.

(** Handling a stored request never panics, and adds one answer stamped one
    round trip after the request. *)
Lemma handleRequest_total (e : event) (b : simBrokerWorker) :
  isRequest e = true ->
  exists b' ans,
    handleRequest e b = Ok (tt, b') /\ sameSetup b b'
    /\ generatedEvents b' = generatedEvents b ++ [ans]
    /\ getTime ans = genTimeRoundTrip b (getTime e)
    /\ events b' = events b /\ errChan b' = errChan b.
Proof.
  destruct e; try discriminate; intros _; simpl.
  - unfold onNewOrder, bind, get, modify.
    destruct (Order_isValid LinkedOrder); simpl.
    + destruct (orders b !! Order_Id LinkedOrder) as [old|] eqn:Hl.
      * unfold addBrokerEvent. rewrite Hl. eexists _, _. by repeat split.
      * unfold addBrokerEvent. simpl. rewrite lookup_insert_eq.
        eexists _, _. by repeat split.
    + unfold addBrokerEvent. simpl. rewrite lookup_insert_eq.
      eexists _, _. by repeat split.
  - unfold onCancelRequest, bind, get. simpl.
    destruct (orders b !! OrdId) as [o|] eqn:Hl.
    + destruct (BrokerState o); unfold addBrokerEvent; rewrite ?Hl;
        eexists _, _; by repeat split.
    + eexists _, _. by repeat split.
  - unfold onReplaceRequest, bind, get. simpl.
    destruct (orders b !! OrdId) as [o|] eqn:Hl.
    + destruct (BrokerState o);
        try (destruct (PrimFloat.is_nan NewPrice || PrimFloat.eqb NewPrice 0));
        unfold addBrokerEvent; rewrite ?Hl; eexists _, _; by repeat split.
    + eexists _, _. by repeat split.
Qed.

Lemma due_sameSetup (b b' : simBrokerWorker) (T : Time) (e : event) :
  sameSetup b b' -> due b' T e = due b T e.
Proof.
  intros (_ & Hd & _). unfold due, genTimeSingleTrip. by rewrite Hd.
Qed.

Lemma proceedLoop_split (T : Time) (l : list event) :
  Forall (fun e => isRequest e = true) l ->
  forall (eventsLeft : list event) (b : simBrokerWorker),
  exists b1,
    forEach (List.filter (due b T) l) handleRequest b = Ok (tt, b1)
    /\ proceedLoop T l eventsLeft b
       = Ok (eventsLeft ++ List.filter (fun e => negb (due b T e)) l, b1)
    /\ sameSetup b b1.
Proof.
  induction 1 as [|e l He _ IH]; intros eventsLeft b.
  - exists b. simpl. rewrite app_nil_r. repeat split; reflexivity.
  - cbn [proceedLoop List.filter]. unfold bind at 1. unfold get at 1.
    change (Before (genTimeSingleTrip b (getTime e)) T) with (due b T e).
    destruct (due b T e) eqn:Hdue; cbn [negb].
    + destruct (handleRequest_total e b He) as (b' & ans & Hrun & Hsame & _).
      destruct (IH eventsLeft b') as (b1 & Hfor & Hloop & Hsame1).
      exists b1. cbn [forEach]. unfold bind. rewrite Hrun.
      erewrite (List.filter_ext (due b T)) by (intros x; symmetry; by apply due_sameSetup).
      split; [exact Hfor|]. split; [|by eapply sameSetup_trans].
      rewrite Hloop. do 3 f_equal.
      apply List.filter_ext. intros x. by rewrite (due_sameSetup b b').
    + destruct (IH (eventsLeft ++ [e]) b) as (b1 & Hfor & Hloop & Hsame1).
      exists b1. split; [exact Hfor|]. split; [|exact Hsame1].
      rewrite Hloop. by rewrite <- app_assoc.
Qed.

(** C2, as the code has it.  On a market-data arrival at time T the worker
    sorts the buffered requests by the whole second of their submission
    time, requests of one second keeping their arrival order; it handles,
    in that order, exactly the requests whose visibility time (submission
    time plus single trip) is strictly before T, without a panic; the
    requests whose visibility time is T or later stay buffered, in the
    sorted order. *)
Theorem proceedStoredRequests_intake (b : simBrokerWorker) (T : Time) :
  Forall (fun e => isRequest e = true) (requestEvents b) ->
  let sorted := eventArray_sort (requestEvents b) in
  exists b1,
    forEach (List.filter (due b T) sorted) handleRequest
      (set_requestEvents (fun _ => sorted) b) = Ok (tt, b1)
    /\ proceedStoredRequests T b
       = Ok (tt, set_requestEvents
                   (fun _ => List.filter (fun e => negb (due b T e)) sorted) b1)
    /\ sorted ≡ₚ requestEvents b
    /\ sortedBy eventKey sorted
    /\ (forall k, List.filter (fun e => eventKey e =? k) sorted
                  = List.filter (fun e => eventKey e =? k) (requestEvents b)).
Proof.
  intros Hreq sorted.
  assert (Hperm : sorted ≡ₚ requestEvents b) by apply SliceStable_perm.
  assert (Hreq' : Forall (fun e => isRequest e = true) sorted).
  { by rewrite Hperm. }
  destruct (proceedLoop_split T sorted Hreq' [] (set_requestEvents (fun _ => sorted) b))
    as (b1 & Hfor & Hloop & Hsame).
  assert (Hdue : forall e, due (set_requestEvents (fun _ => sorted) b) T e = due b T e)
    by reflexivity.
  exists b1.
  split; [erewrite List.filter_ext; [exact Hfor | by intros; rewrite Hdue]|].
  split; [|split; [exact Hperm | split; [apply SliceStable_sorted | intros k; apply SliceStable_stable]]].
  unfold proceedStoredRequests, bind, get.
  destruct (requestEvents b) as [|r rs] eqn:Hre.
  - subst sorted. simpl in *. injection Hfor as <-.
    destruct b; simpl in *. by subst.
  - unfold modify at 1. cbv beta iota. fold sorted. rewrite Hloop.
    unfold modify. reflexivity.
Qed.

End Intake.

Lemma proceedStoredRequests_intake_witness :
  exists b1,
    forEach (List.filter (due sameSecondWorker (atMs 2000))
               (eventArray_sort (requestEvents sameSecondWorker)))
      (@handleRequest specOps)
      (set_requestEvents (fun _ => eventArray_sort (requestEvents sameSecondWorker))
         sameSecondWorker) = Ok (tt, b1)
    /\ @proceedStoredRequests specOps (atMs 2000) sameSecondWorker
       = Ok (tt, set_requestEvents
                   (fun _ => List.filter (fun e => negb (due sameSecondWorker (atMs 2000) e))
                               (eventArray_sort (requestEvents sameSecondWorker))) b1).
Proof.
  destruct (@proceedStoredRequests_intake specOps sameSecondWorker (atMs 2000))
    as (b1 & Hfor & Hrun & _).
  - repeat constructor.
  - exists b1. split; [exact Hfor | exact Hrun].
Defined.

(** C2, as stated, fails on two counts.  A request whose visibility time is
    exactly T is not handled at T: it stays buffered.  And two requests of
    the same second are handled in arrival order, not in submission-time
    order: the cancel request stamped 20 microseconds after the new-order
    request, but buffered first, is handled first and rejected. *)
Lemma intake_is_strict_and_by_second :
  (intakeOutcome (@proceedStoredRequests specOps (atMs 1) boundaryWorker)
     = Some ([], [newAtZero])
   /\ intakeOutcome (@spec_proceedStoredRequests specOps (atMs 1) boundaryWorker)
      = Some ([OrderConfirmationEvent (be (atMs 2) acme) "o1"], []))
  /\ (intakeOutcome (@proceedStoredRequests specOps (atMs 2000) sameSecondWorker)
        = Some ([OrderCancelRejectEvent (be (Add (atMs 1200) (20 * Microsecond)) acme) "o1"
                   "Broker can't find order with ID: o1";
                 OrderConfirmationEvent (be (atMs 1200) acme) "o1"], [])
      /\ intakeOutcome (@spec_proceedStoredRequests specOps (atMs 2000) sameSecondWorker)
         = Some ([OrderConfirmationEvent (be (atMs 1200) acme) "o1";
                  OrderCancelEvent (be (Add (atMs 1200) (20 * Microsecond)) acme) "o1"], [])).
Proof. repeat split; vm_compute; reflexivity. Qed.

(** ** Request tracking in the strategy runtime *)

(** A token registered by [CancelOrder] or [ReplaceOrder] starts with "$";
    the handlers delete tokens that start with "&".  No response handler
    removes a registered token. *)
Lemma registered_token_survives (b : BasicStrategy) (eb : BaseEvent)
    (id id' : string) (p : float) :
  (("$CAN$" +:+ id) ∈ waitingConfirmation b ->
   ("$CAN$" +:+ id) ∈ waitingConfirmation (onOrderCancelRejectHandler eb id' b)
   /\ ("$CAN$" +:+ id) ∈ waitingConfirmation (onOrderCancelHandler eb id' b))
  /\ (("$REP$" +:+ id) ∈ waitingConfirmation b ->
      ("$REP$" +:+ id) ∈ waitingConfirmation (onOrderReplaceRejectHandler eb id' b)
      /\ ("$REP$" +:+ id) ∈ waitingConfirmation (onOrderReplacedHandler eb id' p b)).
Proof.
  assert (Hadv : forall t, waitingConfirmation (advanceTime t b) = waitingConfirmation b).
  { intros t. unfold advanceTime. by destruct (After t (mostRecentTime b)). }
  split; intros Hin.
  - split.
    + unfold onOrderCancelRejectHandler, releaseToken. simpl. rewrite Hadv.
      apply elem_of_difference. split; [exact Hin|].
      rewrite elem_of_singleton. discriminate.
    + unfold onOrderCancelHandler.
      destruct (cancelOrder _ _) as [t [err|]]; simpl; rewrite Hadv;
        (apply elem_of_difference; split; [exact Hin|]);
        rewrite elem_of_singleton; discriminate.
  - split.
    + unfold onOrderReplaceRejectHandler, releaseToken. simpl. rewrite Hadv.
      apply elem_of_difference. split; [exact Hin|].
      rewrite elem_of_singleton. discriminate.
    + unfold onOrderReplacedHandler.
      destruct (replaceOrder _ _ _) as [t [err|]]; simpl; rewrite Hadv;
        (apply elem_of_difference; split; [exact Hin|]);
        rewrite elem_of_singleton; discriminate.
Qed.

(** C4 on the code: the cancel request for "o1" registers "$CAN$o1"; the
    broker's answer (here a cancel reject) deletes "&CAN&o1", which is not
    in the map, so the token stays and a second cancel request for "o1" is
    refused although no request is in flight.  The same holds for replace
    requests, registered as "$REP$o1" and answered by deleting "&REP&o1". *)
Theorem response_leaves_pending_token :
  let '(err1, b1) := CancelOrder "o1" withConfirmedOrder in
  let b2 := onOrderCancelRejectHandler (be (atMs 1200) acme) "o1" b1 in
  let '(err3, b3) := ReplaceOrder "o1" 99%float b2 in
  let b4 := onOrderReplacedHandler (be (atMs 1200) acme) "o1" 99%float b3 in
  err1 = None /\ pendingTokens b1 = ["$CAN$o1"]
  /\ pendingTokens b2 = ["$CAN$o1"] /\ waitingN b2 = 0
  /\ fst (CancelOrder "o1" b2) = Some (errors_New "Request is already waiting for conf. ")
  /\ err3 = None /\ "$REP$o1" ∈ pendingTokens b3
  /\ "$REP$o1" ∈ pendingTokens b4 /\ waitingN b4 = 0
  /\ fst (ReplaceOrder "o1" 98%float b4) = Some (errors_New "Request is already waiting for conf. ").
Proof.
  vm_compute. repeat split; try reflexivity.
  - apply list_elem_of_In. simpl. tauto.
  - apply list_elem_of_In. simpl. tauto.
Qed.

(** ** Fills with a bad quantity or price *)

Lemma executeOrder_rejects (t : Trade) (id : string) (qty : Z) (price : float) (time : Time) :
  qty <= 0 \/ PrimFloat.is_nan price = true \/ PrimFloat.leb price 0%float = true ->
  exists err, executeOrder t id qty price time = (t, None, Some err).
Proof.
  intros Hbad. unfold executeOrder.
  destruct (Trade_Type t); destruct (ConfirmedOrders t !! id) as [o|];
    try (eexists; reflexivity);
    (destruct (Z.leb_spec qty 0) as [Hq|Hq]; [eexists; reflexivity|];
     destruct Hbad as [Hbad|[Hbad|Hbad]]; [lia| |]; rewrite Hbad;
     rewrite ?orb_true_r; eexists; reflexivity).
Qed.

(** C3. A fill event with a quantity that is not positive, or with a NaN
    or non-positive price, has the handler send its error on the error
    channel and leaves the current trade, the closed trades and the
    position as they were; nothing is sent to the portfolio. *)
Theorem onOrderFillHandler_rejects_bad_fill (b : BasicStrategy) (eb : BaseEvent)
    (id : string) (price : float) (qty : Z) :
  qty <= 0 \/ PrimFloat.is_nan price = true \/ PrimFloat.leb price 0%float = true ->
  let b' := onOrderFillHandler eb id price qty b in
  currentTrade b' = currentTrade b
  /\ closedTrades b' = closedTrades b
  /\ Position b' = Position b
  /\ ch_portfolio b' = ch_portfolio b
  /\ exists errs,
       ch_errors b' = ch_errors b ++ errs
       /\ (qty <= 0 -> In (errors_New "Execution Qty is zero or less. ") errs)
       /\ (PrimFloat.is_nan price = true \/ PrimFloat.leb price 0%float = true ->
           In (errors_New "Price is NaN or less or equal to zero. ") errs).
Proof.
  intros Hbad b'. subst b'. unfold onOrderFillHandler.
  set (b1 := advanceTime (BaseEvent_Time eb) b).
  set (b2 := if negb (Instrument_ptr_eqb (BaseEvent_Ticker eb) (bs_symbol b1))
             then strategy_newError _ b1 else b1).
  set (b3 := if qty <=? 0 then strategy_newError _ b2 else b2).
  set (b4 := if PrimFloat.is_nan price || PrimFloat.leb price 0 then strategy_newError _ b3 else b3).
  assert (H1 : currentTrade b1 = currentTrade b /\ closedTrades b1 = closedTrades b
               /\ ch_portfolio b1 = ch_portfolio b /\ ch_errors b1 = ch_errors b).
  { subst b1. unfold advanceTime. by destruct (After _ _). }
  assert (H2 : currentTrade b2 = currentTrade b /\ closedTrades b2 = closedTrades b
               /\ ch_portfolio b2 = ch_portfolio b
               /\ exists l, ch_errors b2 = ch_errors b ++ l).
  { destruct H1 as (?&?&?&He). subst b2. destruct (negb _); simpl.
    - repeat split; try done. rewrite He. by eexists.
    - repeat split; try done. exists []. by rewrite app_nil_r. }
  assert (H3 : currentTrade b3 = currentTrade b /\ closedTrades b3 = closedTrades b
               /\ ch_portfolio b3 = ch_portfolio b
               /\ exists l, ch_errors b3 = ch_errors b ++ l
                    /\ (qty <= 0 -> In (errors_New "Execution Qty is zero or less. ") l)).
  { destruct H2 as (?&?&?&l&He). subst b3. destruct (Z.leb_spec qty 0); simpl.
    - repeat split; try done. exists (l ++ [errors_New "Execution Qty is zero or less. "]).
      rewrite He, app_assoc. split; [done|]. intros _. apply in_or_app. right. by left.
    - repeat split; try done. exists l. split; [done|]. lia. }
  assert (H4 : currentTrade b4 = currentTrade b /\ closedTrades b4 = closedTrades b
               /\ ch_portfolio b4 = ch_portfolio b
               /\ exists l, ch_errors b4 = ch_errors b ++ l
                    /\ (qty <= 0 -> In (errors_New "Execution Qty is zero or less. ") l)
                    /\ (PrimFloat.is_nan price = true \/ PrimFloat.leb price 0%float = true ->
                        In (errors_New "Price is NaN or less or equal to zero. ") l)).
  { destruct H3 as (?&?&?&l&He&Hq). subst b4.
    destruct (PrimFloat.is_nan price || PrimFloat.leb price 0) eqn:Hp; simpl.
    - repeat split; try done.
      exists (l ++ [errors_New "Price is NaN or less or equal to zero. "]).
      rewrite He, app_assoc. split; [done|]. split.
      + intros Hq'. apply in_or_app. left. auto.
      + intros _. apply in_or_app. right. by left.
    - repeat split; try done. exists l. split; [done|]. split; [done|].
      apply orb_false_elim in Hp as [Hn Hl]. intros [Hc|Hc]; congruence. }
  clearbody b4. clear b1 b2 b3 H1 H2 H3.
  destruct H4 as (Hcur & Hclosed & Hport & l & Herr & Hq & Hp).
  destruct (executeOrder_rejects (currentTrade b4) id qty price (BaseEvent_Time eb) Hbad)
    as [err Hexec].
  rewrite Hexec. simpl. unfold Position. simpl. rewrite Hcur, Hclosed, Hport.
  repeat split; try done.
  exists (l ++ [err]). rewrite Herr, app_assoc. split; [done|].
  split; intros Hx; apply in_or_app; left; auto.
Qed.

Lemma onOrderFillHandler_rejects_bad_fill_witness :
  currentTrade (onOrderFillHandler (be (atMs 1200) acme) "o1" 100%float 0 withConfirmedOrder)
  = currentTrade withConfirmedOrder.
Proof.
  refine (proj1 (onOrderFillHandler_rejects_bad_fill withConfirmedOrder
                   (be (atMs 1200) acme) "o1" 100%float 0 _)).
  left. lia.
Defined.

(** ** History backfill *)

Section SortAppend.
Context {A : Type} (key : A -> Z).

Lemma insertStable_after (x : A) (l1 l2 : list A) :
  Forall (fun y => key y < key x) l1 ->
  insertStable key x (l1 ++ l2) = l1 ++ insertStable key x l2.
Proof.
  induction 1 as [|y l1 Hy _ IH]; [reflexivity|].
  simpl. destruct (Z.leb_spec (key x) (key y)); [lia|]. by rewrite IH.
Qed.

(** Sorting a sorted block followed by smaller elements moves the block,
    unchanged, behind them. *)
Lemma SliceStable_block_last (W R : list A) :
  sortedBy key W ->
  (forall r w, r ∈ R -> w ∈ W -> key r < key w) ->
  SliceStable key (W ++ R) = SliceStable key R ++ W.
Proof.
  induction 1 as [|w W Hs IH Hall]; intros Hlt.
  - simpl. by rewrite app_nil_r.
  - simpl. rewrite IH by (intros r w' ? ?; apply Hlt; [done | by right]).
    rewrite insertStable_after.
    + f_equal. by apply insertStable_least.
    + apply Forall_forall. intros r Hr. apply Hlt; [|by left].
      by rewrite <- (SliceStable_perm key R).
Qed.

Lemma sorted_NoDup_strict (l : list A) :
  sortedBy key l -> NoDup (map key l) ->
  StronglySorted (fun x y => key x < key y) l.
Proof.
  induction 1 as [|x l Hs IH Hall]; intros Hnd; [constructor|].
  simpl in Hnd. apply NoDup_cons in Hnd as [Hx Hnd].
  constructor; [by apply IH|].
  apply Forall_forall. intros y Hy.
  rewrite Forall_forall in Hall. specialize (Hall y Hy).
  assert (key x <> key y); [|lia].
  intros Heq. apply Hx. rewrite Heq. apply list_elem_of_fmap. by exists y.
Qed.

Lemma strict_drop_above (l : list A) (k : nat) :
  StronglySorted (fun x y => key x < key y) l ->
  forall x w, x ∈ take k l -> w ∈ drop k l -> key x < key w.
Proof.
  intros Hs. revert k. induction Hs as [|y l Hs IH Hall]; intros k x w Hx Hw.
  - rewrite take_nil in Hx. by apply elem_of_nil in Hx.
  - destruct k as [|k]; [by apply elem_of_nil in Hx|].
    simpl in Hx, Hw. apply elem_of_cons in Hx as [->|Hx].
    + rewrite Forall_forall in Hall. apply Hall.
      by eapply (subseteq_drop k l).
    + by eapply IH.
Qed.

End SortAppend.

Section CandleHistory.
Context `{MarketDataOps}.

Lemma checkCandles_facts (l : CandleArray) (seen : gset (Z * Z)) :
  let X := checkCandles l seen in
  Forall (fun c => Candle_isValid c = true) X
  /\ NoDup (map candleTime X)
  /\ (forall c, c ∈ X -> candleTime c ∉ seen)
  /\ (forall c, c ∈ X -> Some c ∈ l)
  /\ (forall c, Some c ∈ l -> Candle_isValid c = true ->
        candleTime c ∈ seen \/ candleTime c ∈ map candleTime X).
Proof.
  revert seen. induction l as [|[v|] l IH]; intros seen; simpl.
  - split; [constructor|]. split; [constructor|].
    split; [|split]; intros c Hc; by apply elem_of_nil in Hc.
  - destruct (IH seen) as (Hv & Hnd & Hseen & Hin & Hcov).
    destruct (IH ({[timeKey (Candle_Datetime v)]} ∪ seen)) as (Hv' & Hnd' & Hseen' & Hin' & Hcov').
    destruct (Candle_isValid v) eqn:Hvalid; simpl.
    + case_bool_decide as Hlisted.
      * repeat split; try done.
        -- intros c Hc. right. by apply Hin.
        -- intros c Hc Hcv. apply elem_of_cons in Hc as [[= ->]|Hc]; [by left | by apply Hcov].
      * repeat split.
        -- by constructor.
        -- simpl. apply NoDup_cons. split; [|done].
           intros Hdup. apply list_elem_of_fmap in Hdup as (c & Hc1 & Hc2).
           apply (Hseen' c Hc2). rewrite <- Hc1.
           apply elem_of_union_l. by apply elem_of_singleton.
        -- intros c Hc. apply elem_of_cons in Hc as [->|Hc]; [done|].
           intros Hs. apply (Hseen' c Hc). by apply elem_of_union_r.
        -- intros c Hc. apply elem_of_cons in Hc as [->|Hc]; [by left|].
           right. by apply Hin'.
        -- intros c Hc Hcv. simpl. apply elem_of_cons in Hc as [[= ->]|Hc].
           ++ right. by left.
           ++ destruct (Hcov' c Hc Hcv) as [Hs|Hx].
              ** apply elem_of_union in Hs as [Hs|Hs]; [|by left].
                 right. apply elem_of_singleton in Hs. rewrite Hs. by left.
              ** right. by right.
    + repeat split; try done.
      * intros c Hc. right. by apply Hin.
      * intros c Hc Hcv. apply elem_of_cons in Hc as [[= ->]|Hc]; [congruence | by apply Hcov].
  - destruct (IH seen) as (Hv & Hnd & Hseen & Hin & Hcov).
    repeat split; try done.
    + intros c Hc. right. by apply Hin.
    + intros c Hc Hcv. apply elem_of_cons in Hc as [[=]|Hc]. by apply Hcov.
Qed.

Lemma checkCandles_app (l1 l2 : CandleArray) (seen : gset (Z * Z)) :
  checkCandles (l1 ++ l2) seen
  = checkCandles l1 seen
    ++ checkCandles l2 (seen ∪ list_to_set (map candleTime (checkCandles l1 seen))).
Proof.
  revert seen. induction l1 as [|[v|] l1 IH]; intros seen; simpl.
  - by rewrite (right_id_L ∅ (∪)).
  - destruct (Candle_isValid v); simpl; [|apply IH].
    case_bool_decide; [apply IH|].
    simpl. rewrite IH. f_equal. f_equal.
    rewrite (comm_L (∪) {[timeKey (Candle_Datetime v)]} seen), <- (assoc_L (∪)).
    reflexivity.
  - apply IH.
Qed.

Lemma checkCandles_window (W : list Candle) (seen : gset (Z * Z)) :
  Forall (fun c => Candle_isValid c = true) W ->
  NoDup (map candleTime W) ->
  (forall c, c ∈ W -> candleTime c ∉ seen) ->
  checkCandles (map Some W) seen = W.
Proof.
  revert seen. induction W as [|w W IH]; intros seen Hv Hnd Hseen; [reflexivity|].
  apply Forall_cons in Hv as [Hw Hv]. simpl in Hnd. apply NoDup_cons in Hnd as [Hnw Hnd].
  simpl. rewrite Hw. simpl.
  case_bool_decide as Hlisted; [exfalso; apply (Hseen w); [by left | done]|].
  f_equal. apply IH; [done | done |].
  intros c Hc Hin. apply elem_of_union in Hin as [Hin|Hin]; [|by apply (Hseen c); [right|]].
  apply elem_of_singleton in Hin. apply Hnw. fold (candleTime w) in Hin. rewrite <- Hin.
  apply list_elem_of_fmap. by exists c.
Qed.

Lemma candleTime_key (c c' : Candle) : candleTime c = candleTime c' -> candleKey c = candleKey c'.
Proof.
  unfold candleTime, timeKey, candleKey, Unix. intros [= Hn _]. by rewrite Hn.
Qed.

Lemma updateLastCandleOpen_settled (b b1 : BasicStrategy) :
  updateLastCandleOpen b = Ok b1 ->
  Candles b1 = Candles b /\ updateLastCandleOpen b1 = Ok b1.
Proof.
  unfold updateLastCandleOpen.
  destruct (last (Candles b)) as [[c|]|] eqn:Hlast; try discriminate.
  - destruct (After (Candle_Datetime c) (lastCandleOpenTime b)) eqn:Haft; intros [= <-].
    + simpl. rewrite Hlast. split; [done|].
      unfold After. by rewrite Z.ltb_irrefl.
    + rewrite Hlast, Haft. done.
  - intros [= <-]. by rewrite Hlast.
Qed.

Lemma NoDup_map_coarser {A B C : Type} (f : A -> B) (g : A -> C) (l : list A) :
  NoDup (map f l) ->
  (forall x y, x ∈ l -> y ∈ l -> g x = g y -> f x = f y) ->
  NoDup (map g l).
Proof.
  induction l as [|x l IH]; intros Hnd Hinj; simpl; [constructor|].
  simpl in Hnd. apply NoDup_cons in Hnd as [Hx Hnd].
  apply NoDup_cons. split.
  - intros Hin. apply list_elem_of_fmap in Hin as (y & Hxy & Hy).
    apply Hx. rewrite (Hinj x y); [|by left|by right|done].
    apply list_elem_of_fmap. by exists y.
  - apply IH; [done|]. intros a c Ha Hc. apply Hinj; by right.
Qed.

(** The window kept by a candle history load is a fixed point of loading
    the same candles again. *)
Lemma candle_window_fixed (B E : CandleArray) (N : Z) (W : list Candle) :
  secondsSeparate (B ++ E) ->
  lastPeriods N (SliceStable candleKey (checkCandles (B ++ E) ∅)) = Ok W ->
  lastPeriods N (SliceStable candleKey (checkCandles (map Some W ++ E) ∅)) = Ok W.
Proof.
  intros Hsep Hwin.
  set (X := checkCandles (B ++ E) ∅) in *.
  set (S := SliceStable candleKey X) in *.
  destruct (checkCandles_facts (B ++ E) ∅) as (HXv & HXnd & _ & HXin & HXcov).
  fold X in HXv, HXnd, HXin, HXcov.
  assert (HSX : S ≡ₚ X) by apply SliceStable_perm.
  assert (HSsorted : sortedBy candleKey S) by apply SliceStable_sorted.
  assert (HSstrict : StronglySorted (fun x y => candleKey x < candleKey y) S).
  { apply sorted_NoDup_strict; [done|]. rewrite HSX.
    apply (NoDup_map_coarser candleTime); [done|].
    intros x y Hx Hy. apply Hsep; by apply HXin. }
  (* the window is a suffix of the sorted array *)
  assert (Hk : exists k : nat,
             W = drop k S /\ Z.of_nat (length W) <= N
             /\ (k = 0%nat \/ (0 <= N /\ length W = Z.to_nat N))).
  { unfold lastPeriods in Hwin. destruct (Z.ltb_spec N (Z.of_nat (length S))) as [Hlt|Hge].
    - destruct (Z.ltb_spec N 0); [discriminate|]. injection Hwin as <-.
      exists (length S - Z.to_nat N)%nat. split; [done|].
      rewrite length_drop. split; [lia|]. right. split; [done | lia].
    - injection Hwin as <-. exists 0%nat. rewrite drop_0. split; [done|]. split; [lia | by left]. }
  destruct Hk as (k & HW & HlenW & Hkcase).
  assert (HWS : forall c, c ∈ W -> c ∈ S).
  { intros c Hc. rewrite HW in Hc. by eapply subseteq_drop. }
  assert (HWv : Forall (fun c => Candle_isValid c = true) W).
  { apply Forall_forall. intros c Hc. rewrite Forall_forall in HXv.
    apply HXv. rewrite <- HSX. by apply HWS. }
  assert (HWnd : NoDup (map candleTime W)).
  { rewrite HW. change (map candleTime (drop k S)) with (candleTime <$> drop k S).
    rewrite fmap_drop.
    eapply sublist_NoDup; [|apply sublist_drop].
    change (NoDup (map candleTime S)). by rewrite HSX. }
  assert (HWsorted : sortedBy candleKey W).
  { rewrite HW. unfold sortedBy. eapply StronglySorted_app_1_r.
    rewrite take_drop. exact HSsorted. }
  rewrite checkCandles_app, (checkCandles_window W ∅ HWv HWnd)
    by (intros c _ Hc; by apply not_elem_of_empty in Hc).
  set (seen := ∅ ∪ list_to_set (map candleTime W)).
  set (R := checkCandles E seen).
  destruct (checkCandles_facts E seen) as (HRv & _ & HRseen & HRin & _). fold R in HRv, HRseen, HRin.
  (* a candle of the event that is not in the window is older than the window *)
  assert (Hold : forall r, r ∈ R -> exists x, x ∈ take k S /\ candleKey r = candleKey x).
  { intros r Hr.
    assert (Hrv : Candle_isValid r = true) by (rewrite Forall_forall in HRv; by apply HRv).
    destruct (HXcov r) as [Hc|Hc]; [apply elem_of_app; right; by apply HRin | done | |].
    { by apply not_elem_of_empty in Hc. }
    apply list_elem_of_fmap in Hc as (x & Hrx & Hx).
    exists x. split; [|by apply candleTime_key].
    rewrite <- HSX, <- (take_drop k S) in Hx. apply elem_of_app in Hx as [Hx|Hx]; [done|].
    exfalso. apply (HRseen r Hr). unfold seen. apply elem_of_union_r.
    apply elem_of_list_to_set. rewrite Hrx, HW. apply list_elem_of_fmap. by exists x. }
  assert (Hlt : forall r w, r ∈ R -> w ∈ W -> candleKey r < candleKey w).
  { intros r w Hr Hw. destruct (Hold r Hr) as (x & Hx & ->).
    eapply (strict_drop_above candleKey S k); [done | done | by rewrite <- HW]. }
  rewrite (SliceStable_block_last candleKey W R HWsorted Hlt).
  set (T := SliceStable candleKey R).
  assert (HT : length T = length R) by (subst T; by rewrite SliceStable_perm).
  clearbody T. unfold lastPeriods. rewrite length_app.
  destruct (length R) as [|n] eqn:HlenR.
  - apply nil_length_inv in HT as ->. simpl.
    destruct (Z.ltb_spec N (Z.of_nat (length W))); [lia | done].
  - destruct Hkcase as [->|[HN HlenN]].
    + destruct R as [|r R']; [discriminate|].
      destruct (Hold r) as (x & Hx & _); [by left|]. by apply elem_of_nil in Hx.
    + destruct (Z.ltb_spec N (Z.of_nat (length T + length W))); [|lia].
      destruct (Z.ltb_spec N 0); [lia|].
      f_equal. apply drop_app_length'. lia.
Qed.

Lemma updateLastCandleOpen_nPeriods (b b1 : BasicStrategy) :
  updateLastCandleOpen b = Ok b1 -> nPeriods b1 = nPeriods b.
Proof.
  unfold updateLastCandleOpen.
  destruct (last (Candles b)) as [[c|]|]; try discriminate.
  - destruct (After _ _); by intros [= <-].
  - by intros [= <-].
Qed.

(** C9, as the code has it, for candles.  When no two candles of the
    window and of the event that fall in the same Unix second differ in
    their timestamp, a second delivery of the same candle history leaves
    the strategy, its candle window included, exactly as the first delivery
    left it. *)
Theorem candle_history_idempotent (b b1 : BasicStrategy) (eCandles : CandleArray) :
  secondsSeparate (Candles b ++ eCandles) ->
  onCandleHistoryHandler eCandles b = Ok b1 ->
  onCandleHistoryHandler eCandles b1 = Ok b1.
Proof.
  intros Hsep Hfirst. unfold onCandleHistoryHandler in *.
  destruct eCandles as [|e0 E']; [by injection Hfirst as <-|].
  set (E := e0 :: E') in *.
  destruct (lastPeriods (nPeriods b) _) as [W|msg] eqn:Hwin; [|discriminate].
  pose proof (updateLastCandleOpen_nPeriods _ _ Hfirst) as HN. simpl in HN.
  destruct (updateLastCandleOpen_settled _ _ Hfirst) as [HC Hsettled]. simpl in HC.
  rewrite HC, HN, (candle_window_fixed (Candles b) E (nPeriods b) W Hsep Hwin).
  replace (set_Candles (map Some W) b1) with b1; [exact Hsettled|].
  destruct b1; simpl in *. by subst.
Qed.

End CandleHistory.

Lemma candle_history_idempotent_witness :
  @onCandleHistoryHandler specOps [Some candle1; Some candle2; Some candle3] candlesOnce
  = Ok candlesOnce.
Proof.
  apply (@candle_history_idempotent specOps (newStrategy 2)).
  - intros c c' Hc Hc' Hk.
    apply list_elem_of_In in Hc, Hc'. simpl in Hc, Hc'.
    destruct Hc as [[= <-]|[[= <-]|[[= <-]|[]]]];
      destruct Hc' as [[= <-]|[[= <-]|[[= <-]|[]]]];
      try reflexivity; vm_compute in Hk; discriminate Hk.
  - vm_compute. reflexivity.
Defined.

(** C9, as stated, fails.  Ticks are merged without de-duplication: after
    one delivery of two ticks into a window of two the window is
    [tick1; tick2], after a second delivery it is [tick2; tick2].  Candles
    are de-duplicated by timestamp but sorted by whole seconds: with two
    candles of the same second and a window of one, the first delivery
    keeps the candle of 1.2 s, the second the candle of 1.5 s. *)
Lemma history_load_twice_differs :
  (~ @tickHistoryIdempotent specOps [Some tick1; Some tick2] (newStrategy 2)
   /\ Ticks ticksOnce = [Some tick1; Some tick2]
   /\ Ticks ticksTwice = [Some tick2; Some tick2])
  /\ (~ @candleHistoryIdempotent specOps [Some candleA; Some candleB] (newStrategy 1)
      /\ Candles sameSecondOnce = [Some candleB]
      /\ Candles sameSecondTwice = [Some candleA]).
Proof.
  split; split.
  - intros Hidem.
    specialize (Hidem ticksOnce ticksTwice).
    assert (Ticks ticksTwice = Ticks ticksOnce) as Heq.
    { apply Hidem; vm_compute; reflexivity. }
    vm_compute in Heq. discriminate Heq.
  - split; vm_compute; reflexivity.
  - intros Hidem.
    specialize (Hidem sameSecondOnce sameSecondTwice).
    assert (Candles sameSecondTwice = Candles sameSecondOnce) as Heq.
    { apply Hidem; vm_compute; reflexivity. }
    vm_compute in Heq. discriminate Heq.
  - split; vm_compute; reflexivity.
Qed.

(** ** Matchers only report *)

Lemma onlyErrors_refl (b : simBrokerWorker) : onlyErrors b b.
Proof. split; [apply sameSetup_refl | done]. Qed.

Lemma onlyErrors_trans (b1 b2 b3 : simBrokerWorker) :
  onlyErrors b1 b2 -> onlyErrors b2 b3 -> onlyErrors b1 b3.
Proof.
  intros (Hs & ? & ? & ?) (Hs' & ? & ? & ?).
  split; [by eapply sameSetup_trans|]. repeat split; congruence.
Qed.

Section Matchers.
Context {A : Type} (o : simBrokerOrder) (evs : A -> list event).

Lemma matcherOf_ret (a : A) :
  allNamed (Order_Id (sbo_Order o)) (evs a) -> matcherOf o evs (ret a).
Proof. intros Ha b r b' [= <- <-]. split; [apply onlyErrors_refl | done]. Qed.

Lemma matcherOf_panic (msg : string) : matcherOf o evs (panic msg).
Proof. intros b r b' Hrun. discriminate Hrun. Qed.

Lemma matcherOf_get (f : simBrokerWorker -> W A) :
  (forall b, matcherOf o evs (f b)) -> matcherOf o evs (b <- get ;; f b).
Proof. intros Hf b r b' Hrun. unfold bind, get in Hrun. by eapply Hf. Qed.

Lemma matcherOf_newError (err : error) (m : W A) :
  matcherOf o evs m -> matcherOf o evs (newError err ;;; m).
Proof.
  intros Hm b r b' Hrun. unfold bind, newError in Hrun.
  destruct (errChan b) as [sent|]; [|discriminate].
  destruct (Hm _ _ _ Hrun) as [Honly Hev]. split; [|done].
  eapply onlyErrors_trans; [|exact Honly]. by repeat split.
Qed.

Lemma matcherOf_bind {B : Type} (evsB : B -> list event) (m : W B) (f : B -> W A) :
  matcherOf o evsB m ->
  (forall r, allNamed (Order_Id (sbo_Order o)) (evsB r) -> matcherOf o evs (f r)) ->
  matcherOf o evs (r <- m ;; f r).
Proof.
  intros Hm Hf b r b' Hrun. unfold bind in Hrun.
  destruct (m b) as [[x b1]|] eqn:Hmb; [|discriminate].
  destruct (Hm _ _ _ Hmb) as [Honly Hev].
  destruct (Hf x Hev _ _ _ Hrun) as [Honly' Hev'].
  split; [by eapply onlyErrors_trans | done].
Qed.

End Matchers.

Lemma allNamed_option (id : string) (e : event) :
  namedOrder e = Some id -> allNamed id (convertToList (Some e)).
Proof. intros He. by constructor. Qed.

Lemma allNamed_none (id : string) : allNamed id (convertToList None).
Proof. constructor. Qed.

(** Takes a matcher apart down to [ret], [panic], [get] and [newError]. *)
Ltac matcher_step :=
  match goal with
  | |- matcherOf _ _ (ret _) => apply matcherOf_ret
  | |- matcherOf _ _ (panic _) => apply matcherOf_panic
  | |- matcherOf _ _ (bind get _) => apply matcherOf_get; intros ?
  | |- matcherOf _ _ (bind (newError _) _) => apply matcherOf_newError
  | |- matcherOf _ _ (if ?c then _ else _) => destruct c
  | |- matcherOf _ _ (match ?x with _ => _ end) => destruct x
  | |- allNamed _ (convertToList None) => apply allNamed_none
  | |- allNamed _ (convertToList (Some _)) => apply allNamed_option; reflexivity
  | |- allNamed _ (id _) => unfold id
  | |- allNamed _ _ => unfold allNamed
  | |- Forall _ [] => constructor
  | |- Forall _ (_ :: _) => constructor; [reflexivity|]
  end.

Ltac matcher := cbv zeta; repeat matcher_step.

Section MatcherFacts.
Context `{MarketDataOps}.

Lemma fillOnTickLimit_matcher (o : simBrokerOrder) (tick : Tick) :
  matcherOf o convertToList (fillOnTickLimit o tick).
Proof. unfold fillOnTickLimit. matcher. Qed.

Lemma fillOnTickStop_matcher (o : simBrokerOrder) (tick : Tick) :
  matcherOf o convertToList (fillOnTickStop o tick).
Proof. unfold fillOnTickStop. matcher. Qed.

Lemma fillOnTickMarket_matcher (o : simBrokerOrder) (tick : Tick) :
  matcherOf o convertToList (fillOnTickMarket o tick).
Proof. unfold fillOnTickMarket. matcher. Qed.

Lemma fillOnTickMOO_matcher (o : simBrokerOrder) (tick : Tick) :
  matcherOf o convertToList (fillOnTickMOO o tick).
Proof. unfold fillOnTickMOO. matcher. Qed.

Lemma fillOnTickMOC_matcher (o : simBrokerOrder) (tick : Tick) :
  matcherOf o convertToList (fillOnTickMOC o tick).
Proof. unfold fillOnTickMOC. matcher. Qed.

Lemma fillOnTickLimitAuction_matcher (o : simBrokerOrder) (tick : Tick) :
  matcherOf o id (fillOnTickLimitAuction o tick).
Proof. unfold fillOnTickLimitAuction. matcher. Qed.

Lemma fillOnTickLOO_matcher (o : simBrokerOrder) (tick : Tick) :
  matcherOf o id (fillOnTickLOO o tick).
Proof. unfold fillOnTickLOO. matcher. apply fillOnTickLimitAuction_matcher. Qed.

Lemma fillOnTickLOC_matcher (o : simBrokerOrder) (tick : Tick) :
  matcherOf o id (fillOnTickLOC o tick).
Proof. unfold fillOnTickLOC. matcher. apply fillOnTickLimitAuction_matcher. Qed.

Lemma matcherOf_convert (o : simBrokerOrder) (m : W (option event)) :
  matcherOf o convertToList m -> matcherOf o id (e <- m ;; ret (convertToList e)).
Proof.
  intros Hm. eapply matcherOf_bind; [exact Hm|].
  intros r Hr. by apply matcherOf_ret.
Qed.

Lemma findExecutionsOnTick_matcher (o : simBrokerOrder) (tick : Tick) :
  matcherOf o id (findExecutionsOnTick o tick).
Proof.
  unfold findExecutionsOnTick.
  destruct (validateOrderForExecution o (Order_Type (sbo_Order o))).
  { matcher. }
  destruct (Order_Type (sbo_Order o));
    first [ apply matcherOf_convert;
            first [ apply fillOnTickMarket_matcher | apply fillOnTickLimit_matcher
                  | apply fillOnTickStop_matcher | apply fillOnTickMOO_matcher
                  | apply fillOnTickMOC_matcher ]
          | apply fillOnTickLOO_matcher | apply fillOnTickLOC_matcher
          | matcher ].
Qed.

Lemma fillIfPriced_named (eb : BaseEvent) (o : simBrokerOrder) (p : float) :
  allNamed (Order_Id (sbo_Order o)) (convertToList (fillIfPriced eb o p)).
Proof. unfold fillIfPriced. destruct (PrimFloat.is_nan p); by repeat constructor. Qed.

Lemma findExecutionsOnCandleClose_matcher (o : simBrokerOrder) (eb : BaseEvent)
    (TimeFrame : string) (c : Candle) :
  matcherOf o convertToList (findExecutionsOnCandleClose o eb TimeFrame c).
Proof.
  unfold findExecutionsOnCandleClose, fillOnCandleCloseLimit, fillOnCandleCloseStop,
    fillOnCandleCloseLOC, fillOnCandleCloseMOC.
  matcher; apply fillIfPriced_named.
Qed.

Lemma findExecutionsOnCandleOpen_matcher (o : simBrokerOrder) (eb : BaseEvent)
    (TimeFrame : string) (CandleTime : Time) (Price : float) :
  matcherOf o convertToList (findExecutionsOnCandleOpen o eb TimeFrame CandleTime Price).
Proof.
  unfold findExecutionsOnCandleOpen, fillOnCandleOpenLimit, fillOnCandleOpenLOO,
    fillOnCandleOpenStop, fillOnCandleOpenMOO, fillOnCandleOpenMarket.
  matcher.
Qed.

End MatcherFacts.

(** ** Executions only append to the buffer *)

Lemma namedWithin_mono (ids ids' : list string) (l : list event) :
  (forall id, id ∈ ids -> id ∈ ids') -> namedWithin ids l -> namedWithin ids' l.
Proof.
  intros Hsub Hl. eapply Forall_impl; [exact Hl|].
  intros e (id & Hid & He). exists id. auto.
Qed.

Lemma allNamed_within (id : string) (l : list event) :
  allNamed id l -> namedWithin [id] l.
Proof.
  intros Hl. eapply Forall_impl; [exact Hl|].
  intros e He. exists id. split; [by left | done].
Qed.

Lemma appendsFor_onlyErrors (ids : list string) (b b' : simBrokerWorker) :
  onlyErrors b b' -> appendsFor ids b b' [].
Proof.
  intros (Hs & He & Ho & Hg). split; [done|]. split; [done|].
  split; [by rewrite app_nil_r|]. split; [constructor|].
  rewrite Ho. split; [done|]. intros k o' Hk. by exists o'.
Qed.

Lemma appendsFor_trans (ids1 ids2 : list string) (b b1 b2 : simBrokerWorker)
    (e1 e2 : list event) :
  appendsFor ids1 b b1 e1 -> appendsFor ids2 b1 b2 e2 ->
  appendsFor (ids1 ++ ids2) b b2 (e1 ++ e2).
Proof.
  intros (Hs & He & Hg & Hn & Ho & Hk) (Hs' & He' & Hg' & Hn' & Ho' & Hk').
  split; [by eapply sameSetup_trans|]. split; [congruence|].
  split; [by rewrite Hg', Hg, app_assoc|].
  split.
  { apply Forall_app. split; (eapply namedWithin_mono; [|eassumption]);
      intros id Hid; apply elem_of_app; auto. }
  split.
  - intros k Hnot. rewrite Ho', Ho; [done | |]; intros Hin; apply Hnot, elem_of_app; auto.
  - intros k o2 Hl. destruct (Hk' k o2 Hl) as (o1 & Hl1 & Heq1).
    destruct (Hk k o1 Hl1) as (o0 & Hl0 & Heq0). exists o0. split; [done | congruence].
Qed.

Lemma appendsFor_ownIds (ids : list string) (b b' : simBrokerWorker) (extra : list event) :
  appendsFor ids b b' extra -> ownIds (orders b) -> ownIds (orders b').
Proof.
  intros (_ & _ & _ & _ & _ & Hk) Hown k o' Hl.
  destruct (Hk k o' Hl) as (o & Hl0 & ->). by apply Hown.
Qed.

Lemma addBrokerEvent_appends (e : event) (id : string) (b b' : simBrokerWorker) :
  namedOrder e = Some id ->
  addBrokerEvent e b = Ok (tt, b') ->
  appendsFor [id] b b' [e].
Proof.
  intros Hname Hrun.
  destruct (addBrokerEvent_frame e b b' Hrun) as (Hs & Hg & He & _).
  split; [done|]. split; [done|]. split; [done|].
  split; [constructor; [|constructor]; exists id; split; [by left | done]|].
  assert (Hne : forall k, k ∉ [id] -> id <> k).
  { intros k Hk ->. apply Hk. by left. }
  unfold addBrokerEvent in Hrun.
  destruct e; try discriminate Hname; injection Hname as ->;
    destruct (orders b !! id) as [ord|] eqn:Hl; try discriminate Hrun.
  1,2,3,4: injection Hrun as <-; simpl; split;
    [ intros k Hk; by rewrite lookup_insert_ne by by apply Hne
    | intros k o' Hk; destruct (decide (id = k)) as [<-|Hneq];
      [ rewrite lookup_insert_eq in Hk; injection Hk as <-; by exists ord
      | rewrite lookup_insert_ne in Hk by done; by exists o' ] ].
  destruct (Qty =? _); [|destruct (_ <? Qty); [discriminate|]];
    injection Hrun as <-; simpl; split;
    [ intros k Hk; by rewrite lookup_insert_ne by by apply Hne
    | intros k o' Hk; destruct (decide (id = k)) as [<-|Hneq];
      [ rewrite lookup_insert_eq in Hk; injection Hk as <-; by exists ord
      | rewrite lookup_insert_ne in Hk by done; by exists o' ]
    | intros k Hk; by rewrite lookup_insert_ne by by apply Hne
    | intros k o' Hk; destruct (decide (id = k)) as [<-|Hneq];
      [ rewrite lookup_insert_eq in Hk; injection Hk as <-; by exists ord
      | rewrite lookup_insert_ne in Hk by done; by exists o' ] ].
Qed.

Lemma cancelByTif_cases (o : simBrokerOrder) (t : Time) (b b' : simBrokerWorker) (c : bool) :
  cancelByTif o t b = Ok (c, b') ->
  exists exp,
    getExpirationTime o = Ok exp /\ c = After t exp
    /\ if c then
         addBrokerEvent
           (OrderCancelEvent (be exp (Order_Ticker (sbo_Order o))) (Order_Id (sbo_Order o))) b
         = Ok (tt, b')
       else b' = b.
Proof.
  unfold cancelByTif, isExpired.
  destruct (getExpirationTime o) as [exp|msg]; [|discriminate].
  intros Hrun. exists exp. split; [done|].
  destruct (After t exp).
  - unfold bind, ret in Hrun.
    destruct (addBrokerEvent _ b) as [[[] b1]|] eqn:Hadd; [|discriminate].
    by injection Hrun as <- <-.
  - by injection Hrun as <- <-.
Qed.

Section Visit.
Context {A : Type} (o : simBrokerOrder) (evs : A -> list event) (m : W A).
Hypothesis m_matcher : matcherOf o evs m.

Lemma match_appends (gen gen' : list event) (b b' : simBrokerWorker) :
  (e <- m ;; ret (gen ++ evs e)) b = Ok (gen', b') ->
  exists newgen extra,
    gen' = gen ++ newgen /\ allNamed (Order_Id (sbo_Order o)) newgen
    /\ appendsFor [Order_Id (sbo_Order o)] b b' extra.
Proof.
  unfold bind, ret. destruct (m b) as [[r b1]|] eqn:Hm; [|discriminate].
  intros [= <- <-]. destruct (m_matcher _ _ _ Hm) as [Honly Hnamed].
  exists (evs r), []. split; [done|]. split; [done|]. by apply appendsFor_onlyErrors.
Qed.

Lemma tif_then_match_appends (t : Time) (gen gen' : list event) (b b' : simBrokerWorker) :
  (cancel <- cancelByTif o t ;;
   if cancel : bool then ret gen else e <- m ;; ret (gen ++ evs e)) b = Ok (gen', b') ->
  exists newgen extra,
    gen' = gen ++ newgen /\ allNamed (Order_Id (sbo_Order o)) newgen
    /\ appendsFor [Order_Id (sbo_Order o)] b b' extra.
Proof.
  unfold bind at 1. destruct (cancelByTif o t b) as [[c b1]|] eqn:Htif; [|discriminate].
  destruct (cancelByTif_cases _ _ _ _ _ Htif) as (exp & _ & _ & Hc).
  destruct c.
  - intros [= <- <-]. exists []. eexists. rewrite app_nil_r. split; [done|].
    split; [constructor|].
    eapply addBrokerEvent_appends; [|exact Hc]. reflexivity.
  - subst b1. apply match_appends.
Qed.

End Visit.

Section Ranging.
Context `{MarketDataOps}.

Lemma visitOrder_appends (md : event) (k : string) (gen gen' : list event)
    (b b' : simBrokerWorker) :
  visitOrder md k gen b = Ok (gen', b') ->
  exists newgen extra,
    let id := match orders b !! k with
              | Some o => Order_Id (sbo_Order o)
              | None => k
              end in
    gen' = gen ++ newgen /\ allNamed id newgen /\ appendsFor [id] b b' extra.
Proof.
  assert (Hskip : forall id, ret gen b = Ok (gen', b') ->
            exists newgen extra,
              gen' = gen ++ newgen /\ allNamed id newgen /\ appendsFor [id] b b' extra).
  { intros id [= <- <-]. exists [], []. rewrite app_nil_r.
    split; [done|]. split; [constructor|].
    apply appendsFor_onlyErrors, onlyErrors_refl. }
  unfold visitOrder, bind at 1, get.
  destruct (orders b !! k) as [o|] eqn:Hl; [|by apply Hskip].
  cbv zeta.
  destruct md; try discriminate.
  - destruct (_ && _); [|by apply Hskip].
    destruct (Before _ _); [|by apply Hskip].
    intros Hrun.
    apply (tif_then_match_appends o id (findExecutionsOnTick o tick)
             (findExecutionsOnTick_matcher o tick) _ _ _ _ _ Hrun).
  - destruct (_ && _); [|by apply Hskip].
    destruct (Before _ _).
    + intros Hrun.
      apply (tif_then_match_appends o convertToList _
               (findExecutionsOnCandleOpen_matcher o b0 TimeFrame CandleTime Price)
               _ _ _ _ _ Hrun).
    + destruct (Order_Type (sbo_Order o)); try by apply Hskip.
      all: destruct (negb _); [|by apply Hskip].
      all: intros Hrun.
      all: apply (match_appends o convertToList _
               (findExecutionsOnCandleOpen_matcher o b0 TimeFrame CandleTime Price)
               _ _ _ _ Hrun).
  - destruct (_ && _); [|by apply Hskip].
    destruct (Before _ _); [|by apply Hskip].
    intros Hrun.
    apply (tif_then_match_appends o convertToList _
             (findExecutionsOnCandleClose_matcher o b0 TimeFrame candle) _ _ _ _ _ Hrun).
Qed.

Lemma rangeOrders_appends (md : event) (keys : list string) :
  forall (gen gen' : list event) (b b' : simBrokerWorker),
  rangeOrders md keys gen b = Ok (gen', b') ->
  exists ids newgen extra,
    gen' = gen ++ newgen /\ namedWithin ids newgen /\ appendsFor ids b b' extra
    /\ (ownIds (orders b) -> forall id, id ∈ ids -> id ∈ keys).
Proof.
  induction keys as [|k keys IH]; intros gen gen' b b' Hrun.
  - injection Hrun as <- <-. exists [], [], []. rewrite app_nil_r.
    split; [done|]. split; [constructor|].
    split; [apply appendsFor_onlyErrors, onlyErrors_refl | done].
  - simpl in Hrun. unfold bind in Hrun.
    destruct (visitOrder md k gen b) as [[gen1 b1]|] eqn:Hvisit; [|discriminate].
    destruct (visitOrder_appends _ _ _ _ _ _ Hvisit) as (new1 & extra1 & -> & Hn1 & Ha1).
    set (id := match orders b !! k with
               | Some o => Order_Id (sbo_Order o)
               | None => k
               end) in *.
    destruct (IH _ _ _ _ Hrun) as (ids & new2 & extra2 & -> & Hn2 & Ha2 & Hids).
    exists ([id] ++ ids), (new1 ++ new2), (extra1 ++ extra2).
    split; [by rewrite app_assoc|].
    split.
    { apply Forall_app. split.
      - eapply namedWithin_mono; [|by apply allNamed_within].
        intros x Hx. apply elem_of_app. by left.
      - eapply namedWithin_mono; [|exact Hn2]. intros x Hx. apply elem_of_app. by right. }
    split; [by eapply appendsFor_trans|].
    intros Hown x Hx. apply elem_of_app in Hx as [Hx|Hx].
    + apply list_elem_of_singleton in Hx as ->. subst id.
      destruct (orders b !! k) as [o|] eqn:Hl; [rewrite (Hown k o Hl)|]; by left.
    + right. by apply (Hids (appendsFor_ownIds _ _ _ _ Ha1 Hown)).
Qed.

End Ranging.

Lemma appendsFor_mono (ids ids' : list string) (b b' : simBrokerWorker) (extra : list event) :
  (forall id, id ∈ ids -> id ∈ ids') -> appendsFor ids b b' extra -> appendsFor ids' b b' extra.
Proof.
  intros Hsub (Hs & He & Hg & Hn & Ho & Hk).
  split; [done|]. split; [done|]. split; [done|].
  split; [by eapply namedWithin_mono|]. split; [|done].
  intros k Hnot. apply Ho. intros Hin. by apply Hnot, Hsub.
Qed.

Lemma forEach_addBrokerEvent_appends (ids : list string) (l : list event) :
  namedWithin ids l ->
  forall b b', forEach l addBrokerEvent b = Ok (tt, b') -> appendsFor ids b b' l.
Proof.
  induction 1 as [|e l (id & Hid & He) _ IH]; intros b b' Hrun.
  - injection Hrun as <-. apply appendsFor_onlyErrors, onlyErrors_refl.
  - simpl in Hrun. unfold bind in Hrun.
    destruct (addBrokerEvent e b) as [[[] b1]|] eqn:Hadd; [|discriminate].
    apply (appendsFor_mono ([id] ++ ids)).
    { intros x Hx. apply elem_of_app in Hx as [Hx|Hx]; [|done].
      by apply list_elem_of_singleton in Hx as ->. }
    change (e :: l) with ([e] ++ l).
    eapply appendsFor_trans; [by eapply addBrokerEvent_appends | by apply IH].
Qed.

(** ** Release of buffered events *)

Lemma splitByTime_filter (t : Time) (l : list event) :
  forall eventsToSend eventsLeft,
  splitByTime t l eventsToSend eventsLeft
  = (eventsToSend ++ List.filter (fun e => negb (After (getTime e) t)) l,
     eventsLeft ++ List.filter (fun e => After (getTime e) t) l).
Proof.
  induction l as [|e l IH]; intros s lft; simpl.
  - by rewrite !app_nil_r.
  - destruct (After (getTime e) t); simpl; rewrite IH; by rewrite <- app_assoc.
Qed.

Lemma sortedBy_filter {A : Type} (key : A -> Z) (p : A -> bool) (l : list A) :
  sortedBy key l -> sortedBy key (List.filter p l).
Proof.
  induction 1 as [|x l Hs IH Hall]; simpl; [constructor|].
  destruct (p x); [|done]. constructor; [done|].
  rewrite Forall_forall in Hall. apply Forall_forall. intros y Hy.
  apply Hall. apply list_elem_of_In. apply list_elem_of_In in Hy.
  by apply List.filter_In in Hy as [Hy _].
Qed.

Lemma filter_filter_both {A : Type} (p q : A -> bool) (l : list A) :
  List.filter p (List.filter q l) = List.filter (fun x => p x && q x) l.
Proof.
  induction l as [|x l IH]; [done|]. simpl.
  destruct (q x); simpl; rewrite ?andb_true_r, ?andb_false_r;
    [destruct (p x); by rewrite IH | done].
Qed.

Lemma filter_filter_swap {A : Type} (p q : A -> bool) (l : list A) :
  List.filter p (List.filter q l) = List.filter q (List.filter p l).
Proof.
  rewrite !filter_filter_both. apply List.filter_ext. intros x. apply andb_comm.
Qed.

(** Sorting the buffer by second and splitting it at the time of [md]. *)
Lemma release_split (md : event) (l : list event) :
  let sorted := eventArray_sort l in
  let batch := List.filter (fun e => negb (After (getTime e) (getTime md))) sorted in
  let left := List.filter (fun e => After (getTime e) (getTime md)) sorted in
  batch ++ left ≡ₚ l
  /\ Forall (fun e => unixNano (getTime e) <= unixNano (getTime md)) batch
  /\ Forall (fun e => unixNano (getTime md) < unixNano (getTime e)) left
  /\ (md ∈ l -> md ∈ batch)
  /\ sortedBy eventKey batch
  /\ (forall k,
        List.filter (fun e => eventKey e =? k) batch
        = List.filter (fun e => eventKey e =? k)
            (List.filter (fun e => negb (After (getTime e) (getTime md))) l)).
Proof.
  assert (Hmd : After (getTime md) (getTime md) = false).
  { unfold After. apply Z.ltb_irrefl. }
  intros sorted batch left. split; [|split; [|split; [|split; [|split]]]].
  - rewrite <- (SliceStable_perm eventKey l). fold (eventArray_sort l). fold sorted.
    subst batch left. clear. induction sorted as [|e s IH]; [done|]. simpl.
    destruct (After (getTime e) (getTime md)); simpl; [|by rewrite IH].
    by rewrite <- Permutation_middle, IH.
  - apply Forall_forall. intros e He. apply list_elem_of_In, List.filter_In in He as [_ He].
    apply negb_true_iff, not_After_le in He. exact He.
  - apply Forall_forall. intros e He. apply list_elem_of_In, List.filter_In in He as [_ He].
    by apply After_lt in He.
  - intros Hin. apply list_elem_of_In, List.filter_In. split; [|by rewrite Hmd].
    apply list_elem_of_In. subst sorted. unfold eventArray_sort.
    by rewrite SliceStable_perm.
  - apply sortedBy_filter, SliceStable_sorted.
  - intros k. subst batch sorted. unfold eventArray_sort.
    rewrite filter_filter_swap, SliceStable_stable. apply filter_filter_swap.
Qed.

Section Release.
Context `{MarketDataOps}.


End Release.




(** ** Expiry of Day orders *)

Lemma Day_pos : 0 < Day.
Proof. reflexivity. Qed.

Lemma dayNumber_AddDate_day (t : Time) : dayNumber (AddDate t 0 1) = dayNumber t + 1.
Proof.
  unfold AddDate, dayNumber, wallNano, nanoOfDay, wallNano. simpl.
  set (w := unixNano t + zoneOffset t * Second).
  pose proof Day_pos as Hpos.
  pose proof (Z.mod_pos_bound w Day Hpos) as Hmod.
  replace ((w / Day + 1) * Day + w mod Day - zoneOffset t * Second + zoneOffset t * Second)
    with ((w / Day + 1) * Day + w mod Day) by lia.
  rewrite Z.div_add_l by lia. rewrite (Z.div_small (w mod Day) Day) by lia. lia.
Qed.

(** The expiry of a Day order is the start of the next calendar day in the
    zone of its submission time: a midnight, after the submission and at
    most a day after it. *)
Lemma getExpirationTime_day (o : simBrokerOrder) :
  Order_Tif (sbo_Order o) = DayTIF ->
  let t := Order_Time (sbo_Order o) in
  getExpirationTime o = Ok (nextMidnight t)
  /\ nanoOfDay (nextMidnight t) = 0
  /\ dayNumber (nextMidnight t) = dayNumber t + 1
  /\ unixNano t < unixNano (nextMidnight t) <= unixNano t + Day.
Proof.
  intros Htif t. unfold getExpirationTime. rewrite Htif. fold t.
  rewrite dayNumber_AddDate_day.
  split; [reflexivity|].
  pose proof Day_pos as Hpos.
  assert (Hwall : wallNano (nextMidnight t) = (dayNumber t + 1) * Day).
  { unfold nextMidnight, DateOnDay, wallNano. simpl. lia. }
  unfold nanoOfDay, dayNumber at 1. rewrite Hwall.
  split; [by rewrite Z.mod_mul by lia|].
  split; [by rewrite Z.div_mul by lia|].
  unfold nextMidnight, DateOnDay, dayNumber, wallNano. simpl.
  pose proof (Z.mod_pos_bound (unixNano t + zoneOffset t * Second) Day Hpos) as Hmod.
  pose proof (Z.div_mod (unixNano t + zoneOffset t * Second) Day) as Hdm.
  lia.
Qed.

Section Expiry.
Context `{MarketDataOps}.

Lemma rangeOrders_app (md : event) (l1 l2 : list string) :
  forall (gen : list event) (b : simBrokerWorker),
  rangeOrders md (l1 ++ l2) gen b
  = match rangeOrders md l1 gen b with
    | Ok (gen1, b1) => rangeOrders md l2 gen1 b1
    | Panic msg => Panic msg
    end.
Proof.
  induction l1 as [|k l1 IH]; intros gen b; [reflexivity|].
  simpl. unfold bind. destruct (visitOrder md k gen b) as [[gen1 b1]|]; [apply IH | done].
Qed.

(** The visit of an expired order: it is cancelled at its expiry and no
    matcher is run for it. *)
Lemma visitOrder_expired (md : event) (k : string) (o : simBrokerOrder) (exp : Time)
    (gen : list event) (b : simBrokerWorker) :
  isMarketData md = true ->
  orders b !! k = Some o ->
  Order_Id (sbo_Order o) = k ->
  simBrokerOrder_isActive o = true ->
  concerns md o = true ->
  Before (StateUpdTime o) (guardClock md) = true ->
  getExpirationTime o = Ok exp ->
  After (tifClock md) exp = true ->
  visitOrder md k gen b
  = Ok (gen,
        set_generatedEvents (fun l => l ++ [expiryCancel o exp])
          (set_orders <[k := with_state CanceledOrder exp o]> b)).
Proof.
  intros Hmd Hl Hid Hact Hcon Hguard Hexp Hafter.
  assert (Hcancel : cancelByTif o (tifClock md) b
            = Ok (true, set_generatedEvents (fun l => l ++ [expiryCancel o exp])
                          (set_orders <[k := with_state CanceledOrder exp o]> b))).
  { unfold cancelByTif, isExpired. rewrite Hexp, Hafter.
    unfold bind, addBrokerEvent, expiryCancel. rewrite Hid, Hl. reflexivity. }
  unfold visitOrder, bind at 1, get. rewrite Hl.
  destruct md; try discriminate Hmd; simpl in Hcon, Hguard, Hafter, Hcancel;
    rewrite Hact, Hcon; simpl; rewrite Hguard; unfold bind; by rewrite Hcancel.
Qed.

Lemma ownIds_cancelled (m : gmap string simBrokerOrder) (k : string) (o : simBrokerOrder)
    (exp : Time) :
  ownIds m -> Order_Id (sbo_Order o) = k ->
  ownIds (<[k := with_state CanceledOrder exp o]> m).
Proof.
  intros Hown Hid k' o' Hl. destruct (decide (k = k')) as [<-|Hne].
  - rewrite lookup_insert_eq in Hl. by injection Hl as <-.
  - rewrite lookup_insert_ne in Hl by done. by apply Hown.
Qed.

Lemma namedWithin_not (ids : list string) (k : string) (l : list event) (e : event) :
  namedWithin ids l -> k ∉ ids -> e ∈ l -> namedOrder e <> Some k.
Proof.
  intros Hn Hk He Hname. unfold namedWithin in Hn. rewrite Forall_forall in Hn.
  destruct (Hn e He) as (id & Hid & Hnamed). rewrite Hname in Hnamed.
  injection Hnamed as ->. by apply Hk.
Qed.

(** C5, as the code has it.  A Day order expires at the midnight that
    follows its submission time, in the zone of that time.  Take a
    market-data arrival at which the order is active, the worker's loop
    concerns it, its last state update precedes the arrival and the
    arrival is past that midnight (orders being stored under their own
    ids, as [onNewOrder] stores them, and the map iteration visiting each
    id once).  If the arrival ends without a panic, the worker has marked
    the order Canceled and generated one cancel event stamped exactly at
    that midnight; it has generated no other event for the order on that
    arrival (no matcher is run for it); and the cancel event is in the
    batch sent on the arrival when the market-data event is not stamped
    before the midnight. *)
Theorem day_order_expires (mapOrder : gmap string simBrokerOrder -> list string)
    (md : event) (b b' : simBrokerWorker) (k : string) (o : simBrokerOrder) :
  ownIds (orders b) ->
  orders b !! k = Some o ->
  Order_Tif (sbo_Order o) = DayTIF ->
  simBrokerOrder_isActive o = true ->
  concerns md o = true ->
  Before (StateUpdTime o) (guardClock md) = true ->
  After (tifClock md) (nextMidnight (Order_Time (sbo_Order o))) = true ->
  NoDup (mapOrder (orders b)) ->
  k ∈ mapOrder (orders b) ->
  findExecutions mapOrder md b = Ok (tt, b') ->
  let exp := nextMidnight (Order_Time (sbo_Order o)) in
  getExpirationTime o = Ok exp
  /\ orders b' !! k = Some (with_state CanceledOrder exp o)
  /\ exists batch new : list event,
       events b' = events b ++ batch
       /\ batch ++ generatedEvents b' ≡ₚ generatedEvents b ++ md :: new
       /\ expiryCancel o exp ∈ new
       /\ (forall e, e ∈ new -> namedOrder e = Some k -> e = expiryCancel o exp)
       /\ (unixNano exp <= unixNano (getTime md) -> expiryCancel o exp ∈ batch).
Proof.
  intros Hown Hl Htif Hact Hcon Hguard Hafter Hnd Hin Hrun exp.
  destruct (getExpirationTime_day o Htif) as (Hexp & _). fold exp in Hexp.
  split; [exact Hexp|].
  assert (Hid : Order_Id (sbo_Order o) = k) by by apply Hown.
  assert (Hmd : isMarketData md = true).
  { destruct md; try discriminate Hcon; reflexivity. }
  unfold findExecutions, bind at 1, get in Hrun.
  assert (Hsize : (size (orders b) =? 0)%nat = false).
  { apply Nat.eqb_neq. intros Hz. apply map_size_empty_inv in Hz.
    rewrite Hz, lookup_empty in Hl. discriminate. }
  rewrite Hsize, Hmd in Hrun. simpl in Hrun. unfold bind, modify in Hrun.
  set (b0 := set_generatedEvents (fun l => l ++ [md]) b) in Hrun.
  apply list_elem_of_split in Hin as (pre & post & Hkeys). rewrite Hkeys in Hrun, Hnd.
  apply NoDup_app in Hnd as (_ & Hpre & Hpost). apply NoDup_cons in Hpost as [Hpost _].
  assert (Hkpre : k ∉ pre). { intros Hk. apply (Hpre k Hk). by left. }
  rewrite rangeOrders_app in Hrun.
  destruct (rangeOrders md pre [] b0) as [[g1 b1]|] eqn:Hr1; [|discriminate].
  destruct (rangeOrders_appends _ _ _ _ _ _ Hr1)
    as (ids1 & new1 & extra1 & Hg1 & Hn1 & Ha1 & Hids1).
  simpl in Hg1. subst g1.
  specialize (Hids1 Hown).
  assert (Hk1 : k ∉ ids1) by (intros Hk; by apply Hkpre, Hids1).
  pose proof (appendsFor_ownIds _ _ _ _ Ha1 Hown) as Hown1.
  destruct Ha1 as (_ & Hev1 & Hge1 & Hne1 & Hor1 & _).
  assert (Hl1 : orders b1 !! k = Some o) by (rewrite Hor1; done).
  simpl in Hrun. unfold bind in Hrun.
  rewrite (visitOrder_expired md k o exp new1 b1 Hmd Hl1 Hid Hact Hcon Hguard Hexp Hafter)
    in Hrun.
  set (b2 := set_generatedEvents (fun l => l ++ [expiryCancel o exp])
               (set_orders <[k := with_state CanceledOrder exp o]> b1)) in Hrun.
  destruct (rangeOrders md post new1 b2) as [[gen b3]|] eqn:Hr2; [|discriminate].
  destruct (rangeOrders_appends _ _ _ _ _ _ Hr2)
    as (ids2 & new2 & extra2 & Hg2 & Hn2 & Ha2 & Hids2).
  subst gen.
  assert (Hown2 : ownIds (orders b2)) by (by apply ownIds_cancelled).
  specialize (Hids2 Hown2).
  assert (Hk2 : k ∉ ids2) by (intros Hk; by apply Hpost, Hids2).
  destruct Ha2 as (_ & Hev2 & Hge2 & Hne2 & Hor2 & _).
  destruct (forEach (new1 ++ new2) addBrokerEvent b3) as [[[] b4]|] eqn:Hfor; [|discriminate].
  assert (Hn12 : namedWithin (ids1 ++ ids2) (new1 ++ new2)).
  { apply Forall_app. split; (eapply namedWithin_mono; [|eassumption]);
      intros x Hx; apply elem_of_app; auto. }
  assert (Hk12 : k ∉ ids1 ++ ids2).
  { intros Hk. apply elem_of_app in Hk as [Hk|Hk]; auto. }
  destruct (forEach_addBrokerEvent_appends _ _ Hn12 _ _ Hfor) as (_ & Hev3 & Hge3 & _ & Hor3 & _).
  unfold releaseEvents, modify in Hrun. rewrite splitByTime_filter in Hrun. simpl in Hrun.
  injection Hrun as <-. simpl.
  split.
  { rewrite Hor3, Hor2 by done. subst b2. simpl. apply lookup_insert_eq. }
  set (new := extra1 ++ [expiryCancel o exp] ++ extra2 ++ new1 ++ new2).
  assert (Hall : generatedEvents b4 = generatedEvents b ++ md :: new).
  { rewrite Hge3, Hge2. subst b2. simpl. rewrite Hge1. subst b0 new. simpl.
    rewrite <- !app_assoc. reflexivity. }
  destruct (release_split md (generatedEvents b4)) as (Hperm & _).
  exists (List.filter (fun e => negb (After (getTime e) (getTime md)))
            (eventArray_sort (generatedEvents b4))), new.
  split; [by rewrite Hev3, Hev2; subst b2; simpl; rewrite Hev1|].
  split; [by rewrite <- Hall|].
  assert (Hcin : expiryCancel o exp ∈ new).
  { subst new. apply elem_of_app. right. by left. }
  split; [exact Hcin|]. split.
  - intros e He Hname. subst new.
    apply elem_of_app in He as [He|He];
      [exfalso; by eapply (namedWithin_not ids1 k extra1)|].
    apply elem_of_cons in He as [He|He]; [done|].
    apply elem_of_app in He as [He|He];
      [exfalso; by eapply (namedWithin_not ids2 k extra2)|].
    exfalso. by eapply (namedWithin_not (ids1 ++ ids2) k (new1 ++ new2)).
  - intros Hle. apply list_elem_of_In, List.filter_In. split.
    + apply list_elem_of_In. unfold eventArray_sort. rewrite SliceStable_perm, Hall.
      apply elem_of_app. right. by right.
    + apply negb_true_iff, not_After_le. exact Hle.
Qed.

End Expiry.

Lemma day_order_expires_witness :
  getExpirationTime dayOrderConfirmed = Ok jan16_0000
  /\ orders dayWorkerNextMorning !! "d1"
     = Some (with_state CanceledOrder jan16_0000 dayOrderConfirmed).
Proof.
  assert (Hmap : orders dayWorker = {["d1" := dayOrderConfirmed]}) by (vm_compute; reflexivity).
  destruct (@day_order_expires specOps listOrder nextMorningTick dayWorker
              dayWorkerNextMorning "d1" dayOrderConfirmed)
    as (Hexp & Hstate & _).
  - intros k o. rewrite Hmap. intros Hl.
    apply lookup_singleton_Some in Hl as [<- <-]. reflexivity.
  - vm_compute. reflexivity.
  - reflexivity.
  - reflexivity.
  - reflexivity.
  - vm_compute. reflexivity.
  - vm_compute. reflexivity.
  - replace (listOrder (orders dayWorker)) with ["d1"] by (vm_compute; reflexivity).
    apply NoDup_singleton.
  - replace (listOrder (orders dayWorker)) with ["d1"] by (vm_compute; reflexivity).
    by left.
  - vm_compute. reflexivity.
  - split; [exact Hexp | exact Hstate].
Defined.

(** C5, as stated, fails.  The Day order "d1" of 23:59:59.2 is active in
    the worker, confirmed as of 00:00:00.2.  The first tick after midnight,
    at 00:00:00.1, is past the expiry, but the order's last state update
    does not precede it: the loop skips the order and no cancel event is
    sent or buffered.  The cancel event, stamped midnight, is generated on
    the later tick, and sent after the tick of 00:00:00.1. *)
Lemma expiry_waits_for_state_update :
  orders lateWorker !! "d1" = Some lateOrderConfirmed
  /\ ~ @cancelsExpiredDayOrder specOps listOrder firstTickOfDay lateWorker "d1"
  /\ timesOf (events (lateWorkerAfter [firstTickOfDay]))
     = [86399800000000; 86400100000000]
  /\ timesOf (events (lateWorkerAfter [firstTickOfDay; laterTick]))
     = [86399800000000; 86400100000000;
        86400200000000; 86400000000000; 86401000000000].
Proof.
  split; [vm_compute; reflexivity|]. split; [|split; vm_compute; reflexivity].
  intros Hclaim.
  specialize (Hclaim lateOrderConfirmed (lateWorkerAfter [firstTickOfDay])).
  assert (Hin : expiryCancel lateOrderConfirmed (nextMidnight (Order_Time lateOrder))
                ∈ events (lateWorkerAfter [firstTickOfDay])
                  ++ generatedEvents (lateWorkerAfter [firstTickOfDay])).
  { apply Hclaim; vm_compute; reflexivity. }
  apply list_elem_of_In in Hin. vm_compute in Hin.
  repeat (destruct Hin as [Hin|Hin]; [discriminate Hin|]). exact Hin.
Qed.

(** ** Invariants of the worker *)

Lemma wrap64_mod (z : Z) : wrap64 z mod 2 ^ 64 = z mod 2 ^ 64.
Proof.
  unfold wrap64. rewrite Zminus_mod_idemp_l. f_equal. lia.
Qed.

Lemma wrap64_mod_eq (a b : Z) : a mod 2 ^ 64 = b mod 2 ^ 64 -> wrap64 a = wrap64 b.
Proof.
  intros Hab. unfold wrap64. f_equal.
  rewrite (Zplus_mod a), (Zplus_mod b), Hab. reflexivity.
Qed.

(** After a fill for the whole leaves quantity nothing is left, whatever
    the 64-bit wrap-around does. *)
Lemma full_fill_leaves (qty exec : Z) : sub64 qty (add64 exec (sub64 qty exec)) = 0.
Proof.
  unfold sub64, add64.
  change 0 with (wrap64 0). apply wrap64_mod_eq.
  rewrite Zminus_mod, wrap64_mod, Zplus_mod, wrap64_mod, <- Zplus_mod.
  replace (exec + (qty - exec)) with qty by lia.
  rewrite Z.sub_diag. reflexivity.
Qed.

Lemma wellFormed_same (b b' : simBrokerWorker) :
  orders b' = orders b -> requestEvents b' = requestEvents b ->
  wellFormed b -> wellFormed b'.
Proof. unfold wellFormed. by intros -> ->. Qed.

Lemma wellFormed_put (b b' : simBrokerWorker) (id : string) (ord' : simBrokerOrder) :
  wellFormed b ->
  requestEvents b' = requestEvents b ->
  orders b' = <[id := ord']> (orders b) ->
  Order_Id (sbo_Order ord') = id ->
  BrokerState ord' <> NewOrder ->
  (BrokerState ord' = FilledOrder -> lvsQty ord' = 0) ->
  wellFormed b'.
Proof.
  intros (Hown & Hnew & Hfill & Hreq) Hr Ho Hid Hst Hlv.
  unfold wellFormed. rewrite Hr, Ho.
  split; [|split; [|split; [|done]]]; intros k o Hl;
    apply lookup_insert_Some in Hl as [[<- <-]|[Hne Hl]]; eauto.
Qed.

Lemma addBrokerEvent_keeps (e : event) : keeps wellFormed (addBrokerEvent e).
Proof.
  intros b [] b' Hwf Hrun.
  pose proof Hwf as (Hown & Hnew & Hfill & Hreq).
  unfold addBrokerEvent in Hrun.
  destruct e; try (injection Hrun as <-; by apply (wellFormed_same b));
    destruct (orders b !! OrdId) as [ord|] eqn:Hl; try discriminate Hrun.
  - (* confirmation *)
    injection Hrun as <-.
    eapply (wellFormed_put b _ OrdId); [done | reflexivity | reflexivity | | | ]; simpl;
      [by eapply Hown | discriminate | discriminate].
  - (* rejection *)
    injection Hrun as <-.
    eapply (wellFormed_put b _ OrdId); [done | reflexivity | reflexivity | | | ]; simpl;
      [by eapply Hown | | ].
    + destruct (BrokerState ord); simpl; discriminate.
    + destruct (BrokerState ord); simpl; discriminate.
  - (* cancel *)
    injection Hrun as <-.
    eapply (wellFormed_put b _ OrdId); [done | reflexivity | reflexivity | | | ]; simpl;
      [by eapply Hown | discriminate | discriminate].
  - (* replaced *)
    injection Hrun as <-.
    eapply (wellFormed_put b _ OrdId); [done | reflexivity | reflexivity | | | ]; simpl;
      [by eapply Hown | by eapply Hnew | ].
    intros Hst. by apply (Hfill OrdId ord).
  - (* fill *)
    destruct (Qty =? _) eqn:Hq.
    + apply Z.eqb_eq in Hq. injection Hrun as <-.
      eapply (wellFormed_put b _ OrdId); [done | reflexivity | reflexivity | | | ]; simpl;
        [by eapply Hown | discriminate | ].
      intros _. unfold lvsQty. simpl. rewrite Hq. apply full_fill_leaves.
    + destruct (_ <? Qty); [discriminate|]. injection Hrun as <-.
      eapply (wellFormed_put b _ OrdId); [done | reflexivity | reflexivity | | | ]; simpl;
        [by eapply Hown | discriminate | discriminate].
Qed.

Lemma keeps_bind {A B : Type} (I : simBrokerWorker -> Prop) (m : W A) (f : A -> W B) :
  keeps I m -> (forall a, keeps I (f a)) -> keeps I (x <- m ;; f x).
Proof.
  intros Hm Hf b r b' Hb Hrun. unfold bind in Hrun.
  destruct (m b) as [[a b1]|] eqn:Hmb; [|discriminate].
  eapply Hf; [|exact Hrun]. by eapply Hm.
Qed.

Lemma keeps_get {A : Type} (I : simBrokerWorker -> Prop) (f : simBrokerWorker -> W A) :
  (forall b, keeps I (f b)) -> keeps I (b <- get ;; f b).
Proof. intros Hf b r b' Hb Hrun. unfold bind, get in Hrun. by eapply Hf. Qed.

Lemma keeps_modify (I : simBrokerWorker -> Prop) (g : simBrokerWorker -> simBrokerWorker) :
  (forall b, I b -> I (g b)) -> keeps I (modify g).
Proof. intros Hg b r b' Hb [= _ <-]. by apply Hg. Qed.

Lemma keeps_panic {A : Type} (I : simBrokerWorker -> Prop) (msg : string) :
  keeps I (panic msg : W A).
Proof. intros b r b' _ Hrun. discriminate Hrun. Qed.

Lemma keeps_forEach {A : Type} (I : simBrokerWorker -> Prop) (body : A -> W unit)
    (l : list A) :
  (forall a, keeps I (body a)) -> keeps I (forEach l body).
Proof.
  intros Hbody. induction l as [|a l IH].
  - intros b r b' Hb [= _ <-]. exact Hb.
  - simpl. apply keeps_bind; [apply Hbody | intros _; exact IH].
Qed.

Lemma onlyErrors_wellFormed (b b' : simBrokerWorker) :
  onlyErrors b b' -> wellFormed b -> wellFormed b'.
Proof.
  intros ((_ & _ & _ & Hr & _) & _ & Ho & _). by apply wellFormed_same.
Qed.

Lemma matcherOf_keeps {A : Type} (o : simBrokerOrder) (evs : A -> list event) (m : W A) :
  matcherOf o evs m -> keeps wellFormed m.
Proof.
  intros Hm b r b' Hb Hrun. destruct (Hm _ _ _ Hrun) as [Honly _].
  by eapply onlyErrors_wellFormed.
Qed.

Section KeepsWellFormed.
Context `{MarketDataOps}.

Lemma handleRequest_keeps (e : event) : keeps wellFormed (handleRequest e).
Proof.
  intros b [] b' Hwf Hrun.
  destruct e; try discriminate Hrun; simpl in Hrun.
  - unfold onNewOrder, bind, get, modify in Hrun.
    destruct (Order_isValid LinkedOrder); simpl in Hrun.
    + destruct (orders b !! Order_Id LinkedOrder) as [old|] eqn:Hl.
      * by eapply addBrokerEvent_keeps.
      * unfold addBrokerEvent in Hrun. simpl in Hrun.
        rewrite lookup_insert_eq in Hrun. injection Hrun as <-.
        eapply (wellFormed_put b _ (Order_Id LinkedOrder));
          [done | reflexivity | simpl; apply insert_insert_eq | reflexivity
          | discriminate | discriminate].
    + unfold addBrokerEvent in Hrun. simpl in Hrun.
      rewrite lookup_insert_eq in Hrun. injection Hrun as <-.
      eapply (wellFormed_put b _ (Order_Id LinkedOrder));
        [done | reflexivity | simpl; apply insert_insert_eq | reflexivity
        | discriminate | discriminate].
  - unfold onCancelRequest, bind, get in Hrun.
    destruct (orders b !! OrdId) as [o|]; [destruct (BrokerState o)|];
      by eapply addBrokerEvent_keeps.
  - unfold onReplaceRequest, bind, get in Hrun.
    destruct (orders b !! OrdId) as [o|];
      [destruct (BrokerState o);
       try destruct (PrimFloat.is_nan NewPrice || PrimFloat.eqb NewPrice 0)|];
      by eapply addBrokerEvent_keeps.
Qed.

Lemma proceedLoop_keeps (T : Time) (l : list event) :
  forall (eventsLeft r : list event) (b b' : simBrokerWorker),
  wellFormed b ->
  Forall (fun e => isRequest e = true) l ->
  Forall (fun e => isRequest e = true) eventsLeft ->
  proceedLoop T l eventsLeft b = Ok (r, b') ->
  wellFormed b' /\ Forall (fun e => isRequest e = true) r.
Proof.
  induction l as [|e l IH]; intros eventsLeft r b b' Hwf Hl Hleft Hrun.
  - injection Hrun as <- <-. done.
  - apply Forall_cons in Hl as [He Hl].
    cbn [proceedLoop] in Hrun. unfold bind at 1, get at 1 in Hrun.
    destruct (Before _ T).
    + unfold bind in Hrun.
      destruct (handleRequest e b) as [[[] b1]|] eqn:Hh; [|discriminate].
      eapply (IH eventsLeft r b1); [|done|done|exact Hrun].
      by eapply handleRequest_keeps.
    + eapply (IH (eventsLeft ++ [e]) r b); [done|done| |exact Hrun].
      apply Forall_app. split; [done|]. by constructor.
Qed.

Lemma proceedStoredRequests_keeps (T : Time) :
  keeps wellFormed (proceedStoredRequests T).
Proof.
  intros b [] b' Hwf Hrun.
  unfold proceedStoredRequests, bind at 1, get at 1 in Hrun.
  destruct (requestEvents b) as [|r0 rs] eqn:Hre.
  { by injection Hrun as <-. }
  rewrite <- Hre in Hrun.
  unfold bind, modify in Hrun.
  set (sorted := eventArray_sort (requestEvents b)) in *.
  set (b0 := set_requestEvents (fun _ => sorted) b) in *.
  destruct (proceedLoop T sorted [] b0) as [[left b1]|] eqn:Hloop; [|discriminate].
  injection Hrun as <-.
  destruct Hwf as (Hown & Hnew & Hfill & Hreq).
  assert (Hsorted : Forall (fun e => isRequest e = true) sorted).
  { subst sorted. unfold eventArray_sort. by rewrite SliceStable_perm. }
  destruct (proceedLoop_keeps T sorted [] left b0 b1) as [(Hown1 & Hnew1 & Hfill1 & _) Hleft];
    [by repeat split | done | constructor | done |].
  by repeat split.
Qed.

Lemma cancelByTif_keeps (o : simBrokerOrder) (t : Time) : keeps wellFormed (cancelByTif o t).
Proof.
  intros b c b' Hwf Hrun.
  destruct (cancelByTif_cases _ _ _ _ _ Hrun) as (exp & _ & _ & Hc).
  destruct c; [by eapply addBrokerEvent_keeps | by subst].
Qed.

Lemma keeps_ret {A : Type} (I : simBrokerWorker -> Prop) (a : A) : keeps I (ret a).
Proof. intros b r b' Hb [= _ <-]. exact Hb. Qed.

Lemma tif_then_match_keeps {A : Type} (o : simBrokerOrder) (t : Time) (gen : list event)
    (evs : A -> list event) (m : W A) :
  matcherOf o evs m ->
  keeps wellFormed
    (cancel <- cancelByTif o t ;;
     if cancel : bool then ret gen else e <- m ;; ret (gen ++ evs e)).
Proof.
  intros Hm. apply keeps_bind; [apply cancelByTif_keeps|].
  intros []; [apply keeps_ret|].
  apply keeps_bind; [by eapply matcherOf_keeps | intros; apply keeps_ret].
Qed.

Lemma visitOrder_keeps (md : event) (k : string) (gen : list event) :
  keeps wellFormed (visitOrder md k gen).
Proof.
  intros b r b' Hwf. unfold visitOrder, bind at 1, get.
  destruct (orders b !! k) as [o|]; [|by apply keeps_ret].
  cbv zeta. destruct md; try discriminate.
  - destruct (_ && _); [|by apply keeps_ret].
    destruct (Before _ _); [|by apply keeps_ret].
    apply (tif_then_match_keeps o _ gen id (findExecutionsOnTick o tick)
             (findExecutionsOnTick_matcher o tick)); done.
  - destruct (_ && _); [|by apply keeps_ret].
    destruct (Before _ _).
    + apply (tif_then_match_keeps o _ gen convertToList _
               (findExecutionsOnCandleOpen_matcher o b0 TimeFrame CandleTime Price)); done.
    + destruct (Order_Type (sbo_Order o)); try by apply keeps_ret.
      all: destruct (negb _); [|by apply keeps_ret].
      all: apply keeps_bind;
        [ apply (matcherOf_keeps o convertToList),
            findExecutionsOnCandleOpen_matcher
        | intros; apply keeps_ret
        | done ].
  - destruct (_ && _); [|by apply keeps_ret].
    destruct (Before _ _); [|by apply keeps_ret].
    apply (tif_then_match_keeps o _ gen convertToList _
             (findExecutionsOnCandleClose_matcher o b0 TimeFrame candle)); done.
Qed.

Lemma rangeOrders_keeps (md : event) (keys : list string) :
  forall gen, keeps wellFormed (rangeOrders md keys gen).
Proof.
  induction keys as [|k keys IH]; intros gen; [apply keeps_ret|].
  simpl. apply keeps_bind; [apply visitOrder_keeps | intros gen'; apply IH].
Qed.

Lemma findExecutions_keeps (mapOrder : gmap string simBrokerOrder -> list string)
    (md : event) :
  keeps wellFormed (findExecutions mapOrder md).
Proof.
  unfold findExecutions. apply keeps_get. intros b0.
  destruct (_ && _).
  { apply keeps_modify. intros b Hb. by apply (wellFormed_same b). }
  apply keeps_bind; [apply keeps_modify; intros b Hb; by apply (wellFormed_same b)|].
  intros _. apply keeps_bind.
  { destruct (isMarketData md); [apply rangeOrders_keeps | apply keeps_panic]. }
  intros gen. apply keeps_bind; [apply keeps_forEach, addBrokerEvent_keeps|].
  intros _. unfold releaseEvents. apply keeps_modify. intros b Hb.
  destruct (splitByTime _ _ _ _) as [toSend left]. by apply (wellFormed_same b).
Qed.

Lemma newError_keeps (err : error) : keeps wellFormed (newError err).
Proof.
  intros b [] b' Hb. unfold newError. destruct (errChan b); [|discriminate].
  intros [= <-]. by apply (wellFormed_same b).
Qed.

Lemma notify_keeps (mapOrder : gmap string simBrokerOrder -> list string) (e : event) :
  keeps wellFormed (notify mapOrder e).
Proof.
  assert (Hadd : isRequest e = true -> keeps wellFormed (addRequestEvent e)).
  { intros He. apply keeps_modify. intros b (Hown & Hnew & Hfill & Hreq).
    repeat split; try done. simpl. apply Forall_app. split; [done | by constructor]. }
  assert (Hrest : forall t, keeps wellFormed
            (modify (set_lastCandleTime t) ;;; proceedStoredRequests (getTime e) ;;;
             findExecutions mapOrder e)).
  { intros t. apply keeps_bind; [apply keeps_modify; intros b Hb; by apply (wellFormed_same b)|].
    intros _. apply keeps_bind; [apply proceedStoredRequests_keeps|].
    intros _. apply findExecutions_keeps. }
  destruct e; simpl; try apply keeps_panic; try by apply Hadd.
  - unfold onTick. destruct (negb _); [apply newError_keeps|].
    apply keeps_get. intros b0. destruct (Before _ _); [apply keeps_panic|].
    apply keeps_bind; [apply keeps_modify; intros w Hw; by apply (wellFormed_same w)|].
    intros _. apply keeps_bind; [apply proceedStoredRequests_keeps|].
    intros _. apply findExecutions_keeps.
  - unfold onCandleOpen. apply keeps_get. intros b0.
    destruct (Before _ _); [apply keeps_panic | apply Hrest].
  - unfold onCandleClose. apply keeps_get. intros b0.
    destruct (Before _ _); [apply keeps_panic | apply Hrest].
Qed.

(** X1. The worker's invariant.  A worker with no orders and no buffered
    requests, as [SimBroker.Init] creates it, is well-formed, and every
    notification that returns keeps it so: orders are stored under their
    own ids, no stored order is left in state [NewOrder], a Filled order
    has leaves quantity 0, and the request buffer holds only new-order,
    cancel and replace requests. *)
Theorem notify_keeps_wellFormed :
  (forall b : simBrokerWorker, orders b = ∅ -> requestEvents b = [] -> wellFormed b)
  /\ (forall (mapOrder : gmap string simBrokerOrder -> list string) (e : event)
        (b b' : simBrokerWorker),
        wellFormed b -> notify mapOrder e b = Ok (tt, b') -> wellFormed b').
Proof.
  split.
  - intros b Ho Hr. unfold wellFormed, ownIds. rewrite Ho, Hr.
    repeat split; try (intros k o Hl; by apply lookup_empty_Some in Hl). constructor.
  - intros mapOrder e b b' Hwf Hrun. by eapply notify_keeps.
Qed.

End KeepsWellFormed.

Lemma notify_keeps_wellFormed_witness :
  wellFormed SampleInvariant.afterNextTick
  /\ BrokerState <$> orders SampleInvariant.afterNextTick !! "o1" = Some FilledOrder.
Proof.
  destruct (@notify_keeps_wellFormed specOps) as [Hinit Hstep].
  assert (H0 : wellFormed (newWorker 100 false)) by (apply Hinit; reflexivity).
  assert (H1 : wellFormed SampleInvariant.afterOrder).
  { apply (Hstep listOrder SampleInvariant.sendOrder (newWorker 100 false));
      [exact H0 | vm_compute; reflexivity]. }
  assert (H2 : wellFormed SampleInvariant.afterPartialFill).
  { apply (Hstep listOrder SampleInvariant.firstTick SampleInvariant.afterOrder);
      [exact H1 | vm_compute; reflexivity]. }
  split; [|vm_compute; reflexivity].
  apply (Hstep listOrder SampleInvariant.nextTick SampleInvariant.afterPartialFill);
    [exact H2 | vm_compute; reflexivity].
Defined.

(** ** The order book under requests *)

Section OrderBook.
Context `{MarketDataOps}.

(** X2. What [onNewOrder] does to the order map.  A valid order with an id
    new to the worker is stored as Confirmed as of the answer's time (one
    round trip after the request), with nothing executed and its own price
    as broker price.  A valid order whose id is already known leaves the
    stored order, its executed quantity and its broker price in place: only
    the time of the last state update moves to the answer's time, and the
    state becomes Rejected unless it was Confirmed.  An invalid order
    replaces whatever was stored under its id by a Rejected entry. *)
Theorem onNewOrder_order_book (b : simBrokerWorker) (eb : BaseEvent) (o : Order) :
  let stamp := genTimeRoundTrip b (BaseEvent_Time eb) in
  exists b' : simBrokerWorker,
    onNewOrder eb o b = Ok (tt, b')
    /\ orders b'
       = <[Order_Id o :=
             if Order_isValid o then
               match orders b !! Order_Id o with
               | None => mkSimBrokerOrder o ConfirmedOrder stamp 0 (Order_Price o)
               | Some old =>
                   mkSimBrokerOrder (sbo_Order old)
                     (match BrokerState old with
                      | ConfirmedOrder => ConfirmedOrder
                      | _ => RejectedOrder
                      end)
                     stamp (BrokerExecQty old) (BrokerPrice old)
               end
             else mkSimBrokerOrder o RejectedOrder stamp 0 0%float]> (orders b).
Proof.
  intros stamp. unfold onNewOrder, bind, get, modify.
  destruct (Order_isValid o); simpl.
  - destruct (orders b !! Order_Id o) as [old|] eqn:Hl.
    + unfold addBrokerEvent. rewrite Hl. eexists. split; [reflexivity|]. simpl.
      f_equal. unfold with_state. by destruct (BrokerState old).
    + unfold addBrokerEvent. simpl. rewrite lookup_insert_eq.
      eexists. split; [reflexivity|]. simpl. apply insert_insert_eq.
  - unfold addBrokerEvent. simpl. rewrite lookup_insert_eq.
    eexists. split; [reflexivity|]. simpl. apply insert_insert_eq.
Qed.

End OrderBook.

(** X3. A cancel request never panics and is answered by exactly one
    buffered event, stamped one round trip after the request.  The answer
    is an [OrderCancelEvent] exactly when the order is known and its
    broker state is Confirmed, PartialFilled or Rejected; the order is then
    Canceled as of the answer's time and nothing else changes.  Otherwise
    the answer is an [OrderCancelRejectEvent] and the order map is left as
    it was.  After an accepted cancel, a further cancel request for the
    same id is turned down. *)
Theorem onCancelRequest_outcome (b : simBrokerWorker) (eb : BaseEvent) (id : string) :
  let stamp := genTimeRoundTrip b (BaseEvent_Time eb) in
  exists (b' : simBrokerWorker) (ans : event),
    onCancelRequest eb id b = Ok (tt, b')
    /\ generatedEvents b' = generatedEvents b ++ [ans]
    /\ events b' = events b
    /\ match orders b !! id with
       | Some o =>
           if acceptsRequests o then
             ans = OrderCancelEvent (be stamp (BaseEvent_Ticker eb)) id
             /\ orders b' = <[id := with_state CanceledOrder stamp o]> (orders b)
             /\ forall eb2 : BaseEvent, exists (b2 : simBrokerWorker) (reason : string),
                  onCancelRequest eb2 id b' = Ok (tt, b2)
                  /\ orders b2 = orders b'
                  /\ generatedEvents b2
                     = generatedEvents b'
                       ++ [OrderCancelRejectEvent
                             (be (genTimeRoundTrip b (BaseEvent_Time eb2)) (BaseEvent_Ticker eb2))
                             id reason]
           else
             (exists reason, ans = OrderCancelRejectEvent (be stamp (BaseEvent_Ticker eb)) id reason)
             /\ orders b' = orders b
       | None =>
           (exists reason, ans = OrderCancelRejectEvent (be stamp (BaseEvent_Ticker eb)) id reason)
           /\ orders b' = orders b
       end.
Proof.
  intros stamp. unfold onCancelRequest, bind, get.
  destruct (orders b !! id) as [o|] eqn:Hl.
  - unfold acceptsRequests.
    destruct (BrokerState o) eqn:Hst; unfold addBrokerEvent; rewrite ?Hl;
      eexists _, _; (split; [reflexivity|]); simpl;
      (split; [reflexivity|]); (split; [reflexivity|]);
      try (split; [by eexists | reflexivity]).
    all: split; [reflexivity|]; split; [reflexivity|]; intros eb2.
    all: rewrite lookup_insert_eq; simpl; eexists _, _; by repeat split.
  - unfold addBrokerEvent. eexists _, _. split; [reflexivity|]. simpl.
    split; [reflexivity|]. split; [reflexivity|]. split; [by eexists | reflexivity].
Qed.

(** X4. A replace request never panics and is answered by exactly one
    buffered event, stamped one round trip after the request.  It is
    accepted exactly when the order is known, its broker state is
    Confirmed, PartialFilled or Rejected, and the new price is neither NaN
    nor zero (a negative price passes): the broker price becomes the new
    price and the last state update the answer's time, while state,
    executed quantity and the order itself (its own price included) stay
    as they were.  Otherwise the answer is an [OrderReplaceRejectEvent] and
    the order map is left as it was. *)
Theorem onReplaceRequest_outcome (b : simBrokerWorker) (eb : BaseEvent) (id : string)
    (NewPrice : float) :
  let stamp := genTimeRoundTrip b (BaseEvent_Time eb) in
  let priceOk := negb (PrimFloat.is_nan NewPrice) && negb (PrimFloat.eqb NewPrice 0%float) in
  exists (b' : simBrokerWorker) (ans : event),
    onReplaceRequest eb id NewPrice b = Ok (tt, b')
    /\ generatedEvents b' = generatedEvents b ++ [ans]
    /\ events b' = events b
    /\ match orders b !! id with
       | Some o =>
           if acceptsRequests o && priceOk then
             ans = OrderReplacedEvent (be stamp (BaseEvent_Ticker eb)) id NewPrice
             /\ orders b'
                = <[id := mkSimBrokerOrder (sbo_Order o) (BrokerState o) stamp
                            (BrokerExecQty o) NewPrice]> (orders b)
           else
             (exists reason,
                ans = OrderReplaceRejectEvent (be stamp (BaseEvent_Ticker eb)) id reason)
             /\ orders b' = orders b
       | None =>
           (exists reason,
              ans = OrderReplaceRejectEvent (be stamp (BaseEvent_Ticker eb)) id reason)
           /\ orders b' = orders b
       end.
Proof.
  intros stamp priceOk. unfold onReplaceRequest, bind, get. subst priceOk.
  destruct (orders b !! id) as [o|] eqn:Hl.
  - unfold acceptsRequests.
    destruct (BrokerState o) eqn:Hst;
      try destruct (PrimFloat.is_nan NewPrice); try destruct (PrimFloat.eqb NewPrice 0);
      cbn [orb andb negb]; unfold addBrokerEvent; rewrite ?Hl; simpl;
      eexists _, _; (split; [reflexivity|]); simpl;
      (split; [reflexivity|]); (split; [reflexivity|]);
      first [ split; [by eexists | reflexivity] | rewrite ?Hst; split; reflexivity ].
  - unfold addBrokerEvent. eexists _, _. split; [reflexivity|]. simpl.
    split; [reflexivity|]. split; [reflexivity|]. split; [by eexists | reflexivity].
Qed.

(** ** Orders the matching loop passes over *)

Section Unvisited.
Context `{MarketDataOps}.





End Unvisited.


(** ** Timestamps and sizes of the matchers' answers *)

(** The condition that decides how a run goes on: the innermost scrutinee
    at the head of the term. *)
Ltac headScrutinee t :=
  lazymatch t with
  | if ?c then _ else _ => headScrutinee c
  | match ?x with _ => _ end => headScrutinee x
  | (if ?c then _ else _) _ => headScrutinee c
  | (match ?x with _ => _ end) _ => headScrutinee x
  | _ => t
  end.

(** Follows the run [H] of a call along each of its execution paths. *)
Ltac paths H :=
  repeat (lazymatch type of H with
          | ?l = _ =>
              let s := headScrutinee l in
              tryif constr_eq s l then fail else destruct s eqn:?
          end; cbv beta in H; try discriminate H).

Section TickAnswers.
Context `{MarketDataOps}.


End TickAnswers.


Section TickStop.
Context `{MarketDataOps}.

(** X7. In tick mode, for a stop order that passes validation and a tick
    that has a trade: a Buy is triggered unless last < stop, a Sell unless
    last > stop.  A triggered order is filled, one round trip after the
    tick: when the tick has a quote, at the quote (ask for a Buy, bid for a
    Sell) and for the whole leaves quantity, whatever the size quoted;
    without a quote, at the last price for min(leaves quantity, last
    size). *)
Theorem fillOnTickStop_rule (b : simBrokerWorker) (order : simBrokerOrder) (tick : Tick) :
  Tick_HasTrade tick = true ->
  validateOrderForExecution order StopOrder = None ->
  let last := LastPrice tick in
  let stop := BrokerPrice order in
  let qty := if Tick_HasQuote tick then lvsQty order
             else Z.min (lvsQty order) (LastSize tick) in
  let fill (quote : float) :=
    OrderFillEvent
      (be (genTimeRoundTrip b (Tick_Datetime tick)) (Order_Ticker (sbo_Order order)))
      (Order_Id (sbo_Order order))
      (if Tick_HasQuote tick then quote else last) qty in
  (Order_Side (sbo_Order order) = OrderBuy ->
   fillOnTickStop order tick b =
     Ok (if PrimFloat.ltb last stop then None else Some (fill (AskPrice tick)), b))
  /\ (Order_Side (sbo_Order order) = OrderSell ->
      fillOnTickStop order tick b =
        Ok (if PrimFloat.ltb stop last then None else Some (fill (BidPrice tick)), b)).
Proof.
  intros Ht Hval last stop qty fill.
  unfold fillOnTickStop. rewrite Ht, Hval. simpl.
  unfold bind, get, ret, tickFill. rewrite capped_is_min.
  split; intros Hs; rewrite Hs; subst last stop qty fill; simpl.
  - by destruct (PrimFloat.ltb (LastPrice tick) (BrokerPrice order)).
  - by destruct (PrimFloat.ltb (BrokerPrice order) (LastPrice tick)).
Qed.

End TickStop.

Lemma fillOnTickStop_rule_witness :
  @fillOnTickStop specOps SampleMatch.confirmedStop SampleMatch.quotedTick
    (newWorker 100 false)
  = Ok (Some (OrderFillEvent (be (atMs 1200) acme) "s1" 101.5%float 10), newWorker 100 false).
Proof.
  refine (proj1 (@fillOnTickStop_rule specOps (newWorker 100 false) SampleMatch.confirmedStop
                   SampleMatch.quotedTick _ _) _);
    try reflexivity.
Defined.

Section CandleAnswers.
Context `{MarketDataOps}.

(** X8. In candle mode a matcher's answer is final and has no latency.
    The event returned for an order on a candle open or a candle close is
    stamped with the time of the candle event itself, and it is either a
    fill for the whole leaves quantity, which leaves the order Filled, or
    a cancel (of a limit-on-open or limit-on-close order), which leaves it
    Canceled: applying it never panics, and there are no partial fills. *)
Theorem candle_answer_is_final (o : simBrokerOrder) (eb : BaseEvent) (TimeFrame : string)
    (CandleTime : Time) (Price : float) (c : Candle) (b b1 : simBrokerWorker) (e : event) :
  orders b !! Order_Id (sbo_Order o) = Some o ->
  findExecutionsOnCandleOpen o eb TimeFrame CandleTime Price b = Ok (Some e, b1)
  \/ findExecutionsOnCandleClose o eb TimeFrame c b = Ok (Some e, b1) ->
  let id := Order_Id (sbo_Order o) in
  let stamp := be (BaseEvent_Time eb) (BaseEvent_Ticker eb) in
  b1 = b
  /\ ((exists price : float,
         e = OrderFillEvent stamp id price (lvsQty o)
         /\ addBrokerEvent e b
            = Ok (tt, set_generatedEvents (fun l => l ++ [e])
                        (set_orders
                           <[id := mkSimBrokerOrder (sbo_Order o) FilledOrder (StateUpdTime o)
                                     (add64 (BrokerExecQty o) (lvsQty o)) (BrokerPrice o)]> b)))
      \/ (e = OrderCancelEvent stamp id
          /\ addBrokerEvent e b
             = Ok (tt, set_generatedEvents (fun l => l ++ [e])
                         (set_orders
                            <[id := with_state CanceledOrder (BaseEvent_Time eb) o]> b)))).
Proof.
  intros Hl Hrun id stamp.
  assert (Hfill : forall price,
            addBrokerEvent (OrderFillEvent stamp id price (lvsQty o)) b
            = Ok (tt, set_generatedEvents
                        (fun l => l ++ [OrderFillEvent stamp id price (lvsQty o)])
                        (set_orders
                           <[id := mkSimBrokerOrder (sbo_Order o) FilledOrder (StateUpdTime o)
                                     (add64 (BrokerExecQty o) (lvsQty o)) (BrokerPrice o)]> b))).
  { intros price. unfold addBrokerEvent. subst id. rewrite Hl.
    unfold lvsQty. by rewrite Z.eqb_refl. }
  assert (Hcancel :
            addBrokerEvent (OrderCancelEvent stamp id) b
            = Ok (tt, set_generatedEvents (fun l => l ++ [OrderCancelEvent stamp id])
                        (set_orders
                           <[id := with_state CanceledOrder (BaseEvent_Time eb) o]> b))).
  { unfold addBrokerEvent. subst id. by rewrite Hl. }
  destruct Hrun as [Hrun|Hrun].
  - unfold findExecutionsOnCandleOpen, fillOnCandleOpenLimit, fillOnCandleOpenLOO,
      fillOnCandleOpenStop, fillOnCandleOpenMOO, fillOnCandleOpenMarket, fillIfPriced,
      bind, get, ret, panic in Hrun.
    paths Hrun; injection Hrun as He <-; paths He; try (injection He as He); subst e;
      (split; [reflexivity|]);
      first [ left; eexists; split; [reflexivity | apply Hfill]
            | right; split; [reflexivity | apply Hcancel] ].
  - unfold findExecutionsOnCandleClose, fillOnCandleCloseLimit, fillOnCandleCloseStop,
      fillOnCandleCloseLOC, fillOnCandleCloseMOC, fillIfPriced,
      bind, get, ret, panic in Hrun.
    paths Hrun; injection Hrun as He <-; paths He; try (injection He as He); subst e;
      (split; [reflexivity|]);
      first [ left; eexists; split; [reflexivity | apply Hfill]
            | right; split; [reflexivity | apply Hcancel] ].
Qed.

End CandleAnswers.

Lemma candle_answer_is_final_witness :
  exists (e : event) (b2 : simBrokerWorker),
    @findExecutionsOnCandleClose specOps SampleMatch.confirmedLimit SampleMatch.closeBase
      "1m" SampleMatch.closedCandle (SampleMatch.holding SampleMatch.confirmedLimit)
    = Ok (Some e, SampleMatch.holding SampleMatch.confirmedLimit)
    /\ addBrokerEvent e (SampleMatch.holding SampleMatch.confirmedLimit) = Ok (tt, b2)
    /\ BrokerState <$> orders b2 !! "o1" = Some FilledOrder.
Proof.
  assert (Hrun : @findExecutionsOnCandleClose specOps SampleMatch.confirmedLimit
                   SampleMatch.closeBase "1m" SampleMatch.closedCandle
                   (SampleMatch.holding SampleMatch.confirmedLimit)
                 = Ok (Some (candleFill SampleMatch.closeBase SampleMatch.confirmedLimit
                               100%float),
                       SampleMatch.holding SampleMatch.confirmedLimit))
    by (vm_compute; reflexivity).
  assert (Hl : orders (SampleMatch.holding SampleMatch.confirmedLimit)
                 !! Order_Id (sbo_Order SampleMatch.confirmedLimit)
               = Some SampleMatch.confirmedLimit)
    by (vm_compute; reflexivity).
  destruct (@candle_answer_is_final specOps SampleMatch.confirmedLimit SampleMatch.closeBase
              "1m" zeroTime 0%float SampleMatch.closedCandle _ _ _ Hl (or_intror Hrun))
    as [_ [(price & He & Hadd)|(He & Hadd)]].
  - eexists _, _. split; [exact Hrun|]. split; [exact Hadd|].
    simpl. rewrite lookup_insert_eq. reflexivity.
  - discriminate He.
Defined.

Section TickFills.
Context `{MarketDataOps}.

(** X9. Tick fills of limit and stop orders, and of market orders matched
    against a quote, never exceed the leaves quantity.  Matching such an
    order returns nothing or one fill; applying the fill to the worker
    does not panic and leaves the order Filled when the fill is for the
    whole leaves quantity and PartialFilled otherwise, with the executed
    quantity raised by the fill's quantity. *)
Theorem capped_tick_fill_applies (o : simBrokerOrder) (tick : Tick)
    (b b1 : simBrokerWorker) (evs : list event) :
  orders b !! Order_Id (sbo_Order o) = Some o ->
  Order_Type (sbo_Order o) = LimitOrder \/ Order_Type (sbo_Order o) = StopOrder
  \/ (Order_Type (sbo_Order o) = MarketOrder /\ Tick_HasQuote tick = true) ->
  findExecutionsOnTick o tick b = Ok (evs, b1) ->
  evs = []
  \/ exists (price : float) (qty : Z),
       evs = [tickFill b o tick price qty]
       /\ qty <= lvsQty o
       /\ forEach evs addBrokerEvent b1
          = Ok (tt, set_generatedEvents (fun l => l ++ evs)
                      (set_orders
                         <[Order_Id (sbo_Order o) :=
                             mkSimBrokerOrder (sbo_Order o)
                               (if qty =? lvsQty o then FilledOrder else PartialFilledOrder)
                               (StateUpdTime o) (add64 (BrokerExecQty o) qty)
                               (BrokerPrice o)]> b)).
Proof.
  intros Hl Htype Hrun.
  assert (Happly : forall price qty,
            qty <= lvsQty o ->
            forEach [tickFill b o tick price qty] addBrokerEvent b
            = Ok (tt, set_generatedEvents (fun l => l ++ [tickFill b o tick price qty])
                        (set_orders
                           <[Order_Id (sbo_Order o) :=
                               mkSimBrokerOrder (sbo_Order o)
                                 (if qty =? lvsQty o then FilledOrder else PartialFilledOrder)
                                 (StateUpdTime o) (add64 (BrokerExecQty o) qty)
                                 (BrokerPrice o)]> b))).
  { intros price qty Hq. unfold forEach, bind, ret, addBrokerEvent, tickFill.
    rewrite Hl. fold (lvsQty o).
    destruct (qty =? lvsQty o) eqn:Heq; [reflexivity|].
    assert (Hlt : (lvsQty o <? qty) = false) by (apply Z.ltb_ge; exact Hq).
    by rewrite Hlt. }
  assert (Hcap : forall size, (if size <? lvsQty o then size else lvsQty o) <= lvsQty o).
  { intros size. destruct (size <? lvsQty o) eqn:Hs; [apply Z.ltb_lt in Hs|]; lia. }
  unfold findExecutionsOnTick in Hrun.
  destruct Htype as [Ht|[Ht|[Ht Hq]]]; rewrite Ht in Hrun.
  - unfold fillOnTickLimit, bind, get, ret, newError, convertToList in Hrun.
    paths Hrun; injection Hrun as <- <-; first [by left | right];
      eexists _, _; (split; [reflexivity|]); (split; [apply Hcap|]); apply Happly, Hcap.
  - unfold fillOnTickStop, bind, get, ret, newError, convertToList in Hrun.
    destruct (Tick_HasQuote tick) eqn:Hquote.
    all: paths Hrun; injection Hrun as <- <-; first [by left | right];
      eexists _, _; (split; [reflexivity|]);
      first [ split; [apply Hcap | apply Happly, Hcap]
            | split; [apply Z.le_refl | apply Happly, Z.le_refl] ].
  - unfold fillOnTickMarket, bind, get, ret, newError, convertToList in Hrun.
    rewrite Hq in Hrun.
    paths Hrun; injection Hrun as <- <-; first [by left | right];
      eexists _, _; (split; [reflexivity|]); (split; [apply Hcap|]); apply Happly, Hcap.
Qed.

(** X10. Market-on-open and market-on-close orders, and market orders
    matched against a tick without a quote, are filled for the whole order
    quantity, not for the leaves quantity.  When nothing was executed
    before, applying the fill leaves the order Filled; when the order was
    filled in part before, applying it makes the worker panic with
    "Large qty". *)
Theorem whole_quantity_tick_fill (o : simBrokerOrder) (tick : Tick)
    (b b1 : simBrokerWorker) (evs : list event) :
  orders b !! Order_Id (sbo_Order o) = Some o ->
  Order_Type (sbo_Order o) = MarketOnOpen \/ Order_Type (sbo_Order o) = MarketOnClose
  \/ (Order_Type (sbo_Order o) = MarketOrder /\ Tick_HasQuote tick = false) ->
  findExecutionsOnTick o tick b = Ok (evs, b1) ->
  evs = []
  \/ (evs = [tickFill b o tick (LastPrice tick) (Order_Qty (sbo_Order o))]
      /\ (BrokerExecQty o = 0 -> int64_ok (Order_Qty (sbo_Order o)) ->
          forEach evs addBrokerEvent b1
          = Ok (tt, set_generatedEvents (fun l => l ++ evs)
                      (set_orders
                         <[Order_Id (sbo_Order o) :=
                             mkSimBrokerOrder (sbo_Order o) FilledOrder (StateUpdTime o)
                               (Order_Qty (sbo_Order o)) (BrokerPrice o)]> b)))
      /\ (0 < BrokerExecQty o < Order_Qty (sbo_Order o) ->
          Order_Qty (sbo_Order o) < 2 ^ 63 ->
          forEach evs addBrokerEvent b1 = Panic "Large qty")).
Proof.
  intros Hl Htype Hrun.
  set (fillE := tickFill b o tick (LastPrice tick) (Order_Qty (sbo_Order o))).
  assert (Hfresh : BrokerExecQty o = 0 -> int64_ok (Order_Qty (sbo_Order o)) ->
            forEach [fillE] addBrokerEvent b
            = Ok (tt, set_generatedEvents (fun l => l ++ [fillE])
                        (set_orders
                           <[Order_Id (sbo_Order o) :=
                               mkSimBrokerOrder (sbo_Order o) FilledOrder (StateUpdTime o)
                                 (Order_Qty (sbo_Order o)) (BrokerPrice o)]> b))).
  { intros He Hq. unfold forEach, bind, ret, addBrokerEvent, fillE, tickFill.
    rewrite Hl, He. unfold sub64, add64. rewrite Z.sub_0_r, Z.add_0_l.
    rewrite (wrap64_id _ Hq). by rewrite Z.eqb_refl. }
  assert (Hpart : 0 < BrokerExecQty o < Order_Qty (sbo_Order o) ->
            Order_Qty (sbo_Order o) < 2 ^ 63 ->
            forEach [fillE] addBrokerEvent b = Panic "Large qty").
  { intros He Hq. unfold forEach, bind, ret, addBrokerEvent, fillE, tickFill.
    rewrite Hl. unfold sub64.
    rewrite wrap64_id by (unfold int64_ok; lia).
    assert (Hne : (Order_Qty (sbo_Order o) =? Order_Qty (sbo_Order o) - BrokerExecQty o) = false)
      by (apply Z.eqb_neq; lia).
    assert (Hlt : (Order_Qty (sbo_Order o) - BrokerExecQty o <? Order_Qty (sbo_Order o)) = true)
      by (apply Z.ltb_lt; lia).
    by rewrite Hne, Hlt. }
  unfold findExecutionsOnTick in Hrun.
  destruct Htype as [Ht|[Ht|[Ht Hq]]]; rewrite Ht in Hrun.
  - unfold fillOnTickMOO, bind, get, ret, newError, convertToList in Hrun.
    paths Hrun; injection Hrun as <- <-; first [by left | right];
      (split; [reflexivity|]); split; assumption.
  - unfold fillOnTickMOC, bind, get, ret, newError, convertToList in Hrun.
    paths Hrun; injection Hrun as <- <-; first [by left | right];
      (split; [reflexivity|]); split; assumption.
  - unfold fillOnTickMarket, bind, get, ret, newError, convertToList in Hrun.
    rewrite Hq in Hrun.
    paths Hrun; injection Hrun as <- <-; first [by left | right];
      (split; [reflexivity|]); split; assumption.
Qed.

End TickFills.

Lemma capped_tick_fill_applies_witness :
  exists (price : float) (qty : Z),
    @findExecutionsOnTick specOps SampleMatch.confirmedLimit (tradeTick (atMs 1000) 99%float 4)
      (SampleMatch.holding SampleMatch.confirmedLimit)
    = Ok ([tickFill (SampleMatch.holding SampleMatch.confirmedLimit)
             SampleMatch.confirmedLimit (tradeTick (atMs 1000) 99%float 4) price qty],
          SampleMatch.holding SampleMatch.confirmedLimit)
    /\ qty = 4
    /\ exists b2,
         forEach [tickFill (SampleMatch.holding SampleMatch.confirmedLimit)
                    SampleMatch.confirmedLimit (tradeTick (atMs 1000) 99%float 4) price qty]
           addBrokerEvent (SampleMatch.holding SampleMatch.confirmedLimit) = Ok (tt, b2)
         /\ BrokerState <$> orders b2 !! "o1" = Some PartialFilledOrder.
Proof.
  assert (Hrun : @findExecutionsOnTick specOps SampleMatch.confirmedLimit
                   (tradeTick (atMs 1000) 99%float 4)
                   (SampleMatch.holding SampleMatch.confirmedLimit)
                 = Ok ([tickFill (SampleMatch.holding SampleMatch.confirmedLimit)
                          SampleMatch.confirmedLimit (tradeTick (atMs 1000) 99%float 4)
                          100%float 4],
                       SampleMatch.holding SampleMatch.confirmedLimit))
    by (vm_compute; reflexivity).
  assert (Hl : orders (SampleMatch.holding SampleMatch.confirmedLimit)
                 !! Order_Id (sbo_Order SampleMatch.confirmedLimit)
               = Some SampleMatch.confirmedLimit)
    by (vm_compute; reflexivity).
  destruct (@capped_tick_fill_applies specOps SampleMatch.confirmedLimit
              (tradeTick (atMs 1000) 99%float 4) _ _ _ Hl (or_introl eq_refl) Hrun)
    as [Hnil|(price & qty & Hevs & Hle & Happly)]; [discriminate Hnil|].
  injection Hevs as <- <-.
  exists 100%float, 4. split; [exact Hrun|]. split; [reflexivity|].
  eexists. split; [exact Happly|]. simpl. rewrite lookup_insert_eq. reflexivity.
Defined.

Lemma whole_quantity_tick_fill_witness :
  @findExecutionsOnTick specOps SampleMatch.partlyFilledMarket SampleMatch.tradeOnly
    (SampleMatch.holding SampleMatch.partlyFilledMarket)
  = Ok ([tickFill (SampleMatch.holding SampleMatch.partlyFilledMarket)
           SampleMatch.partlyFilledMarket SampleMatch.tradeOnly 50%float 10],
        SampleMatch.holding SampleMatch.partlyFilledMarket)
  /\ forEach [tickFill (SampleMatch.holding SampleMatch.partlyFilledMarket)
                SampleMatch.partlyFilledMarket SampleMatch.tradeOnly 50%float 10]
       addBrokerEvent (SampleMatch.holding SampleMatch.partlyFilledMarket)
     = Panic "Large qty".
Proof.
  assert (Hrun : @findExecutionsOnTick specOps SampleMatch.partlyFilledMarket
                   SampleMatch.tradeOnly (SampleMatch.holding SampleMatch.partlyFilledMarket)
                 = Ok ([tickFill (SampleMatch.holding SampleMatch.partlyFilledMarket)
                          SampleMatch.partlyFilledMarket SampleMatch.tradeOnly 50%float 10],
                       SampleMatch.holding SampleMatch.partlyFilledMarket))
    by (vm_compute; reflexivity).
  split; [exact Hrun|].
  assert (Hl : orders (SampleMatch.holding SampleMatch.partlyFilledMarket)
                 !! Order_Id (sbo_Order SampleMatch.partlyFilledMarket)
               = Some SampleMatch.partlyFilledMarket)
    by (vm_compute; reflexivity).
  destruct (@whole_quantity_tick_fill specOps SampleMatch.partlyFilledMarket
              SampleMatch.tradeOnly _ _ _ Hl
              (or_intror (or_intror (conj eq_refl eq_refl))) Hrun)
    as [Hnil|(_ & _ & Hpanic)]; [discriminate Hnil|].
  apply Hpanic; simpl; lia.
Defined.

Section Auction.
Context `{MarketDataOps}.

(** X11. A limit-on-open order does not survive the opening tick, nor a
    limit-on-close order the closing tick.  For an order of known side that
    passes validation and of which nothing is executed, matching against
    its auction tick returns a cancel, a fill for the whole quantity, or a
    fill followed by a cancel; applying these events to the worker does
    not panic and leaves the order Filled or Canceled. *)
Theorem auction_limit_is_settled (o : simBrokerOrder) (tick : Tick) (b : simBrokerWorker) :
  orders b !! Order_Id (sbo_Order o) = Some o ->
  validateOrderForExecution o (Order_Type (sbo_Order o)) = None ->
  (Order_Type (sbo_Order o) = LimitOnOpen /\ IsOpening tick = true)
  \/ (Order_Type (sbo_Order o) = LimitOnClose /\ IsClosing tick = true) ->
  Order_Side (sbo_Order o) <> OrderSideOther ->
  BrokerExecQty o = 0 ->
  int64_ok (Order_Qty (sbo_Order o)) ->
  exists (evs : list event) (b2 : simBrokerWorker) (o' : simBrokerOrder),
    findExecutionsOnTick o tick b = Ok (evs, b)
    /\ evs <> []
    /\ forEach evs addBrokerEvent b = Ok (tt, b2)
    /\ orders b2 !! Order_Id (sbo_Order o) = Some o'
    /\ sbo_Order o' = sbo_Order o
    /\ (BrokerState o' = FilledOrder \/ BrokerState o' = CanceledOrder).
Proof.
  intros Hl Hv Htype Hside Hexec Hqty.
  assert (Hauction : exists (evs : list event) (b2 : simBrokerWorker) (o' : simBrokerOrder),
            fillOnTickLimitAuction o tick b = Ok (evs, b)
            /\ evs <> []
            /\ forEach evs addBrokerEvent b = Ok (tt, b2)
            /\ orders b2 !! Order_Id (sbo_Order o) = Some o'
            /\ sbo_Order o' = sbo_Order o
            /\ (BrokerState o' = FilledOrder \/ BrokerState o' = CanceledOrder)).
  { assert (Hcancel : forall tk, exists (b2 : simBrokerWorker) (o' : simBrokerOrder),
              forEach [OrderCancelEvent
                         (be (genTimeRoundTrip b (Tick_Datetime tick)) tk)
                         (Order_Id (sbo_Order o))] addBrokerEvent b = Ok (tt, b2)
              /\ orders b2 !! Order_Id (sbo_Order o) = Some o'
              /\ sbo_Order o' = sbo_Order o
              /\ (BrokerState o' = FilledOrder \/ BrokerState o' = CanceledOrder)).
    { intros tk. unfold forEach, bind, ret, addBrokerEvent. rewrite Hl.
      eexists _, _. split; [reflexivity|]. simpl. rewrite lookup_insert_eq.
      split; [reflexivity|]. split; [reflexivity | by right]. }
    assert (Hlvs : sub64 (Order_Qty (sbo_Order o)) (BrokerExecQty o) = Order_Qty (sbo_Order o)).
    { rewrite Hexec. unfold sub64. rewrite Z.sub_0_r. by apply wrap64_id. }
    assert (Hrest : exists (evs : list event) (b2 : simBrokerWorker) (o' : simBrokerOrder),
              (if PrimFloat.eqb (LastPrice tick) (BrokerPrice o) && strictLimitOrders b then
                 ret [OrderCancelEvent
                        (be (genTimeRoundTrip b (Tick_Datetime tick)) (Tick_Ticker tick))
                        (Order_Id (sbo_Order o))]
               else
                 let execQty :=
                   if LastSize tick <? Order_Qty (sbo_Order o) then LastSize tick
                   else Order_Qty (sbo_Order o) in
                 let fillE := tickFill b o tick (LastPrice tick) execQty in
                 if execQty <? Order_Qty (sbo_Order o) then
                   ret [fillE;
                        OrderCancelEvent
                          (be (genTimeRoundTrip b (Tick_Datetime tick))
                             (Order_Ticker (sbo_Order o)))
                          (Order_Id (sbo_Order o))]
                 else ret [fillE]) b = Ok (evs, b)
              /\ evs <> []
              /\ forEach evs addBrokerEvent b = Ok (tt, b2)
              /\ orders b2 !! Order_Id (sbo_Order o) = Some o'
              /\ sbo_Order o' = sbo_Order o
              /\ (BrokerState o' = FilledOrder \/ BrokerState o' = CanceledOrder)).
    { destruct (PrimFloat.eqb _ _ && strictLimitOrders b).
      - destruct (Hcancel (Tick_Ticker tick)) as (b2 & o' & Hc).
        eexists _, b2, o'. split; [reflexivity|]. split; [discriminate | exact Hc].
      - cbv zeta. destruct (LastSize tick <? Order_Qty (sbo_Order o)) eqn:Hsize.
        + rewrite Hsize. apply Z.ltb_lt in Hsize.
          eexists _, _, _. split; [reflexivity|]. split; [discriminate|].
          unfold forEach, bind, ret, addBrokerEvent, tickFill. rewrite Hl, Hlvs.
          assert (Hne : (LastSize tick =? Order_Qty (sbo_Order o)) = false)
            by (apply Z.eqb_neq; lia).
          assert (Hlt : (Order_Qty (sbo_Order o) <? LastSize tick) = false)
            by (apply Z.ltb_ge; lia).
          rewrite Hne, Hlt. simpl. rewrite lookup_insert_eq.
          split; [reflexivity|]. simpl. rewrite lookup_insert_eq.
          split; [reflexivity|]. split; [reflexivity | by right].
        + rewrite Z.ltb_irrefl.
          eexists _, _, _. split; [reflexivity|]. split; [discriminate|].
          unfold forEach, bind, ret, addBrokerEvent, tickFill. rewrite Hl, Hlvs.
          rewrite Z.eqb_refl. split; [reflexivity|]. simpl. rewrite lookup_insert_eq.
          split; [reflexivity|]. split; [reflexivity | by left]. }
    unfold fillOnTickLimitAuction, bind at 1, get. cbv zeta.
    destruct (Order_Side (sbo_Order o)); [| |done].
    - destruct (PrimFloat.ltb _ _); [|exact Hrest].
      destruct (Hcancel (Tick_Ticker tick)) as (b2 & o' & Hc).
      eexists _, b2, o'. split; [reflexivity|]. split; [discriminate | exact Hc].
    - destruct (PrimFloat.ltb _ _); [|exact Hrest].
      destruct (Hcancel (Tick_Ticker tick)) as (b2 & o' & Hc).
      eexists _, b2, o'. split; [reflexivity|]. split; [discriminate | exact Hc]. }
  unfold findExecutionsOnTick. rewrite Hv.
  destruct Htype as [[Ht Hopen]|[Ht Hclose]]; rewrite Ht in *.
  - unfold fillOnTickLOO. rewrite Hv, Hopen. exact Hauction.
  - unfold fillOnTickLOC. rewrite Hv, Hclose. exact Hauction.
Qed.

End Auction.

Lemma auction_limit_is_settled_witness :
  exists (evs : list event) (b2 : simBrokerWorker) (o' : simBrokerOrder),
    @findExecutionsOnTick specOps SampleMatch.confirmedLOO SampleMatch.openingTick
      (SampleMatch.holding SampleMatch.confirmedLOO)
    = Ok (evs, SampleMatch.holding SampleMatch.confirmedLOO)
    /\ evs <> []
    /\ forEach evs addBrokerEvent (SampleMatch.holding SampleMatch.confirmedLOO) = Ok (tt, b2)
    /\ orders b2 !! "a1" = Some o'
    /\ sbo_Order o' = sbo_Order SampleMatch.confirmedLOO
    /\ (BrokerState o' = FilledOrder \/ BrokerState o' = CanceledOrder).
Proof.
  apply (@auction_limit_is_settled specOps SampleMatch.confirmedLOO SampleMatch.openingTick
           (SampleMatch.holding SampleMatch.confirmedLOO)).
  - vm_compute. reflexivity.
  - vm_compute. reflexivity.
  - left. split; reflexivity.
  - discriminate.
  - reflexivity.
  - unfold int64_ok. simpl. lia.
Defined.

(** ** Sliding windows of the strategy *)

Section Windows.
Context {A : Type}.

Lemma entries_Some (w : list (option A)) :
  Forall is_Some w -> map Some (entries w) = w.
Proof.
  induction 1 as [|x w [y ->] _ IH]; [reflexivity|].
  change (Some y :: map Some (entries w) = Some y :: w). by rewrite IH.
Qed.

Lemma derefAll_Some (w : list (option A)) :
  Forall is_Some w -> derefAll w = Some (entries w).
Proof.
  induction 1 as [|x w [y ->] _ IH]; [reflexivity|].
  change (match derefAll w with Some l => Some (y :: l) | None => None end
          = Some (y :: entries w)).
  by rewrite IH.
Qed.

Lemma entries_map_Some (l : list A) : entries (map Some l) = l.
Proof.
  induction l as [|x l IH]; [reflexivity|].
  change (x :: entries (map Some l) = x :: l). by rewrite IH.
Qed.

Lemma entries_app (w1 w2 : list (option A)) : entries (w1 ++ w2) = entries w1 ++ entries w2.
Proof. apply omap_app. Qed.

Lemma Forall_is_Some_map (l : list A) : Forall is_Some (map Some l).
Proof. induction l; constructor; [by eexists | done]. Qed.

Lemma sortedBy_snoc (key : A -> Z) (l : list A) (x : A) :
  sortedBy key l -> Forall (fun y => key y <= key x) l -> sortedBy key (l ++ [x]).
Proof.
  induction 1 as [|y l Hs IH Hall]; intros Hle; simpl.
  - repeat constructor.
  - apply Forall_cons in Hle as [Hy Hle]. constructor; [by apply IH|].
    apply Forall_app. split; [done | by repeat constructor].
Qed.

Lemma sortedBy_le_last (key : A -> Z) (l : list A) (z : A) :
  sortedBy key l -> last l = Some z -> Forall (fun y => key y <= key z) l.
Proof.
  induction 1 as [|y l Hs IH Hall]; intros Hlast; [constructor|].
  destruct l as [|y' l'].
  - injection Hlast as ->. repeat constructor. lia.
  - change (last (y :: y' :: l')) with (last (y' :: l')) in Hlast.
    constructor; [|by apply IH].
    rewrite Forall_forall in Hall. apply Hall.
    apply last_Some in Hlast as (l0 & Hl0). rewrite Hl0.
    apply elem_of_app. right. by left.
Qed.

Lemma last_entries (w : list (option A)) (z : A) :
  Forall is_Some w -> last w = Some (Some z) -> last (entries w) = Some z.
Proof.
  intros Hw Hlast. apply last_Some in Hlast as (w0 & ->).
  rewrite entries_app. unfold entries at 2. simpl. apply last_snoc.
Qed.

End Windows.

Lemma Unix_mono (t u : Time) : unixNano t <= unixNano u -> Unix t <= Unix u.
Proof. intros Hle. unfold Unix. apply Z.div_le_mono; [reflexivity | exact Hle]. Qed.

Lemma slide_window {A : Type} (time : A -> Time) (N : Z) (w : list (option A)) (x : A) :
  let key := fun y => Unix (time y) in
  Forall is_Some w ->
  w <> [] \/ 0 < N ->
  exists w' : list (option A),
    slide time N w x = Ok w'
    /\ Forall is_Some w'
    /\ (Z.of_nat (length w) <= N -> Z.of_nat (length w') <= N)
    /\ (if Z.of_nat (length w) <? N then w' = w ++ [Some x]
        else length w' = length w
             /\ w' ≡ₚ tail w ++ [Some x]
             /\ (sortedBy key (entries w) -> sortedBy key (entries w'))).
Proof.
  intros key Hw Hne.
  assert (Hx : Forall is_Some [Some x]) by (constructor; [by eexists | constructor]).
  unfold slide.
  assert (Hlast : last w = None \/ exists l, last w = Some (Some l)).
  { destruct (last w) as [[l|]|] eqn:Hl; [right; by exists l | | by left].
    apply last_Some in Hl as (w0 & ->). apply Forall_app in Hw as [_ Hw].
    apply Forall_cons in Hw as [[y Hy] _]. discriminate Hy. }
  destruct (Z.of_nat (length w) <? N) eqn:Hfull.
  - apply Z.ltb_lt in Hfull.
    exists (w ++ [Some x]).
    split; [destruct Hlast as [->|(l & ->)]; reflexivity|].
    split; [by apply Forall_app|].
    split; [|reflexivity]. intros _. rewrite length_app. simpl. lia.
  - apply Z.ltb_ge in Hfull.
    destruct w as [|e0 rest]; [destruct Hne as [Hne|Hne]; [done | simpl in Hfull; lia]|].
    apply Forall_cons in Hw as [He0 Hrest].
    destruct Hlast as [Hlast|(l & Hlast)]; [by apply last_None in Hlast|]. rewrite Hlast.
    assert (Hnew : Forall is_Some (rest ++ [Some x])) by by apply Forall_app.
    assert (Hlen : length (rest ++ [Some x]) = length (e0 :: rest)).
    { rewrite length_app. simpl. lia. }
    destruct (Before (time x) (time l)) eqn:Hbefore.
    + unfold sortWindow. rewrite (derefAll_Some _ Hnew).
      destruct (length (rest ++ [Some x]) <=? 1)%nat eqn:Hshort.
      * exists (rest ++ [Some x]). split; [reflexivity|]. split; [done|].
        split; [intros Hle; rewrite Hlen; exact Hle|].
        split; [done|]. split; [reflexivity|].
        intros _. destruct rest as [|e1 rest'].
        -- unfold entries. simpl. repeat constructor.
        -- exfalso. apply Nat.leb_le in Hshort. simpl in Hshort.
           rewrite length_app in Hshort. simpl in Hshort. lia.
      * exists (map Some (SliceStable key (entries (rest ++ [Some x])))).
        split; [reflexivity|]. split; [apply Forall_is_Some_map|].
        assert (Hperm : map Some (SliceStable key (entries (rest ++ [Some x])))
                        ≡ₚ rest ++ [Some x]).
        { rewrite SliceStable_perm. by rewrite entries_Some. }
        split; [intros Hle; rewrite Hperm, Hlen; exact Hle|].
        split; [by rewrite Hperm|]. split; [exact Hperm|].
        intros _. rewrite entries_map_Some. apply SliceStable_sorted.
    + exists (rest ++ [Some x]). split; [reflexivity|]. split; [done|].
      split; [intros Hle; rewrite Hlen; exact Hle|].
      split; [done|]. split; [reflexivity|].
      intros Hsorted. rewrite entries_app. unfold entries at 2. simpl.
      assert (Hle : Forall (fun y => key y <= key l) (entries (e0 :: rest))).
      { apply sortedBy_le_last; [done|]. apply last_entries; [by constructor | done]. }
      assert (Hlx : key l <= key x).
      { apply Unix_mono. unfold Before in Hbefore. by apply Z.ltb_ge in Hbefore. }
      destruct He0 as [y0 ->]. unfold entries in Hsorted, Hle. simpl in Hsorted, Hle.
      apply StronglySorted_inv in Hsorted as [Hsorted _].
      apply Forall_cons in Hle as [_ Hle].
      apply sortedBy_snoc; [exact Hsorted|].
      eapply Forall_impl; [exact Hle|]. intros y Hy. simpl in Hy. lia.
Qed.

Lemma putNewTick_slide (t : Tick) (b : BasicStrategy) :
  putNewTick (Some t) b
  = match slide Tick_Datetime (nPeriods b) (Ticks b) t with
    | Ok w => Ok (set_Ticks w b)
    | Panic msg => Panic msg
    end.
Proof.
  unfold putNewTick, slide.
  destruct (last (Ticks b)) as [[l|]|]; [| reflexivity |];
    destruct (_ <? _); try reflexivity;
    destruct (Ticks b); try reflexivity;
    destruct (Before _ _); reflexivity.
Qed.

Lemma putNewCandle_slide (c : Candle) (b : BasicStrategy) :
  putNewCandle (Some c) b
  = match slide Candle_Datetime (nPeriods b) (Candles b) c with
    | Ok w => updateLastCandleOpen (set_Candles w b)
    | Panic msg => Panic msg
    end.
Proof.
  unfold putNewCandle, slide.
  destruct (last (Candles b)) as [[l|]|]; [| reflexivity |];
    destruct (_ <? _); try reflexivity;
    destruct (Candles b); try reflexivity;
    destruct (Before _ _); reflexivity.
Qed.

(** X12. The tick window.  For a window without nil entries that is not
    empty, or a positive number of periods, [putNewTick] returns.  While
    the window holds fewer ticks than the number of periods the tick is
    appended as it comes, with no sorting, so that a late tick stays out
    of place.  Otherwise the oldest entry is dropped and the tick added:
    the length stays the same, and a window that was in order of whole
    seconds stays so.  A window within the number of periods stays within
    it.  An empty window with a number of periods of zero or less makes
    the call panic. *)
Theorem putNewTick_window (b : BasicStrategy) (t : Tick) :
  (Forall is_Some (Ticks b) ->
   Ticks b <> [] \/ 0 < nPeriods b ->
   exists w : TickArray,
     putNewTick (Some t) b = Ok (set_Ticks w b)
     /\ Forall is_Some w
     /\ (Z.of_nat (length (Ticks b)) <= nPeriods b -> Z.of_nat (length w) <= nPeriods b)
     /\ (if Z.of_nat (length (Ticks b)) <? nPeriods b then w = Ticks b ++ [Some t]
         else length w = length (Ticks b)
              /\ w ≡ₚ tail (Ticks b) ++ [Some t]
              /\ (sortedBy tickKey (entries (Ticks b)) -> sortedBy tickKey (entries w))))
  /\ (Ticks b = [] -> nPeriods b <= 0 ->
      putNewTick (Some t) b = Panic "slice bounds out of range").
Proof.
  split.
  - intros Hw Hne.
    destruct (slide_window Tick_Datetime (nPeriods b) (Ticks b) t Hw Hne)
      as (w & Hrun & Hsome & Hbound & Hshape).
    exists w. rewrite putNewTick_slide, Hrun. by repeat split.
  - intros Hnil Hn. unfold putNewTick. rewrite Hnil.
    change (Z.of_nat (length (@nil (option Tick)))) with 0.
    assert (Hfull : (0 <? nPeriods b) = false) by (apply Z.ltb_ge; exact Hn).
    by rewrite Hfull.
Qed.

Lemma putNewTick_window_witness :
  exists w : TickArray,
    putNewTick (Some SampleWindow.lateTick) SampleWindow.fullWindow
    = Ok (set_Ticks w SampleWindow.fullWindow)
    /\ w ≡ₚ [Some tick2; Some SampleWindow.lateTick]
    /\ sortedBy tickKey (entries w).
Proof.
  destruct (putNewTick_window SampleWindow.fullWindow SampleWindow.lateTick) as [Hput _].
  destruct Hput as (w & Hrun & _ & _ & Hshape).
  - repeat constructor; by eexists.
  - left. discriminate.
  - simpl in Hshape. destruct Hshape as (_ & Hperm & Hsorted).
    exists w. split; [exact Hrun|]. split; [exact Hperm|].
    apply Hsorted. repeat constructor. by vm_compute.
Defined.

(** X13. The candle window.  [putNewCandle] updates the window as
    [putNewTick] does (append while there is room, otherwise drop the
    oldest entry, keeping the length and the order of whole seconds), and
    then looks at the newest candle of the new window: when that candle is
    later than the last recorded candle open, its open price and time are
    recorded; the recorded time never moves back. *)
Theorem putNewCandle_window (b : BasicStrategy) (c : Candle) :
  Forall is_Some (Candles b) ->
  Candles b <> [] \/ 0 < nPeriods b ->
  exists (w : CandleArray) (newest : Candle),
    let b' :=
      if After (Candle_Datetime newest) (lastCandleOpenTime b)
      then set_lastCandleOpen (Open newest) (Candle_Datetime newest) (set_Candles w b)
      else set_Candles w b in
    putNewCandle (Some c) b = Ok b'
    /\ last w = Some (Some newest)
    /\ Forall is_Some w
    /\ (Z.of_nat (length (Candles b)) <= nPeriods b -> Z.of_nat (length w) <= nPeriods b)
    /\ (if Z.of_nat (length (Candles b)) <? nPeriods b then w = Candles b ++ [Some c]
        else length w = length (Candles b)
             /\ w ≡ₚ tail (Candles b) ++ [Some c]
             /\ (sortedBy candleKey (entries (Candles b)) -> sortedBy candleKey (entries w)))
    /\ unixNano (lastCandleOpenTime b) <= unixNano (lastCandleOpenTime b').
Proof.
  intros Hw Hne.
  destruct (slide_window Candle_Datetime (nPeriods b) (Candles b) c Hw Hne)
    as (w & Hrun & Hsome & Hbound & Hshape).
  assert (Hlast : exists newest, last w = Some (Some newest)).
  { destruct (last w) as [[n|]|] eqn:Hl.
    - by exists n.
    - apply last_Some in Hl as (w0 & ->). apply Forall_app in Hsome as [_ Hs].
      apply Forall_cons in Hs as [[y Hy] _]. discriminate Hy.
    - apply last_None in Hl. subst w. exfalso.
      destruct (Z.of_nat (length (Candles b)) <? nPeriods b).
      + by destruct (Candles b).
      + destruct Hshape as (_ & Hperm & _).
        apply Permutation_nil_l in Hperm. by destruct (tail (Candles b)). }
  destruct Hlast as (newest & Hlast).
  exists w, newest. cbv zeta.
  rewrite putNewCandle_slide, Hrun. unfold updateLastCandleOpen. simpl. rewrite Hlast.
  split; [by destruct (After _ _)|].
  split; [done|]. split; [done|]. split; [done|]. split; [done|].
  destruct (After (Candle_Datetime newest) (lastCandleOpenTime b)) eqn:Haft; simpl; [|lia].
  apply After_lt in Haft. lia.
Qed.

Lemma putNewCandle_window_witness :
  exists b' : BasicStrategy,
    putNewCandle (Some candle3) SampleWindow.fullCandles = Ok b'
    /\ Candles b' = [Some candle2; Some candle3]
    /\ lastCandleOpen b' = Open candle3.
Proof.
  destruct (putNewCandle_window SampleWindow.fullCandles candle3)
    as (w & newest & Hrun & _).
  - repeat constructor; by eexists.
  - left. discriminate.
  - assert (Hc : putNewCandle (Some candle3) SampleWindow.fullCandles
                 = Ok (set_lastCandleOpen (Open candle3) (Candle_Datetime candle3)
                         (set_Candles [Some candle2; Some candle3] SampleWindow.fullCandles)))
      by (vm_compute; reflexivity).
    match type of Hrun with _ = Ok ?t => set (T := t) in * end.
    assert (HT : T = set_lastCandleOpen (Open candle3) (Candle_Datetime candle3)
                       (set_Candles [Some candle2; Some candle3] SampleWindow.fullCandles)).
    { rewrite Hc in Hrun. by injection Hrun. }
    exists T. split; [exact Hrun|]. rewrite HT. split; reflexivity.
Defined.

(** ** History loads *)

Lemma lastPeriods_suffix {A : Type} (N : Z) (l : list A) :
  0 <= N ->
  exists kept dropped : list A,
    lastPeriods N l = Ok kept
    /\ l = dropped ++ kept
    /\ Z.of_nat (length kept) = Z.min N (Z.of_nat (length l)).
Proof.
  intros HN. unfold lastPeriods.
  destruct (N <? Z.of_nat (length l)) eqn:Hlt.
  - apply Z.ltb_lt in Hlt.
    assert (Hneg : (N <? 0) = false) by (apply Z.ltb_ge; exact HN). rewrite Hneg.
    exists (drop (length l - Z.to_nat N) l), (take (length l - Z.to_nat N) l).
    split; [reflexivity|]. split; [by rewrite take_drop|].
    rewrite length_drop. lia.
  - apply Z.ltb_ge in Hlt. exists l, []. split; [reflexivity|]. split; [reflexivity|]. lia.
Qed.

Section TickHistory.
Context `{MarketDataOps}.

Lemma checkTicks_filter (l : TickArray) :
  checkTicks l = List.filter Tick_IsValid (entries l).
Proof.
  induction l as [|[v|] l IH]; [reflexivity | |exact IH].
  change (entries (Some v :: l)) with (v :: entries l). simpl.
  destruct (Tick_IsValid v); by rewrite IH.
Qed.

(** X14. A tick history load.  For a number of periods that is not
    negative, a non-empty tick history is merged with the window: the
    valid, non-nil ticks of both are put in order of whole seconds, and the
    window becomes the latest of them, as many as the number of periods
    allows.  Nothing else of the strategy changes.  An empty history is
    ignored. *)
Theorem onTickHistoryHandler_window (b : BasicStrategy) (eTicks : TickArray) :
  (0 <= nPeriods b -> eTicks <> [] ->
   exists kept dropped : list Tick,
     onTickHistoryHandler eTicks b = Ok (set_Ticks (map Some kept) b)
     /\ dropped ++ kept ≡ₚ List.filter Tick_IsValid (entries (Ticks b ++ eTicks))
     /\ sortedBy tickKey (dropped ++ kept)
     /\ Z.of_nat (length kept) = Z.min (nPeriods b) (Z.of_nat (length (dropped ++ kept))))
  /\ onTickHistoryHandler [] b = Ok b.
Proof.
  split; [|reflexivity].
  intros HN Hne.
  destruct (lastPeriods_suffix (nPeriods b)
              (SliceStable tickKey (checkTicks (Ticks b ++ eTicks))) HN)
    as (kept & dropped & Hlast & Hsplit & Hlen).
  exists kept, dropped.
  split.
  { unfold onTickHistoryHandler. destruct eTicks as [|e0 es]; [done|]. by rewrite Hlast. }
  rewrite <- Hsplit. split; [|split; [apply SliceStable_sorted | exact Hlen]].
  rewrite SliceStable_perm. by rewrite checkTicks_filter.
Qed.

End TickHistory.

Lemma onTickHistoryHandler_window_witness :
  exists kept dropped : list Tick,
    @onTickHistoryHandler specOps [Some SampleWindow.lateTick] SampleWindow.fullWindow
    = Ok (set_Ticks (map Some kept) SampleWindow.fullWindow)
    /\ dropped ++ kept ≡ₚ [tick1; tick2; SampleWindow.lateTick]
    /\ sortedBy tickKey (dropped ++ kept)
    /\ length kept = 2%nat.
Proof.
  destruct (@onTickHistoryHandler_window specOps SampleWindow.fullWindow
              [Some SampleWindow.lateTick]) as [Hload _].
  destruct Hload as (kept & dropped & Hrun & Hperm & Hsorted & Hlen).
  - simpl. lia.
  - discriminate.
  - exists kept, dropped. split; [exact Hrun|]. split; [exact Hperm|].
    split; [exact Hsorted|].
    apply Permutation_length in Hperm. simpl in Hperm, Hlen. rewrite Hperm in Hlen. lia.
Defined.

Section CandleHistoryLoad.
Context `{MarketDataOps}.

Lemma updateLastCandleOpen_returns (b : BasicStrategy) (l : list Candle) :
  Candles b = map Some l ->
  exists b', updateLastCandleOpen b = Ok b'
             /\ Candles b' = Candles b
             /\ unixNano (lastCandleOpenTime b) <= unixNano (lastCandleOpenTime b').
Proof.
  intros Hc. unfold updateLastCandleOpen. rewrite Hc.
  destruct (last (map Some l)) as [[c|]|] eqn:Hlast.
  - destruct (After (Candle_Datetime c) (lastCandleOpenTime b)) eqn:Haft.
    + eexists. split; [reflexivity|]. simpl. split; [by rewrite Hc|].
      apply After_lt in Haft. lia.
    + exists b. split; [reflexivity|]. split; [by rewrite Hc | lia].
  - apply last_Some in Hlast as (l0 & Hl0).
    assert (Hin : None ∈ map Some l).
    { rewrite Hl0. apply elem_of_app. right. by left. }
    apply list_elem_of_fmap in Hin as (c & Hc' & _). discriminate Hc'.
  - exists b. split; [reflexivity|]. split; [by rewrite Hc | lia].
Qed.

(** X15. A candle history load.  For a number of periods that is not
    negative, a non-empty candle history is merged with the window: of the
    valid, non-nil candles of both, one per timestamp is kept, they are put
    in order of whole seconds, and the window becomes the latest of them,
    as many as the number of periods allows.  Every valid candle's
    timestamp is represented among the merged candles, and the recorded
    time of the last candle open does not move back. *)
Theorem onCandleHistoryHandler_window (b : BasicStrategy) (eCandles : CandleArray) :
  0 <= nPeriods b -> eCandles <> [] ->
  exists (kept dropped : list Candle) (b' : BasicStrategy),
    onCandleHistoryHandler eCandles b = Ok b'
    /\ Candles b' = map Some kept
    /\ sortedBy candleKey (dropped ++ kept)
    /\ NoDup (map candleTime (dropped ++ kept))
    /\ Forall (fun c => Candle_isValid c = true /\ Some c ∈ Candles b ++ eCandles)
         (dropped ++ kept)
    /\ (forall c, Some c ∈ Candles b ++ eCandles -> Candle_isValid c = true ->
          candleTime c ∈ map candleTime (dropped ++ kept))
    /\ Z.of_nat (length kept) = Z.min (nPeriods b) (Z.of_nat (length (dropped ++ kept)))
    /\ unixNano (lastCandleOpenTime b) <= unixNano (lastCandleOpenTime b').
Proof.
  intros HN Hne.
  set (X := checkCandles (Candles b ++ eCandles) ∅).
  destruct (checkCandles_facts (Candles b ++ eCandles) ∅)
    as (Hvalid & Hnodup & _ & Hin & Hcover). fold X in Hvalid, Hnodup, Hin, Hcover.
  destruct (lastPeriods_suffix (nPeriods b) (SliceStable candleKey X) HN)
    as (kept & dropped & Hlast & Hsplit & Hlen).
  assert (Hperm : dropped ++ kept ≡ₚ X) by (rewrite <- Hsplit; apply SliceStable_perm).
  destruct (updateLastCandleOpen_returns (set_Candles (map Some kept) b) kept eq_refl)
    as (b' & Hupd & Hcandles & Htime).
  exists kept, dropped, b'.
  split.
  { unfold onCandleHistoryHandler. destruct eCandles as [|e0 es]; [done|].
    fold X. by rewrite Hlast. }
  split; [exact Hcandles|].
  split; [rewrite <- Hsplit; apply SliceStable_sorted|].
  split; [by rewrite Hperm|].
  split.
  { rewrite Hperm. apply Forall_forall. intros c Hc. split.
    - rewrite Forall_forall in Hvalid. by apply Hvalid.
    - by apply Hin. }
  split.
  { intros c Hc Hv. rewrite Hperm.
    destruct (Hcover c Hc Hv) as [Hempty|Hx]; [|exact Hx].
    by apply elem_of_empty in Hempty. }
  split; [by rewrite Hsplit in Hlen | exact Htime].
Qed.

End CandleHistoryLoad.

Lemma onCandleHistoryHandler_window_witness :
  exists (kept dropped : list Candle) (b' : BasicStrategy),
    @onCandleHistoryHandler specOps [Some candle2; Some candle3] SampleWindow.fullCandles
    = Ok b'
    /\ Candles b' = map Some kept
    /\ NoDup (map candleTime (dropped ++ kept))
    /\ length kept = 2%nat.
Proof.
  destruct (@onCandleHistoryHandler_window specOps SampleWindow.fullCandles
              [Some candle2; Some candle3])
    as (kept & dropped & b' & Hrun & Hc & _ & Hnodup & _ & _ & _ & _).
  - simpl. lia.
  - discriminate.
  - exists kept, dropped, b'. split; [exact Hrun|]. split; [exact Hc|].
    split; [exact Hnodup|].
    assert (Hv : @onCandleHistoryHandler specOps [Some candle2; Some candle3]
                   SampleWindow.fullCandles
                 = Ok (set_lastCandleOpen (Open candle3) (Candle_Datetime candle3)
                         (set_Candles [Some candle2; Some candle3] SampleWindow.fullCandles)))
      by (vm_compute; reflexivity).
    rewrite Hv in Hrun. injection Hrun as <-. simpl in Hc.
    apply (f_equal length) in Hc. rewrite length_map in Hc. simpl in Hc. lia.
Defined.

(** ** The strategy's clock and its requests *)

Lemma advanceTime_clock (t : Time) (b : BasicStrategy) :
  mostRecentTime (advanceTime t b)
  = (if After t (mostRecentTime b) then t else mostRecentTime b).
Proof. unfold advanceTime. by destruct (After t (mostRecentTime b)). Qed.

(** X16. The strategy's clock never runs back.  After the handler of a
    broker response (cancel, cancel reject, replace, replace reject, fill)
    the clock is the later of the clock before and the time of the event,
    whatever else the handler does. *)
Theorem responses_advance_the_clock (b : BasicStrategy) (eb : BaseEvent) (id : string)
    (price : float) (qty : Z) :
  let t := BaseEvent_Time eb in
  let later := if After t (mostRecentTime b) then t else mostRecentTime b in
  mostRecentTime (onOrderCancelHandler eb id b) = later
  /\ mostRecentTime (onOrderCancelRejectHandler eb id b) = later
  /\ mostRecentTime (onOrderReplacedHandler eb id price b) = later
  /\ mostRecentTime (onOrderReplaceRejectHandler eb id b) = later
  /\ mostRecentTime (onOrderFillHandler eb id price qty b) = later
  /\ unixNano (mostRecentTime b) <= unixNano later
  /\ unixNano t <= unixNano later.
Proof.
  intros t later.
  assert (Hadv : mostRecentTime (advanceTime t b) = later) by apply advanceTime_clock.
  split; [|split; [|split; [|split; [|split]]]].
  - unfold onOrderCancelHandler. fold t.
    destruct (cancelOrder _ _) as [tr [err|]]; exact Hadv.
  - exact Hadv.
  - unfold onOrderReplacedHandler. fold t.
    destruct (replaceOrder _ _ _) as [tr [err|]]; exact Hadv.
  - exact Hadv.
  - unfold onOrderFillHandler. fold t.
    set (b1 := advanceTime t b) in *.
    destruct (negb (Instrument_ptr_eqb _ _)), (qty <=? 0),
      (PrimFloat.is_nan price || PrimFloat.leb price 0); simpl;
      destruct (executeOrder _ _ _ _ _) as [[tr [newPos|]] [err|]]; simpl; try exact Hadv;
      repeat (match goal with
              | |- context [match ?x with _ => _ end] => destruct x
              end; simpl; try exact Hadv).
  - subst later. destruct (After t (mostRecentTime b)) eqn:Haft.
    + apply After_lt in Haft. split; lia.
    + apply not_After_le in Haft. split; lia.
Qed.

(** X17. Cancel and replace requests of the strategy.  A call that
    returns an error changes nothing and sends nothing.  A call that
    returns nil sends exactly one request, stamped 20 microseconds after
    the strategy's clock (a replace request carries the price as given,
    unchecked), and as long as nothing else happens a second call for the
    same order is refused as already waiting, again without sending. *)
Theorem requests_are_sent_once (b : BasicStrategy) (id : string) (price price2 : float) :
  let stamp := Add (mostRecentTime b) (20 * Microsecond) in
  let waiting := Some (errors_New "Request is already waiting for conf. ") in
  (forall err b', CancelOrder id b = (Some err, b') -> b' = b)
  /\ (forall b', CancelOrder id b = (None, b') ->
        (exists o, ConfirmedOrders (currentTrade b) !! id = Some o
                   /\ ch_events b'
                      = ch_events b ++ [OrderCancelRequestEvent (be stamp (Order_Ticker o)) id])
        /\ CancelOrder id b' = (waiting, b'))
  /\ (forall err b', ReplaceOrder id price b = (Some err, b') -> b' = b)
  /\ (forall b', ReplaceOrder id price b = (None, b') ->
        ch_events b'
        = ch_events b ++ [OrderReplaceRequestEvent (be stamp (bs_symbol b)) id price]
        /\ ReplaceOrder id price2 b' = (waiting, b')).
Proof.
  intros stamp waiting.
  split; [|split; [|split]].
  - intros err b'. unfold CancelOrder.
    destruct (String.eqb id _); [by intros [= _ <-]|].
    destruct (negb _); [by intros [= _ <-]|].
    destruct (_ !! id); [|by intros [= _ <-]].
    case_bool_decide; [by intros [= _ <-] | discriminate].
  - intros b' Hrun. unfold CancelOrder in Hrun.
    destruct (String.eqb id _) eqn:Hid; [discriminate|].
    destruct (negb _) eqn:Hconf; [discriminate|].
    destruct (_ !! id) as [o|] eqn:Hl; [|discriminate].
    case_bool_decide as Hw; [discriminate|]. injection Hrun as <-.
    split; [by exists o|].
    match goal with |- CancelOrder id ?x = _ => set (B := x) end.
    assert (Ht : currentTrade B = currentTrade b) by reflexivity.
    assert (Hw' : waitingConfirmation B = {["$CAN$" +:+ id]} ∪ waitingConfirmation b)
      by reflexivity.
    unfold CancelOrder. rewrite Ht, Hid, Hconf, Hl, Hw'.
    rewrite bool_decide_eq_true_2; [reflexivity|].
    apply elem_of_union_l. by apply elem_of_singleton.
  - intros err b'. unfold ReplaceOrder.
    destruct (String.eqb id _); [by intros [= _ <-]|].
    destruct (negb _); [by intros [= _ <-]|].
    case_bool_decide; [by intros [= _ <-] | discriminate].
  - intros b' Hrun. unfold ReplaceOrder in Hrun.
    destruct (String.eqb id _) eqn:Hid; [discriminate|].
    destruct (negb _) eqn:Hconf; [discriminate|].
    case_bool_decide as Hw; [discriminate|]. injection Hrun as <-.
    split; [reflexivity|].
    match goal with |- ReplaceOrder id price2 ?x = _ => set (B := x) end.
    assert (Ht : currentTrade B = currentTrade b) by reflexivity.
    assert (Hw' : waitingConfirmation B = {["$REP$" +:+ id]} ∪ waitingConfirmation b)
      by reflexivity.
    unfold ReplaceOrder. rewrite Ht, Hid, Hconf, Hw'.
    rewrite bool_decide_eq_true_2; [reflexivity|].
    apply elem_of_union_l. by apply elem_of_singleton.
Qed.

Lemma requests_are_sent_once_witness :
  exists b' : BasicStrategy,
    CancelOrder "o1" withConfirmedOrder = (None, b')
    /\ timesOf (ch_events b') = [1000020000]
    /\ CancelOrder "o1" b' = (Some (errors_New "Request is already waiting for conf. "), b').
Proof.
  destruct (requests_are_sent_once withConfirmedOrder "o1" 0%float 0%float)
    as (_ & Hcancel & _).
  eexists. split; [vm_compute; reflexivity|].
  split; [vm_compute; reflexivity|].
  apply Hcancel. vm_compute. reflexivity.
Defined.

(** ** The broker and its workers *)

Lemma initWorkers_spec (b : SimBroker) (errs : option (list error)) (sent : list event)
    (symbols : list (option Instrument)) :
  Forall is_Some symbols ->
  forall ws : gmap string simBrokerWorker,
  exists ws' : gmap string simBrokerWorker,
    initWorkers b errs sent symbols ws = Ok ws'
    /\ forall sym w,
         ws' !! sym = Some w <->
         (exists s, last (List.filter (fun x => String.eqb (Instrument_Symbol x) sym)
                            (entries symbols)) = Some s
                    /\ w = mkWorker s errs sent (sb_delay b) (sb_strictLimitOrders b)
                             ∅ [] [] zeroTime zeroTime)
         \/ (List.filter (fun x => String.eqb (Instrument_Symbol x) sym) (entries symbols) = []
             /\ ws !! sym = Some w).
Proof.
  induction 1 as [|x symbols [s ->] _ IH]; intros ws.
  - exists ws. split; [reflexivity|]. intros sym w. simpl. split.
    + intros Hl. right. by split.
    + intros [(s & Hs & _)|[_ Hl]]; [discriminate Hs | exact Hl].
  - simpl.
    destruct (IH (<[Instrument_Symbol s :=
                      mkWorker s errs sent (sb_delay b) (sb_strictLimitOrders b) ∅ [] []
                        zeroTime zeroTime]> ws)) as (ws' & Hrun & Hspec).
    exists ws'. split; [exact Hrun|]. intros sym w.
    change (entries (Some s :: symbols)) with (s :: entries symbols). simpl.
    rewrite Hspec. clear Hspec Hrun.
    set (rest := List.filter (fun x => String.eqb (Instrument_Symbol x) sym)
                   (entries symbols)).
    destruct (String.eqb (Instrument_Symbol s) sym) eqn:Heq.
    + apply String.eqb_eq in Heq. subst sym. rewrite lookup_insert_eq.
      split.
      * intros [(s' & Hs' & ->)|[Hnil Hw]].
        -- left. exists s'. split; [|reflexivity].
           destruct rest; [discriminate Hs' | exact Hs'].
        -- left. exists s. rewrite Hnil. split; [reflexivity | by injection Hw].
      * intros [(s' & Hs' & ->)|[Hnil _]]; [|discriminate Hnil].
        destruct rest as [|r rest'] eqn:Hrest.
        -- right. split; [reflexivity|]. simpl in Hs'. by injection Hs' as ->.
        -- left. exists s'. split; [exact Hs' | reflexivity].
    + apply String.eqb_neq in Heq. rewrite lookup_insert_ne by done. reflexivity.
Qed.

(** X18. [Init] gives the broker exactly one worker per symbol name of
    the list, for a list that is not empty and has no nil entry: the worker
    of a name is a fresh one (no orders, empty buffers) for the last
    instrument of the list with that name, with the broker's delay and
    limit-order mode.  An empty list of symbols makes [Init] panic. *)
Theorem SimBroker_Init_workers (b : SimBroker) (errs : option (list error))
    (sent : list event) (symbols : list (option Instrument)) :
  (Forall is_Some symbols -> symbols <> [] ->
   exists b' : SimBroker,
     SimBroker_Init errs sent symbols b = Ok b'
     /\ sb_errChan b' = errs /\ sb_events b' = sent
     /\ forall sym w,
          workers b' !! sym = Some w <->
          exists s, last (List.filter (fun x => String.eqb (Instrument_Symbol x) sym)
                            (entries symbols)) = Some s
                    /\ w = mkWorker s errs sent (sb_delay b) (sb_strictLimitOrders b)
                             ∅ [] [] zeroTime zeroTime)
  /\ SimBroker_Init errs sent [] b = Panic "No symbols specified".
Proof.
  split; [|reflexivity].
  intros Hsome Hne.
  destruct (initWorkers_spec b errs sent symbols Hsome ∅) as (ws & Hrun & Hspec).
  eexists. split.
  { unfold SimBroker_Init. destruct symbols; [done|]. rewrite Hrun. reflexivity. }
  split; [reflexivity|]. split; [reflexivity|].
  intros sym w. simpl. rewrite Hspec. split.
  - intros [Hl|[_ Hl]]; [exact Hl | by apply lookup_empty_Some in Hl].
  - intros Hl. by left.
Qed.

Lemma SimBroker_Init_workers_witness :
  exists b' : SimBroker,
    SimBroker_Init (Some []) [] [Some acme; Some SampleBroker.bolt] SampleBroker.uninitialised
    = Ok b'
    /\ (symbol <$> workers b' !! "BOLT") = Some SampleBroker.bolt.
Proof.
  destruct (SimBroker_Init_workers SampleBroker.uninitialised (Some []) []
              [Some acme; Some SampleBroker.bolt]) as [Hinit _].
  destruct Hinit as (b' & Hrun & _ & _ & Hworkers).
  - repeat constructor; by eexists.
  - discriminate.
  - exists b'. split; [exact Hrun|].
    destruct (Hworkers "BOLT"
                (mkWorker SampleBroker.bolt (Some []) [] 100 false ∅ [] [] zeroTime zeroTime))
      as [_ Hl].
    rewrite Hl; [reflexivity|]. eexists. split; reflexivity.
Defined.

Section BrokerRouting.
Context `{MarketDataOps}.

Lemma handleRequest_events (e : event) (b b' : simBrokerWorker) :
  handleRequest e b = Ok (tt, b') -> events b' = events b.
Proof.
  intros Hrun. destruct (isRequest e) eqn:He.
  - destruct (handleRequest_total e b He) as (b1 & ans & Hrun1 & _ & _ & _ & Hev & _).
    rewrite Hrun1 in Hrun. by injection Hrun as <-.
  - destruct e; try discriminate He; discriminate Hrun.
Qed.

Lemma proceedLoop_events (T : Time) (l : list event) :
  forall (eventsLeft r : list event) (b b' : simBrokerWorker),
  proceedLoop T l eventsLeft b = Ok (r, b') -> events b' = events b.
Proof.
  induction l as [|e l IH]; intros eventsLeft r b b' Hrun.
  - by injection Hrun as _ <-.
  - cbn [proceedLoop] in Hrun. unfold bind at 1, get at 1 in Hrun.
    destruct (Before _ T).
    + unfold bind in Hrun.
      destruct (handleRequest e b) as [[[] b1]|] eqn:Hh; [|discriminate].
      rewrite (IH _ _ _ _ Hrun). by eapply handleRequest_events.
    + by eapply IH.
Qed.

Lemma proceedStoredRequests_events (T : Time) (b b' : simBrokerWorker) :
  proceedStoredRequests T b = Ok (tt, b') -> events b' = events b.
Proof.
  unfold proceedStoredRequests, bind at 1, get at 1.
  destruct (requestEvents b) as [|r0 rs]; [by intros [= <-]|].
  unfold bind, modify.
  destruct (proceedLoop _ _ _ _) as [[left b1]|] eqn:Hloop; [|discriminate].
  intros [= <-]. simpl. by rewrite (proceedLoop_events _ _ _ _ _ _ Hloop).
Qed.

Lemma findExecutions_events (mapOrder : gmap string simBrokerOrder -> list string)
    (md : event) (b b' : simBrokerWorker) :
  findExecutions mapOrder md b = Ok (tt, b') ->
  exists batch, events b' = events b ++ batch /\ md ∈ batch.
Proof.
  unfold findExecutions, bind at 1, get.
  destruct (_ && _).
  { intros [= <-]. exists [md]. split; [reflexivity | by left]. }
  unfold bind, modify.
  set (b0 := set_generatedEvents (fun l => l ++ [md]) b).
  destruct (isMarketData md); [|discriminate].
  destruct (rangeOrders md (mapOrder (orders b)) [] b0) as [[gen b1]|] eqn:Hrange;
    [|discriminate].
  destruct (forEach gen addBrokerEvent b1) as [[[] b2]|] eqn:Hfor; [|discriminate].
  unfold releaseEvents, modify. rewrite splitByTime_filter. simpl.
  intros [= <-]. simpl.
  destruct (rangeOrders_appends _ _ _ _ _ _ Hrange)
    as (ids & newgen & extra & Hgen & Hnamed & (_ & Hev1 & Hg1 & _) & _).
  simpl in Hgen. subst gen.
  destruct (forEach_addBrokerEvent_appends ids newgen Hnamed _ _ Hfor)
    as (_ & Hev2 & Hg2 & _).
  eexists. split; [by rewrite Hev2, Hev1|].
  destruct (release_split md (generatedEvents b2)) as (_ & _ & _ & Hin & _).
  apply Hin. rewrite Hg2, Hg1. subst b0. simpl.
  apply elem_of_app. left. apply elem_of_app. left. apply elem_of_app. right. by left.
Qed.

Lemma notify_events (mapOrder : gmap string simBrokerOrder -> list string)
    (e : event) (b b' : simBrokerWorker) :
  notify mapOrder e b = Ok (tt, b') ->
  exists batch, events b' = events b ++ batch.
Proof.
  assert (Hrest : forall w w1 w',
            events w1 = events w ->
            (proceedStoredRequests (getTime e) ;;; findExecutions mapOrder e) w1
            = Ok (tt, w') ->
            exists batch, events w' = events w ++ batch).
  { intros w w1 w' Hw Hrun. unfold bind in Hrun.
    destruct (proceedStoredRequests _ w1) as [[[] w2]|] eqn:Hp; [|discriminate].
    destruct (findExecutions_events _ _ _ _ Hrun) as (batch & Hb & _).
    exists batch. by rewrite Hb, (proceedStoredRequests_events _ _ _ Hp), Hw. }
  destruct e; try discriminate; simpl.
  1,2,3: intros [= <-]; exists []; by rewrite app_nil_r.
  - unfold onTick. destruct (negb _).
    + unfold newError. destruct (errChan b); [|discriminate].
      intros [= <-]. exists []. by rewrite app_nil_r.
    + unfold bind at 1, get. destruct (Before _ _); [discriminate|].
      unfold bind at 1, modify. apply Hrest. reflexivity.
  - unfold onCandleOpen, bind at 1, get. destruct (Before _ _); [discriminate|].
    unfold bind at 1, modify. apply Hrest. reflexivity.
  - unfold onCandleClose, bind at 1, get. destruct (Before _ _); [discriminate|].
    unfold bind at 1, modify. apply Hrest. reflexivity.
Qed.

(** X19. [Notify] routes by symbol.  An event whose symbol has no worker
    makes the broker panic.  Otherwise only the worker of the event's
    symbol runs: the workers of all other symbols are left as they were,
    and what had been sent on the shared events channel stays in place,
    new events being added after it. *)
Theorem SimBroker_Notify_routes (mapOrder : gmap string simBrokerOrder -> list string)
    (e : event) (b : SimBroker) :
  (workers b !! getSymbol e = None ->
   exists msg, SimBroker_Notify mapOrder e b = Panic msg)
  /\ (forall b' : SimBroker,
        SimBroker_Notify mapOrder e b = Ok b' ->
        (forall sym, sym <> getSymbol e -> workers b' !! sym = workers b !! sym)
        /\ is_Some (workers b' !! getSymbol e)
        /\ (exists batch, sb_events b' = sb_events b ++ batch)
        /\ sb_delay b' = sb_delay b
        /\ sb_strictLimitOrders b' = sb_strictLimitOrders b).
Proof.
  split.
  - intros Hnone. unfold SimBroker_Notify. rewrite Hnone. destruct e; by eexists.
  - intros b'. unfold SimBroker_Notify.
    destruct (workers b !! getSymbol e) as [w|]; [|destruct e; discriminate].
    cbv zeta.
    destruct (notify mapOrder e _) as [[[] w']|] eqn:Hrun; [|discriminate].
    intros [= <-]. simpl.
    split; [intros sym Hne; by rewrite lookup_insert_ne|].
    split; [rewrite lookup_insert_eq; by eexists|].
    split; [|done].
    destruct (notify_events _ _ _ _ Hrun) as (batch & Hb). exists batch. exact Hb.
Qed.

End BrokerRouting.

Lemma SimBroker_Notify_routes_witness :
  (exists msg,
     @SimBroker_Notify specOps listOrder (tickEvent (atMs 1000) 99%float 4)
       SampleBroker.uninitialised = Panic msg)
  /\ @SimBroker_Notify specOps listOrder (tickEvent (atMs 1000) 99%float 4)
       SampleBroker.twoSymbols = Ok SampleBroker.afterTick
  /\ workers SampleBroker.afterTick !! "BOLT" = workers SampleBroker.twoSymbols !! "BOLT"
  /\ exists batch, sb_events SampleBroker.afterTick = sb_events SampleBroker.twoSymbols ++ batch.
Proof.
  split.
  - destruct (@SimBroker_Notify_routes specOps listOrder (tickEvent (atMs 1000) 99%float 4)
                SampleBroker.uninitialised) as [Hpanic _].
    apply Hpanic. reflexivity.
  - assert (Hrun : @SimBroker_Notify specOps listOrder (tickEvent (atMs 1000) 99%float 4)
                     SampleBroker.twoSymbols = Ok SampleBroker.afterTick)
      by (vm_compute; reflexivity).
    split; [exact Hrun|].
    destruct (@SimBroker_Notify_routes specOps listOrder (tickEvent (atMs 1000) 99%float 4)
                SampleBroker.twoSymbols) as [_ Hroute].
    destruct (Hroute _ Hrun) as (Hothers & _ & Hsent & _).
    split; [apply Hothers; discriminate | exact Hsent].
Defined.

(** ** The worker's market-data clocks *)

Section Clocks.
Context `{MarketDataOps}.

Lemma handleRequest_sameSetup (e : event) (b b' : simBrokerWorker) :
  handleRequest e b = Ok (tt, b') -> sameSetup b b'.
Proof.
  intros Hrun. destruct (isRequest e) eqn:He.
  - destruct (handleRequest_total e b He) as (b1 & ans & Hrun1 & Hs & _).
    rewrite Hrun1 in Hrun. by injection Hrun as <-.
  - destruct e; try discriminate He; discriminate Hrun.
Qed.

Lemma proceedLoop_clocks (T : Time) (l : list event) :
  forall (eventsLeft r : list event) (b b' : simBrokerWorker),
  proceedLoop T l eventsLeft b = Ok (r, b') ->
  lastTickTime b' = lastTickTime b /\ lastCandleTime b' = lastCandleTime b.
Proof.
  induction l as [|e l IH]; intros eventsLeft r b b' Hrun.
  - by injection Hrun as _ <-.
  - cbn [proceedLoop] in Hrun. unfold bind at 1, get at 1 in Hrun.
    destruct (Before _ T).
    + unfold bind in Hrun.
      destruct (handleRequest e b) as [[[] b1]|] eqn:Hh; [|discriminate].
      destruct (IH _ _ _ _ Hrun) as [Ht Hc].
      destruct (handleRequest_sameSetup _ _ _ Hh) as (_ & _ & _ & _ & Ht1 & Hc1).
      split; congruence.
    + by eapply IH.
Qed.

Lemma arrival_clocks (mapOrder : gmap string simBrokerOrder -> list string)
    (e : event) (b b' : simBrokerWorker) :
  (proceedStoredRequests (getTime e) ;;; findExecutions mapOrder e) b = Ok (tt, b') ->
  lastTickTime b' = lastTickTime b /\ lastCandleTime b' = lastCandleTime b.
Proof.
  unfold bind at 1.
  destruct (proceedStoredRequests (getTime e) b) as [[[] b1]|] eqn:Hp; [|discriminate].
  intros Hf.
  assert (H1 : lastTickTime b1 = lastTickTime b /\ lastCandleTime b1 = lastCandleTime b).
  { unfold proceedStoredRequests, bind at 1, get at 1 in Hp.
    destruct (requestEvents b) as [|r0 rs]; [by injection Hp as <-|].
    unfold bind, modify in Hp.
    destruct (proceedLoop _ _ _ _) as [[left b2]|] eqn:Hloop; [|discriminate].
    injection Hp as <-. simpl. apply (proceedLoop_clocks _ _ _ _ _ _ Hloop). }
  assert (H2 : lastTickTime b' = lastTickTime b1 /\ lastCandleTime b' = lastCandleTime b1).
  { unfold findExecutions, bind at 1, get in Hf.
    destruct (_ && _); [by injection Hf as <-|].
    unfold bind, modify in Hf.
    set (b0 := set_generatedEvents (fun l => l ++ [e]) b1) in Hf.
    destruct (isMarketData e); [|discriminate].
    destruct (rangeOrders e (mapOrder (orders b1)) [] b0) as [[gen b2]|] eqn:Hrange;
      [|discriminate].
    destruct (forEach gen addBrokerEvent b2) as [[[] b3]|] eqn:Hfor; [|discriminate].
    unfold releaseEvents, modify in Hf. rewrite splitByTime_filter in Hf.
    injection Hf as <-. simpl.
    destruct (rangeOrders_appends _ _ _ _ _ _ Hrange)
      as (ids & newgen & extra & Hgen & Hnamed & ((_ & _ & _ & _ & Ht1 & Hc1) & _) & _).
    simpl in Hgen. subst gen.
    destruct (forEach_addBrokerEvent_appends ids newgen Hnamed _ _ Hfor)
      as ((_ & _ & _ & _ & Ht2 & Hc2) & _).
    subst b0. simpl in Ht1, Hc1. split; congruence. }
  destruct H1, H2. split; congruence.
Qed.

(** X20. The worker keeps one clock for ticks and one for candles, and
    neither moves back.  A notification that returns leaves both clocks as
    they were, except that a valid tick sets the tick clock to the tick's
    time, a candle open sets the candle clock to the candle's time, and a
    candle close sets it to the event's time; in each case the new value
    is not before the old one (earlier market data makes the worker
    panic).  A tick that is not valid does not move the clock. *)
Theorem market_data_clocks (mapOrder : gmap string simBrokerOrder -> list string)
    (e : event) (b b' : simBrokerWorker) :
  notify mapOrder e b = Ok (tt, b') ->
  unixNano (lastTickTime b) <= unixNano (lastTickTime b')
  /\ unixNano (lastCandleTime b) <= unixNano (lastCandleTime b')
  /\ lastTickTime b'
     = match e with
       | NewTickEvent _ tick =>
           if Tick_IsValid tick then Tick_Datetime tick else lastTickTime b
       | _ => lastTickTime b
       end
  /\ lastCandleTime b'
     = match e with
       | CandleOpenEvent _ _ CandleTime _ => CandleTime
       | CandleCloseEvent eb _ _ => BaseEvent_Time eb
       | _ => lastCandleTime b
       end.
Proof.
  assert (Hle : forall t u, Before t u = false -> unixNano u <= unixNano t).
  { intros t u Hb. unfold Before in Hb. by apply Z.ltb_ge in Hb. }
  destruct e; try discriminate; simpl.
  1,2,3: intros [= <-]; simpl; repeat split; lia.
  - unfold onTick. destruct (Tick_IsValid tick); simpl.
    + unfold bind at 1, get. destruct (Before _ _) eqn:Hb; [discriminate|].
      unfold bind at 1, modify. intros Hrun.
      destruct (arrival_clocks _ _ _ _ Hrun) as [Ht Hc]. simpl in Ht, Hc.
      rewrite Ht, Hc. repeat split; [by apply Hle | lia].
    + unfold newError. destruct (errChan b); [|discriminate].
      intros [= <-]; simpl; repeat split; lia.
  - unfold onCandleOpen, bind at 1, get. destruct (Before _ _) eqn:Hb; [discriminate|].
    unfold bind at 1, modify. intros Hrun.
    destruct (arrival_clocks _ _ _ _ Hrun) as [Ht Hc]. simpl in Ht, Hc.
    rewrite Ht, Hc. repeat split; [lia | by apply Hle].
  - unfold onCandleClose, bind at 1, get. destruct (Before _ _) eqn:Hb; [discriminate|].
    unfold bind at 1, modify. intros Hrun.
    destruct (arrival_clocks _ _ _ _ Hrun) as [Ht Hc]. simpl in Ht, Hc.
    rewrite Ht, Hc. repeat split; [lia | by apply Hle].
Qed.

End Clocks.

Lemma market_data_clocks_witness :
  lastTickTime SampleInvariant.afterNextTick = atMs 2000
  /\ unixNano (lastTickTime SampleInvariant.afterPartialFill)
     <= unixNano (lastTickTime SampleInvariant.afterNextTick).
Proof.
  destruct (@market_data_clocks specOps listOrder SampleInvariant.nextTick
              SampleInvariant.afterPartialFill SampleInvariant.afterNextTick)
    as (Hle & _ & Htick & _).
  - vm_compute. reflexivity.
  - split; [exact Htick | exact Hle].
Defined.
